(** * Group state synchronisation of signalmeow (pkg/signalmeow/groups.go)

    A shallow embedding of the group cache, the daily credential manager,
    the group decryption pipeline, the master-key codec and the active-call
    tracker, together with the properties established about them. *)

From Stdlib Require Import ZArith Lia List Ascii String.
From Stdlib.Strings Require Import Byte.
From stdpp Require Import base option list strings gmap pretty.

Local Open Scope string_scope.
Local Open Scope list_scope.
Local Open Scope Z_scope.

(** ** Go values *)

(** A Go [error]: a message, possibly wrapping another error
    ([fmt.Errorf("...: %w", err)]). *)
Inductive error : Type :=
| errorString (msg : string)
| wrapError (msg : string) (inner : error).

(** The outcome of a Go call returning [(T, error)]: a value, a non-nil
    error, or a run-time panic that unwinds the caller. *)
Inductive result (A : Type) : Type :=
| Ok (a : A)
| Err (e : error)
| Panic (why : error).
Arguments Ok {A} a.
Arguments Err {A} e.
Arguments Panic {A} why.

Definition bindR {A B} (m : result A) (k : A -> result B) : result B :=
  match m with
  | Ok a => k a
  | Err e => Err e
  | Panic p => Panic p
  end.

(** [wrapping msg m]: [if err != nil { return nil, fmt.Errorf(msg+": %w", err) }]. *)
Definition wrapping {A} (msg : string) (m : result A) : result A :=
  match m with
  | Err e => Err (wrapError msg e)
  | other => other
  end.

Definition is_Ok {A} (m : result A) : bool :=
  match m with Ok _ => true | _ => false end.
Definition is_Err {A} (m : result A) : bool :=
  match m with Err _ => true | _ => false end.

(** What a callee outside this package hands back as [(T, error)]. *)
Definition returns (A : Type) : Type := (A + error)%type.

Definition call {A} (r : returns A) : result A :=
  match r with
  | inl a => Ok a
  | inr e => Err e
  end.

Declare Scope go_scope.
Delimit Scope go_scope with go.
Notation "'let*' x ':=' m 'in' k" := (bindR m (fun x => k))
  (at level 10, x pattern, m at level 100, k at level 200) : go_scope.

(** A Go [byte] read as an unsigned integer, and the conversion [byte(v)]
    that keeps the low eight bits. *)
Definition uint (b : byte) : Z := Z.of_N (Byte.to_N b).
Definition byte_of_Z (v : Z) : byte :=
  default Byte.x00 (Byte.of_N (Z.to_N (v mod 256))).

#[global] Instance byte_eq_dec : EqDecision byte := Byte.byte_eq_dec.

(** ** encoding/base64, [StdEncoding]

    The alphabet of RFC 4648 with [=] padding, as Go's standard library
    implements it: [Encode] works on groups of three bytes, [Decode] reads
    quanta of four characters, skips CR and LF, and rejects bad padding and
    trailing garbage. *)
Module base64.

Definition encodeStd : string :=
  "ABCDEFGHIJKLMNOPQRSTUVWXYZabcdefghijklmnopqrstuvwxyz0123456789+/".

Definition padChar : ascii := "="%char.

(** [enc.encode[v]] *)
Definition encode (v : Z) : ascii :=
  default "A"%char (String.get (Z.to_nat v) encodeStd).

Fixpoint index_from (i : Z) (c : ascii) (alphabet : string) : Z :=
  match alphabet with
  | EmptyString => 255
  | String a rest => if Ascii.eqb a c then i else index_from (i + 1) c rest
  end.

(** [enc.decodeMap[c]]: the position of [c] in the alphabet, [0xff] when it
    is not part of it. *)
Definition decodeMap (c : ascii) : Z := index_from 0 c encodeStd.

Definition isNewline (c : ascii) : bool :=
  Ascii.eqb c "010"%char || Ascii.eqb c "013"%char.

Definition val3 (b0 b1 b2 : Z) : Z :=
  Z.lor (Z.lor (Z.shiftl b0 16) (Z.shiftl b1 8)) b2.

Definition sextet (val : Z) (sh : Z) : ascii :=
  encode (Z.land (Z.shiftr val sh) 63).

Fixpoint Encode (src : list byte) : string :=
  match src with
  | b0 :: b1 :: b2 :: rest =>
      let val := val3 (uint b0) (uint b1) (uint b2) in
      String (sextet val 18) (String (sextet val 12)
        (String (sextet val 6) (String (sextet val 0) (Encode rest))))
  | [b0; b1] =>
      let val := Z.lor (Z.shiftl (uint b0) 16) (Z.shiftl (uint b1) 8) in
      String (sextet val 18) (String (sextet val 12)
        (String (sextet val 6) (String padChar "")))
  | [b0] =>
      let val := Z.shiftl (uint b0) 16 in
      String (sextet val 18) (String (sextet val 12)
        (String padChar (String padChar "")))
  | [] => ""
  end.

Definition EncodeToString (src : list byte) : string := Encode src.

Fixpoint skipNewlines (s : string) : string :=
  match s with
  | String c rest => if isNewline c then skipNewlines rest else s
  | EmptyString => EmptyString
  end.

(** The tail of [decodeQuantum]: [dlen] six-bit values become [dlen - 1]
    bytes. *)
Definition quantumBytes (dbuf : list Z) : list byte :=
  let d := fun i => nth i dbuf 0 in
  let val := Z.lor (Z.lor (Z.lor (Z.shiftl (d 0%nat) 18) (Z.shiftl (d 1%nat) 12))
                          (Z.shiftl (d 2%nat) 6)) (d 3%nat) in
  take (length dbuf - 1)
       [byte_of_Z (Z.shiftr val 16); byte_of_Z (Z.shiftr val 8); byte_of_Z val].

Definition isEmpty (s : string) : bool :=
  match s with EmptyString => true | _ => false end.

(** [Decode]: the loop over [decodeQuantum], with the quantum being filled
    ([dbuf], of length [j]) carried along.  [None] is a
    [CorruptInputError]. *)
Fixpoint Decode (dbuf : list Z) (src : string) : option (list byte) :=
  match src with
  | EmptyString =>
      match dbuf with
      | [] => Some []
      | _ => None
      end
  | String c rest =>
      let out := decodeMap c in
      if negb (out =? 255) then
        let dbuf' := dbuf ++ [out] in
        if (length dbuf' =? 4)%nat
        then app (quantumBytes dbuf') <$> Decode [] rest
        else Decode dbuf' rest
      else if isNewline c then Decode dbuf rest
      else if negb (Ascii.eqb c padChar) then None
      else
        match length dbuf with
        | 0%nat | 1%nat => None
        | 2%nat =>
            match skipNewlines rest with
            | EmptyString => None
            | String c2 rest2 =>
                if negb (Ascii.eqb c2 padChar) then None
                else if isEmpty (skipNewlines rest2)
                     then Some (quantumBytes dbuf) else None
            end
        | _ =>
            if isEmpty (skipNewlines rest)
            then Some (quantumBytes dbuf) else None
        end
  end.

Definition DecodeString (s : string) : option (list byte) := Decode [] s.

End base64.

(** ** encoding/hex *)
Module hex.

Definition hextable : string := "0123456789abcdef".

Definition digit (v : Z) : ascii :=
  default "0"%char (String.get (Z.to_nat v) hextable).

Fixpoint EncodeToString (src : list byte) : string :=
  match src with
  | [] => ""
  | b :: rest =>
      String (digit (Z.shiftr (uint b) 4))
             (String (digit (Z.land (uint b) 15)) (EncodeToString rest))
  end.

End hex.

(** ** package time

    A [time.Time] is the number of nanoseconds since the Unix epoch, a
    [time.Duration] a number of nanoseconds held in an int64. *)
Module time.

Abbreviation Time := Z (only parsing).
Abbreviation Duration := Z (only parsing).

Definition Nanosecond : Duration := 1.
Definition Second : Duration := 1000000000 * Nanosecond.
Definition Hour : Duration := 3600 * Second.

Definition minDuration : Duration := - 2 ^ 63.
Definition maxDuration : Duration := 2 ^ 63 - 1.

(** Seconds between the zero [Time] (January 1, year 1) and the Unix epoch. *)
Definition unixToInternal : Z := 62135596800.

Definition Add (t : Time) (d : Duration) : Time := t + d.

(** [t.Sub(u)] saturates at the ends of the int64 range. *)
Definition Sub (t u : Time) : Duration :=
  Z.max minDuration (Z.min maxDuration (t - u)).

(** [t.Truncate(d)] rounds down to a multiple of [d] since the zero time. *)
Definition Truncate (t : Time) (d : Duration) : Time :=
  if d <=? 0 then t else t - (t + unixToInternal * Second) mod d.

Definition Unix (t : Time) : Z := t / Second.

End time.

(** ** Types of the collaborating packages *)

Module uuid.
Abbreviation UUID := (list byte) (only parsing).
End uuid.

Module libsignalgo.
(** [libsignalgo.GroupMasterKey] is a fixed-size byte array; its length is
    [C.SignalGROUP_MASTER_KEY_LEN] of the libsignal FFI header. *)
Abbreviation GroupMasterKey := (list byte) (only parsing).
Abbreviation ProfileKey := (list byte) (only parsing).
Abbreviation GroupPublicParams := (list byte) (only parsing).
Abbreviation GroupIdentifier := (list byte) (only parsing).
Abbreviation Randomness := (list byte) (only parsing).
End libsignalgo.

Module types.
Abbreviation SerializedGroupMasterKey := string (only parsing).
Abbreviation GroupIdentifier := string (only parsing).
End types.

(** Modelled from the spec: the generated protobuf package [signalpb] is not
    part of the sources; the messages carry the fields groups.go reads.  A
    [Member_Role] is an open int32 enumeration, a repeated message field a
    slice of pointers that may be nil. *)
Module signalpb.

Record Member := {
  UserId : list byte;
  Role : Z;
  ProfileKey : list byte;
  JoinedAtRevision : Z;
}.

Definition set_Role (role : Z) (m : Member) : Member :=
  {| UserId := UserId m; Role := role; ProfileKey := ProfileKey m;
     JoinedAtRevision := JoinedAtRevision m |}.

Record Group := {
  Title : list byte;
  Avatar : string;
  DisappearingMessagesTimer : list byte;
  Members : list (option Member);
  Revision : Z;
  Description : list byte;
}.

(** The [content] oneof of a [GroupAttributeBlob]. *)
Inductive GroupAttributeBlob :=
| ContentNone
| ContentTitle (title : string)
| ContentAvatar (avatar : list byte)
| ContentDisappearingMessagesDuration (duration : Z)
| ContentDescription (description : string).

Definition GetTitle (b : GroupAttributeBlob) : string :=
  match b with ContentTitle t => t | _ => "" end.
Definition GetDescription (b : GroupAttributeBlob) : string :=
  match b with ContentDescription d => d | _ => "" end.
Definition GetAvatar (b : GroupAttributeBlob) : list byte :=
  match b with ContentAvatar a => a | _ => [] end.
Definition GetDisappearingMessagesDuration (b : GroupAttributeBlob) : Z :=
  match b with ContentDisappearingMessagesDuration d => d | _ => 0 end.

(** A [WebSocketResponseMessage]; [Status] is an optional (pointer) field. *)
Record WebSocketResponseMessage := {
  Status : option Z;
  Body : list byte;
}.

End signalpb.

(** Modelled from the spec: [GroupCredential] and [GroupCredentials] are
    declared in a file that is not part of the sources; a bundle holds one
    credential response per day, keyed by its redemption time in epoch
    seconds, and the PNI the server issued it for. *)
Record GroupCredential := {
  Credential : list byte;
  RedemptionTime : Z;
}.

Record GroupCredentials := {
  Credentials : list GroupCredential;
  PNI : uuid.UUID;
}.

(** ** groups.go: data *)

Abbreviation GroupMemberRole := Z (only parsing).
Definition GroupMember_UNKNOWN : GroupMemberRole := 0.
Definition GroupMember_DEFAULT : GroupMemberRole := 1.
Definition GroupMember_ADMINISTRATOR : GroupMemberRole := 2.

(** The conversion [GroupMemberRole(member.Role)] between two int32 types. *)
Definition GroupMemberRole_of (role : Z) : GroupMemberRole := role.

Record GroupMember := {
  UserID : uuid.UUID;
  Role : GroupMemberRole;
  ProfileKey : libsignalgo.ProfileKey;
  JoinedAtRevision : Z;
}.

Record Group := {
  groupMasterKey : types.SerializedGroupMasterKey;
  GroupIdentifier : types.GroupIdentifier;
  Title : string;
  AvatarPath : string;
  Members : list GroupMember;
  Description : string;
  AnnouncementsOnly : bool;
  Revision : Z;
  DisappearingMessagesDuration : Z;
}.

Record GroupAuth := {
  Username : string;
  Password : string;
}.

Record GroupCache := {
  groups : gmap string Group;
  lastFetched : gmap string time.Time;
  activeCalls : gmap string string;
}.

(** The fields of [Client] (and of its [Store]) that groups.go uses. *)
Record Client := {
  Store_ACI : uuid.UUID;
  Store_PNI : uuid.UUID;
  cli_GroupCredentials : option GroupCredentials;
  cli_GroupCache : option GroupCache;
}.

Definition set_GroupCredentials (creds : option GroupCredentials) (cli : Client) : Client :=
  {| Store_ACI := Store_ACI cli; Store_PNI := Store_PNI cli;
     cli_GroupCredentials := creds; cli_GroupCache := cli_GroupCache cli |}.

Definition set_GroupCache (cache : option GroupCache) (cli : Client) : Client :=
  {| Store_ACI := Store_ACI cli; Store_PNI := Store_PNI cli;
     cli_GroupCredentials := cli_GroupCredentials cli; cli_GroupCache := cache |}.

(** ** Master-key codec *)

(** The conversion [libsignalgo.GroupMasterKey(slice)] of a slice to an
    array of [len] bytes: a run-time panic when the slice is shorter, the
    first [len] bytes otherwise.  The value carried by [Panic] stands for
    the run-time error; its text is not the runtime's. *)
Definition slice_to_array (len : nat) (s : list byte) : result (list byte) :=
  if (length s <? len)%nat
  then Panic (errorString "cannot convert slice to array: slice too short")
  else Ok (take len s).

Section MasterKey.
Variable GROUP_MASTER_KEY_LEN : nat.

(** The panic value is the decoding error wrapped in the message of the
    source; the decoding error itself is kept abstract (Go's
    [base64.CorruptInputError] also names the offending offset). *)
Definition masterKeyToBytes (groupMasterKey : types.SerializedGroupMasterKey)
  : result libsignalgo.GroupMasterKey :=
  match base64.DecodeString groupMasterKey with
  | None =>
      Panic (wrapError
               "we should always be able to decode groupMasterKey into masterKeyBytes"
               (errorString "illegal base64 data"))
  | Some masterKeyBytes => slice_to_array GROUP_MASTER_KEY_LEN masterKeyBytes
  end.

Definition masterKeyFromBytes (masterKey : libsignalgo.GroupMasterKey)
  : types.SerializedGroupMasterKey :=
  base64.EncodeToString masterKey.

End MasterKey.

(** ** Active-call tracker and cache initialisation *)

Definition emptyGroupCache : GroupCache :=
  {| groups := ∅; lastFetched := ∅; activeCalls := ∅ |}.

Definition initGroupCache (cli : Client) : Client :=
  match cli_GroupCache cli with
  | None => set_GroupCache (Some emptyGroupCache) cli
  | Some _ => cli
  end.

Definition set_activeCalls (calls : gmap string string) (cache : GroupCache) : GroupCache :=
  {| groups := groups cache; lastFetched := lastFetched cache; activeCalls := calls |}.

(** The cache behind [cli.GroupCache]; the pointer is never nil once
    [initGroupCache] has run. *)
Definition theCache (cli : Client) : GroupCache :=
  default emptyGroupCache (cli_GroupCache cli).

Definition UpdateActiveCalls (gid : types.GroupIdentifier) (callID : string)
    (cli0 : Client) : bool * Client :=
  let cli := initGroupCache cli0 in
  let cache := theCache cli in
  match activeCalls cache !! gid with
  | Some currentCallID =>
      if String.eqb currentCallID callID
      then (false, set_GroupCache
                     (Some (set_activeCalls (delete gid (activeCalls cache)) cache)) cli)
      else (true, set_GroupCache
                    (Some (set_activeCalls (<[gid := callID]> (activeCalls cache)) cache)) cli)
  | None =>
      (true, set_GroupCache
               (Some (set_activeCalls (<[gid := callID]> (activeCalls cache)) cache)) cli)
  end.

(** ** The collaborators

    Everything groups.go calls outside its own file: the libsignal bindings
    (pure functions of their arguments), the parsers, and the effectful
    environment (clock, randomness, network, stores), whose operations take
    and return the state of the outside [World]. *)

Module web.
(** Modelled from the spec: package [web] is not part of the sources; a
    request carries what groups.go puts into it. *)
Record HTTPReqOpt := {
  Username : option string;
  Password : option string;
  ContentType : string;
  Host : string;
}.

Record WSRequest := {
  Verb : string;
  Path : string;
}.

Definition CreateWSRequest (verb path : string) : WSRequest :=
  {| Verb := verb; Path := path |}.
End web.

Module http.
Definition MethodGet : string := "GET".
End http.

Class Collaborators := {
  World : Type;
  (* libsignalgo *)
  GroupSecretParams : Type;
  ServerPublicParams : Type;
  AuthCredentialWithPniResponse : Type;
  AuthCredentialWithPni : Type;
  GROUP_MASTER_KEY_LEN : nat;
  prodServerPublicParams : ServerPublicParams;
  DeriveGroupSecretParamsFromMasterKey :
    libsignalgo.GroupMasterKey -> returns GroupSecretParams;
  GetPublicParams : GroupSecretParams -> returns libsignalgo.GroupPublicParams;
  GetGroupIdentifier :
    libsignalgo.GroupPublicParams -> returns libsignalgo.GroupIdentifier;
  DecryptBlobWithPadding : GroupSecretParams -> list byte -> returns (list byte);
  DecryptUUID : GroupSecretParams -> list byte -> returns uuid.UUID;
  DecryptProfileKey :
    GroupSecretParams -> list byte -> uuid.UUID -> returns libsignalgo.ProfileKey;
  NewAuthCredentialWithPniResponse :
    list byte -> returns AuthCredentialWithPniResponse;
  ReceiveAuthCredentialWithPni :
    ServerPublicParams -> uuid.UUID -> uuid.UUID -> Z ->
    AuthCredentialWithPniResponse -> returns AuthCredentialWithPni;
  CreateAuthCredentialWithPniPresentation :
    ServerPublicParams -> libsignalgo.Randomness -> GroupSecretParams ->
    AuthCredentialWithPni -> returns (list byte);
  GenerateRandomness : World -> libsignalgo.Randomness * World;
  (* encoding/json, protobuf *)
  json_Unmarshal_GroupCredentials : list byte -> returns GroupCredentials;
  proto_Unmarshal_Group : list byte -> returns signalpb.Group;
  proto_Unmarshal_GroupAttributeBlob :
    list byte -> returns signalpb.GroupAttributeBlob;
  (* strings, unicode *)
  strings_Map : (Z -> Z) -> string -> string;
  strings_TrimSpace : string -> string;
  unicode_IsGraphic : Z -> bool;
  (* time *)
  time_Now : World -> time.Time * World;
  (* network *)
  ResponseBody : Type;
  StorageHostname : string;
  ContentTypeProtobuf : string;
  AuthedWS_SendRequest :
    web.WSRequest -> World -> returns signalpb.WebSocketResponseMessage * World;
  SendHTTPRequest :
    string -> string -> web.HTTPReqOpt -> World -> returns (Z * ResponseBody) * World;
  io_ReadAll : ResponseBody -> World -> returns (list byte) * World;
  (* stores *)
  MasterKeyFromGroupIdentifier :
    types.GroupIdentifier -> World -> returns types.SerializedGroupMasterKey * World;
  StoreProfileKey :
    uuid.UUID -> libsignalgo.ProfileKey -> World -> returns unit * World;
}.

(** ** Group decryption pipeline *)
Section Decrypt.
Context `{Collaborators}.
Local Open Scope go_scope.

Definition groupIdentifierFromMasterKey
    (masterKey : types.SerializedGroupMasterKey) : result types.GroupIdentifier :=
  let* key := masterKeyToBytes GROUP_MASTER_KEY_LEN masterKey in
  let* groupSecretParams :=
    wrapping "DeriveGroupSecretParamsFromMasterKey error"
             (call (DeriveGroupSecretParamsFromMasterKey key)) in
  let* groupPublicParams :=
    wrapping "GetPublicParams error" (call (GetPublicParams groupSecretParams)) in
  let* groupIdentifier :=
    wrapping "GetGroupIdentifier error" (call (GetGroupIdentifier groupPublicParams)) in
  Ok (base64.EncodeToString groupIdentifier).

Definition decryptGroupPropertyIntoBlob (groupSecretParams : GroupSecretParams)
    (encryptedProperty : list byte) : result signalpb.GroupAttributeBlob :=
  let* decryptedProperty :=
    wrapping "error decrypting blob with padding"
             (call (DecryptBlobWithPadding groupSecretParams encryptedProperty)) in
  let* propertyBlob :=
    wrapping "error unmarshalling blob"
             (call (proto_Unmarshal_GroupAttributeBlob decryptedProperty)) in
  Ok propertyBlob.

Definition cleanupStringMapping (r : Z) : Z :=
  if unicode_IsGraphic r then r else -1.

Definition cleanupStringProperty (property : string) : string :=
  strings_TrimSpace (strings_Map cleanupStringMapping property).

(** One turn of the member loop.  The types [libsignalgo.UUIDCiphertext]
    and [libsignalgo.ProfileKeyCiphertext] are declared outside these
    sources: the conversions of the two ciphertexts to them are taken to
    hand the bytes on, a ciphertext that is not well-formed being refused by
    the decryption. *)
Definition decryptMember (groupSecretParams : GroupSecretParams)
    (member : signalpb.Member) : result GroupMember :=
  let* userID := call (DecryptUUID groupSecretParams (signalpb.UserId member)) in
  let* profileKey :=
    call (DecryptProfileKey groupSecretParams (signalpb.ProfileKey member) userID) in
  Ok {| UserID := userID;
        ProfileKey := profileKey;
        Role := GroupMemberRole_of (signalpb.Role member);
        JoinedAtRevision := signalpb.JoinedAtRevision member |}.

(** The loop over [encryptedGroup.Members]; [acc] is
    [decryptedGroup.Members] so far. *)
Fixpoint decryptMembers (groupSecretParams : GroupSecretParams)
    (members : list (option signalpb.Member)) (acc : list GroupMember)
  : result (list GroupMember) :=
  match members with
  | [] => Ok acc
  | None :: rest => decryptMembers groupSecretParams rest acc
  | Some member :: rest =>
      let* m := decryptMember groupSecretParams member in
      decryptMembers groupSecretParams rest (acc ++ [m])
  end.

(** The description step of [decryptGroup]: the field is set only when the
    blob could be obtained ([if err == nil]); otherwise it keeps its zero
    value. *)
Definition decryptDescription (groupSecretParams : GroupSecretParams)
    (encryptedDescription : list byte) : result string :=
  match decryptGroupPropertyIntoBlob groupSecretParams encryptedDescription with
  | Ok descriptionBlob =>
      Ok (cleanupStringProperty (signalpb.GetDescription descriptionBlob))
  | Err _ => Ok ""   (* treat a failure in obtaining the description as non-fatal *)
  | Panic p => Panic p
  end.

(** The timer step of [decryptGroup]: attempted only for a field that is
    neither nil nor empty. *)
Definition decryptTimer (groupSecretParams : GroupSecretParams)
    (encryptedTimer : list byte) : result Z :=
  match encryptedTimer with
  | [] => Ok 0
  | _ =>
      let* timerBlob :=
        decryptGroupPropertyIntoBlob groupSecretParams encryptedTimer in
      Ok (signalpb.GetDisappearingMessagesDuration timerBlob)
  end.

Definition decryptGroup (encryptedGroup : signalpb.Group)
    (groupMasterKey : types.SerializedGroupMasterKey) : result Group :=
  let* key := masterKeyToBytes GROUP_MASTER_KEY_LEN groupMasterKey in
  let* groupSecretParams := call (DeriveGroupSecretParamsFromMasterKey key) in
  let* gid := groupIdentifierFromMasterKey groupMasterKey in
  let* titleBlob :=
    decryptGroupPropertyIntoBlob groupSecretParams (signalpb.Title encryptedGroup) in
  let title := cleanupStringProperty (signalpb.GetTitle titleBlob) in
  let* description :=
    decryptDescription groupSecretParams (signalpb.Description encryptedGroup) in
  let* duration :=
    decryptTimer groupSecretParams
                 (signalpb.DisappearingMessagesTimer encryptedGroup) in
  let* members :=
    decryptMembers groupSecretParams (signalpb.Members encryptedGroup) [] in
  Ok {| groupMasterKey := groupMasterKey;
        GroupIdentifier := gid;
        Title := title;
        AvatarPath := signalpb.Avatar encryptedGroup;
        Members := members;
        Description := description;
        AnnouncementsOnly := false;
        Revision := signalpb.Revision encryptedGroup;
        DisappearingMessagesDuration := duration |}.

(** The group [decryptGroup] returns, if it returns one. *)
Definition decryptGroup_as_option (encryptedGroup : signalpb.Group)
    (groupMasterKey : types.SerializedGroupMasterKey) : option Group :=
  match decryptGroup encryptedGroup groupMasterKey with
  | Ok g => Some g
  | _ => None
  end.

End Decrypt.

(** ** Stateful operations of the client

    The state threaded through a call: the client's fields, the outside
    world, and a ghost record of the requests issued and of the fetch
    routines entered, in order. *)

Inductive Event :=
| CallFetchGroupByID (gid : types.GroupIdentifier)
| CallFetchNewGroupCreds (today : time.Time)
| WSRequestSent (request : web.WSRequest)
| HTTPRequestSent (method path : string) (opts : web.HTTPReqOpt).

Section ClientOps.
Context `{Collaborators}.

Record State := {
  cli : Client;
  world : World;
  trace : list Event;
}.

Definition M (A : Type) : Type := State -> result A * State.

Definition ret {A} (a : A) : M A := fun s => (Ok a, s).
Definition fail {A} (e : error) : M A := fun s => (Err e, s).
Definition lift {A} (r : result A) : M A := fun s => (r, s).

Definition bindM {A B} (m : M A) (k : A -> M B) : M B :=
  fun s =>
    match m s with
    | (Ok a, s') => k a s'
    | (Err e, s') => (Err e, s')
    | (Panic p, s') => (Panic p, s')
    end.

Definition wrappingM {A} (msg : string) (m : M A) : M A :=
  fun s => let '(r, s') := m s in (wrapping msg r, s').

Definition getCli : M Client := fun s => (Ok (cli s), s).

Definition modifyCli (f : Client -> Client) : M unit :=
  fun s => (Ok tt, {| cli := f (cli s); world := world s; trace := trace s |}).

Definition emit (ev : Event) : M unit :=
  fun s => (Ok tt, {| cli := cli s; world := world s; trace := trace s ++ [ev] |}).

(** An operation of the outside world. *)
Definition external {A} (op : World -> returns A * World) : M A :=
  fun s => let '(r, w) := op (world s) in
           (call r, {| cli := cli s; world := w; trace := trace s |}).

Definition now : M time.Time :=
  external (fun w => let '(t, w') := time_Now w in (inl t, w')).

(** [time.Since(t)] is [time.Now().Sub(t)]. *)
Definition since (t : time.Time) : M time.Duration :=
  fun s => bindM now (fun n => ret (time.Sub n t)) s.

Notation "x <- m ;; k" := (bindM m (fun x => k))
  (at level 100, m at level 99, k at level 200).
Notation "m ;;; k" := (bindM m (fun _ => k))
  (at level 100, k at level 200).

Definition uint64 (v : Z) : Z := v mod 2 ^ 64.

(** The request [fetchNewGroupCreds] builds for the seven days from [today]. *)
Definition groupCredsRequest (today : time.Time) : web.WSRequest :=
  let sevenDaysOut := time.Add today (7 * 24 * time.Hour) in
  let path := "/v1/certificate/auth/group?redemptionStartSeconds="
              +:+ pretty (time.Unix today)
              +:+ "&redemptionEndSeconds=" +:+ pretty (time.Unix sevenDaysOut) in
  web.CreateWSRequest http.MethodGet path.

Definition fetchNewGroupCreds (today : time.Time) : M GroupCredentials :=
  emit (CallFetchNewGroupCreds today) ;;;
  let authRequest := groupCredsRequest today in
  resp <- wrappingM "SendRequest error"
            (emit (WSRequestSent authRequest) ;;;
             external (AuthedWS_SendRequest authRequest)) ;;
  status <- lift (match signalpb.Status resp with
                  | Some st => Ok st
                  | None => Panic (errorString "nil pointer dereference")
                  end) ;;
  if negb (status =? 200)
  then fail (errorString ("bad status code fetching group creds: " +:+ pretty status))
  else
    creds <- lift (call (json_Unmarshal_GroupCredentials (signalpb.Body resp))) ;;
    c <- getCli ;;
    (* make sure pni matches device pni *)
    if negb (bool_decide (PNI creds = Store_PNI c))
    then fail (errorString "creds.PNI != d.PNI")
    else ret creds.

Fixpoint credentialFor (unixDay : Z) (creds : list GroupCredential)
  : option GroupCredential :=
  match creds with
  | [] => None
  | cred :: rest =>
      if RedemptionTime cred =? unixDay then Some cred
      else credentialFor unixDay rest
  end.

Definition getCachedAuthorizationForToday (c : Client) (today : time.Time)
  : option GroupCredential :=
  match cli_GroupCredentials c with
  | None => None   (* No cached credentials *)
  | Some allCreds => credentialFor (time.Unix today) (Credentials allCreds)
  end.

(** The second half of [GetAuthorizationForToday]: today's credential is
    received and presented to the group. *)
Definition presentCredential (todayCred : GroupCredential)
    (masterKey : libsignalgo.GroupMasterKey) : M GroupAuth :=
  let redemptionTime := uint64 (RedemptionTime todayCred) in
  let credential := Credential todayCred in
  authCredentialResponse <- lift (call (NewAuthCredentialWithPniResponse credential)) ;;
  c <- getCli ;;
  authCredential <-
    lift (call (ReceiveAuthCredentialWithPni prodServerPublicParams
                  (Store_ACI c) (Store_PNI c) redemptionTime
                  authCredentialResponse)) ;;
  groupSecretParams <- lift (call (DeriveGroupSecretParamsFromMasterKey masterKey)) ;;
  randomness <- external (fun w => let '(r, w') := GenerateRandomness w in (inl r, w')) ;;
  authCredentialPresentation <-
    lift (call (CreateAuthCredentialWithPniPresentation prodServerPublicParams
                  randomness groupSecretParams authCredential)) ;;
  groupPublicParams <- lift (call (GetPublicParams groupSecretParams)) ;;
  ret {| Username := hex.EncodeToString groupPublicParams;
         Password := hex.EncodeToString authCredentialPresentation |}.

(** The first half: the start of today and the credential for it, from the
    cached bundle or from a fresh one that replaces it. *)
Definition todaysCredential : M (time.Time * option GroupCredential) :=
  t <- now ;;
  (* Timestamps for the start of today, and 7 days later *)
  let today := time.Truncate t (24 * time.Hour) in
  c <- getCli ;;
  match getCachedAuthorizationForToday c today with
  | Some cred => ret (today, Some cred)
  | None =>
      creds <- wrappingM "fetchNewGroupCreds error" (fetchNewGroupCreds today) ;;
      modifyCli (set_GroupCredentials (Some creds)) ;;;
      c' <- getCli ;;
      ret (today, getCachedAuthorizationForToday c' today)
  end.

Definition GetAuthorizationForToday (masterKey : libsignalgo.GroupMasterKey)
  : M GroupAuth :=
  found <- todaysCredential ;;
  match found.2 with
  | None => fail (errorString "couldn't get credential for today")
  | Some todayCred => presentCredential todayCred masterKey
  end.

(** The loop storing the profile keys of the decrypted members. *)
Fixpoint storeProfileKeys (members : list GroupMember) : M unit :=
  match members with
  | [] => ret tt
  | member :: rest =>
      wrappingM "failed to store profile key"
        (external (StoreProfileKey (UserID member) (ProfileKey member))) ;;;
      storeProfileKeys rest
  end.

Definition fetchGroupByID (gid : types.GroupIdentifier) : M Group :=
  emit (CallFetchGroupByID gid) ;;;
  groupMasterKey <- wrappingM "failed to get group master key"
                      (external (MasterKeyFromGroupIdentifier gid)) ;;
  if String.eqb groupMasterKey ""
  then fail (errorString ("No group master key found for group identifier " +:+ gid))
  else
    masterKeyBytes <- lift (masterKeyToBytes GROUP_MASTER_KEY_LEN groupMasterKey) ;;
    groupAuth <- GetAuthorizationForToday masterKeyBytes ;;
    let opts := {| web.Username := Some (Username groupAuth);
                   web.Password := Some (Password groupAuth);
                   web.ContentType := ContentTypeProtobuf;
                   web.Host := StorageHostname |} in
    response <- (emit (HTTPRequestSent http.MethodGet "/v1/groups" opts) ;;;
                 external (SendHTTPRequest http.MethodGet "/v1/groups" opts)) ;;
    let '(statusCode, body) := response in
    if negb (statusCode =? 200)
    then fail (errorString ("fetchGroupByID SendHTTPRequest bad status: "
                            +:+ pretty statusCode))
    else
      groupBytes <- external (io_ReadAll body) ;;
      encryptedGroup <- lift (wrapping "failed to unmarshal group"
                                (call (proto_Unmarshal_Group groupBytes))) ;;
      group <- lift (wrapping "failed to decrypt group"
                       (decryptGroup encryptedGroup groupMasterKey)) ;;
      storeProfileKeys (Members group) ;;;
      ret group.

Definition set_groups (g : gmap string Group) (cache : GroupCache) : GroupCache :=
  {| groups := g; lastFetched := lastFetched cache; activeCalls := activeCalls cache |}.

Definition set_lastFetched (l : gmap string time.Time) (cache : GroupCache) : GroupCache :=
  {| groups := groups cache; lastFetched := l; activeCalls := activeCalls cache |}.

Definition modifyCache (f : GroupCache -> GroupCache) : M unit :=
  modifyCli (fun c => set_GroupCache (Some (f (theCache c))) c).

(** The cache lookup at the head of [RetrieveGroupByID]: the group to
    return without fetching, if any. *)
Definition cachedGroup (gid : types.GroupIdentifier) (revision : Z)
  : M (option Group) :=
  c <- getCli ;;
  match lastFetched (theCache c) !! gid with
  | Some fetched =>
      elapsed <- since fetched ;;
      if elapsed <? 1 * time.Hour then
        match groups (theCache c) !! gid with
        | Some group =>
            if Revision group >=? revision then ret (Some group) else ret None
        | None => ret None
        end
      else ret None
  | None => ret None
  end.

Definition RetrieveGroupByID (gid : types.GroupIdentifier) (revision : Z)
  : M Group :=
  modifyCli initGroupCache ;;;
  hit <- cachedGroup gid revision ;;
  match hit with
  | Some group => ret group
  | None =>
      group <- fetchGroupByID gid ;;
      modifyCache (fun cache => set_groups (<[gid := group]> (groups cache)) cache) ;;;
      t <- now ;;
      modifyCache (fun cache => set_lastFetched (<[gid := t]> (lastFetched cache)) cache) ;;;
      ret group
  end.

(** *** Notions used to state what the operations do *)

Definition isFetchGroupByID (ev : Event) : bool :=
  match ev with CallFetchGroupByID _ => true | _ => false end.

Definition isWSRequest (ev : Event) : bool :=
  match ev with WSRequestSent _ => true | _ => false end.

(** How many times [fetchGroupByID] was entered, how many credential
    requests were sent. *)
Definition groupFetches (tr : list Event) : nat :=
  length (filter (fun ev => isFetchGroupByID ev = true) tr).
Definition credentialRequests (tr : list Event) : nat :=
  length (filter (fun ev => isWSRequest ev = true) tr).

(** An operation that leaves the group cache alone and does not enter
    [fetchGroupByID]: it only extends the trace, with other events. *)
Definition quiet {A} (m : M A) : Prop :=
  forall s,
    cli_GroupCache (cli (m s).2) = cli_GroupCache (cli s)
    /\ exists evs, trace (m s).2 = trace s ++ evs
                   /\ Forall (fun ev => isFetchGroupByID ev = false) evs.

(** The state after the clock was read, and the time it showed. *)
Definition afterClock (s : State) : State :=
  {| cli := cli s; world := (time_Now (world s)).2; trace := trace s |}.
Definition clockTime (s : State) : time.Time := (time_Now (world s)).1.

Definition withCli (f : Client -> Client) (s : State) : State :=
  {| cli := f (cli s); world := world s; trace := trace s |}.

(** The cache holds [g] for [gid], fetched less than an hour before the
    clock of [s], at a revision that is at least [revision]. *)
Definition cacheHit (gid : types.GroupIdentifier) (revision : Z) (s : State)
    (g : Group) : Prop :=
  exists fetched,
    lastFetched (theCache (cli s)) !! gid = Some fetched
    /\ groups (theCache (cli s)) !! gid = Some g
    /\ clockTime s - fetched < time.Hour
    /\ revision <= Revision g.

(** The state once [RetrieveGroupByID] has stored a fetched group: the
    group goes into [groups], then the clock is read and its time goes into
    [lastFetched]. *)
Definition storeFetched (gid : types.GroupIdentifier) (g : Group) (s : State) : State :=
  let s1 :=
    withCli (fun c =>
               set_GroupCache
                 (Some (set_groups (<[gid := g]> (groups (theCache c))) (theCache c))) c)
            s in
  withCli (fun c =>
             set_GroupCache
               (Some (set_lastFetched (<[gid := clockTime s1]> (lastFetched (theCache c)))
                                      (theCache c))) c)
          (afterClock s1).

End ClientOps.

(** ** groups.go: avatar, data-message metadata, master-key store *)

(** Modelled from the spec: [signalpb.GroupContextV2] belongs to the
    generated protobuf package, which is not part of the sources; it carries
    the two fields [groupMetadataForDataMessage] sets, the revision being an
    optional (pointer) field. *)
Module groupcontext.
Record GroupContextV2 := {
  MasterKey : list byte;
  Revision : option Z;
}.
End groupcontext.

(** What [DownloadGroupAvatar] and [StoreMasterKey] use besides the
    collaborators above: the content-delivery host, the account's basic-auth
    credentials (read from the store) and the group store's write. *)
Class StoreCollaborators `{Collaborators} := {
  CDN1Hostname : string;
  BasicAuthCreds : World -> string * string;
  GroupStore_StoreMasterKey :
    types.GroupIdentifier -> types.SerializedGroupMasterKey -> World ->
    returns unit * World;
}.

Section Avatar.
Context `{Collaborators}.
Local Open Scope go_scope.

Definition decryptGroupAvatar (encryptedAvatar : list byte)
    (groupMasterKey : types.SerializedGroupMasterKey) : result (list byte) :=
  let* key := masterKeyToBytes GROUP_MASTER_KEY_LEN groupMasterKey in
  let* groupSecretParams :=
    wrapping "error deriving group secret params from master key"
             (call (DeriveGroupSecretParamsFromMasterKey key)) in
  let* avatarBlob := decryptGroupPropertyIntoBlob groupSecretParams encryptedAvatar in
  (* The actual avatar is in the blob *)
  Ok (signalpb.GetAvatar avatarBlob).

(** The function has no error result: it returns the context or panics. *)
Definition groupMetadataForDataMessage (group : Group)
  : result groupcontext.GroupContextV2 :=
  let* masterKey := masterKeyToBytes GROUP_MASTER_KEY_LEN (groupMasterKey group) in
  Ok {| groupcontext.MasterKey := masterKey;
        groupcontext.Revision := Some (Revision group) |}.

End Avatar.

Section StoreOps.
Context `{StoreCollaborators}.

Notation "x <- m ;; k" := (bindM m (fun x => k))
  (at level 100, m at level 99, k at level 200).
Notation "m ;;; k" := (bindM m (fun _ => k))
  (at level 100, k at level 200).

Definition DownloadGroupAvatar (group : Group) : M (list byte) :=
  creds <- (fun s => (Ok (BasicAuthCreds (world s)), s)) ;;
  let opts := {| web.Host := CDN1Hostname;
                 web.Username := Some creds.1;
                 web.Password := Some creds.2;
                 web.ContentType := "" |} in
  resp <- wrappingM "failed to send request"
            (emit (HTTPRequestSent http.MethodGet (AvatarPath group) opts) ;;;
             external (SendHTTPRequest http.MethodGet (AvatarPath group) opts)) ;;
  let '(statusCode, body) := resp in
  if (statusCode <? 200) || (statusCode >=? 300)
  then fail (errorString ("unexpected response status " +:+ pretty statusCode))
  else
    encryptedAvatar <- wrappingM "failed to read response" (external (io_ReadAll body)) ;;
    decrypted <- lift (wrapping "failed to decrypt avatar"
                         (decryptGroupAvatar encryptedAvatar (groupMasterKey group))) ;;
    ret decrypted.


End StoreOps.

(** ** libsignalgo: service identifiers

    The conversions between a UUID and libsignal's fixed-width service
    identifier.  The two FFI calls (with their errors wrapped) and the length
    of the [UUID] array, [C.SignalUUID_LEN], are taken as given. *)
Module serviceid.

(** The builtin [copy(dst, src)]: the first [min(len(dst), len(src))]
    elements of [dst] are overwritten. *)
Definition copy (dst src : list byte) : list byte :=
  let n := Nat.min (length dst) (length src) in
  take n src ++ drop n dst.

Section ServiceId.
Variable UUID_LEN : nat.
Variable ServiceIdFixedWidthBinaryBytes : Type.
Variable service_id_parse_from_service_id_binary :
  list byte -> returns ServiceIdFixedWidthBinaryBytes.
Variable service_id_service_id_binary :
  ServiceIdFixedWidthBinaryBytes -> returns (list byte).

Definition SignalServiceIdFromUUID (uuid : list byte)
  : returns ServiceIdFixedWidthBinaryBytes :=
  service_id_parse_from_service_id_binary uuid.

Definition SignalPNIServiceIdFromUUID (uuid : list byte)
  : returns ServiceIdFixedWidthBinaryBytes :=
  (* Prepend a 0x01 to the UUID to indicate that it is a PNI UUID *)
  let pniUUID := [Byte.x01] ++ uuid in
  service_id_parse_from_service_id_binary pniUUID.

Definition SignalServiceIdToUUID (serviceId : ServiceIdFixedWidthBinaryBytes)
  : returns (list byte) :=
  match service_id_service_id_binary serviceId with
  | inr e => inr e
  | inl UUIDBytes => inl (copy (repeat Byte.x00 UUID_LEN) UUIDBytes)
  end.

End ServiceId.
End serviceid.

(** ** libsignalgo: sender certificates

    The expiration of a certificate and its validation at a time; the FFI
    calls are taken as given, the conversions around them are Go's. *)
Module sendercertificate.

Definition uint64 (v : Z) : Z := v mod 2 ^ 64.
Definition int64 (v : Z) : Z := (v + 2 ^ 63) mod 2 ^ 64 - 2 ^ 63.

(** [time.UnixMilli(msec)] and [t.UnixMilli()]. *)
Definition time_UnixMilli (msec : Z) : time.Time := msec * 1000000.
Definition UnixMilli (t : time.Time) : Z := int64 (t / 1000000).

Section SenderCertificate.
Variable Certificate : Type.
Variable PublicKey : Type.
Variable sender_certificate_get_expiration : Certificate -> returns Z.
Variable sender_certificate_validate : Certificate -> PublicKey -> Z -> returns bool.

Definition GetExpiration (sc : Certificate) : returns time.Time :=
  match sender_certificate_get_expiration sc with
  | inr e => inr e
  | inl expiration => inl (time_UnixMilli (int64 (uint64 expiration)))
  end.

Definition Validate (sc : Certificate) (trustRoot : PublicKey) (ts : time.Time)
  : returns bool :=
  sender_certificate_validate sc trustRoot (uint64 (UnixMilli ts)).

End SenderCertificate.
End sendercertificate.

(** *** Further notions used to state what the operations do *)

Definition isHTTPRequest (ev : Event) : bool :=
  match ev with HTTPRequestSent _ _ _ => true | _ => false end.

(** How many HTTP requests were sent. *)
Definition httpRequests (tr : list Event) : nat :=
  length (filter (fun ev => isHTTPRequest ev = true) tr).

(** The cached bundle, if any, was issued for the PNI the session stores. *)
Definition bundleMatchesPNI (c : Client) : Prop :=
  forall creds, cli_GroupCredentials c = Some creds -> PNI creds = Store_PNI c.

(** Every group for which a fetch time is recorded is in the group map, and
    the other way round. *)
Definition cacheAligned (c : Client) : Prop :=
  forall gid, is_Some (lastFetched (theCache c) !! gid)
              <-> is_Some (groups (theCache c) !! gid).

(** A record without its nil member entries. *)
Definition withoutNilMembers (eg : signalpb.Group) : signalpb.Group :=
  {| signalpb.Title := signalpb.Title eg;
     signalpb.Avatar := signalpb.Avatar eg;
     signalpb.DisappearingMessagesTimer := signalpb.DisappearingMessagesTimer eg;
     signalpb.Members := Some <$> omap id (signalpb.Members eg);
     signalpb.Revision := signalpb.Revision eg;
     signalpb.Description := signalpb.Description eg |}.

(** An operation that changes neither the client nor the trace (it may
    change the outside world). *)
Definition silent `{Collaborators} {A} (m : M A) : Prop :=
  forall s, cli (m s).2 = cli s /\ trace (m s).2 = trace s.

(** The events of one credential request made for the day starting at
    [today], and of one request for the group record. *)
Definition credentialEvents (today : time.Time) : list Event :=
  [CallFetchNewGroupCreds today; WSRequestSent (groupCredsRequest today)].

Definition groupRequestEvent `{Collaborators} (auth : GroupAuth) : Event :=
  HTTPRequestSent http.MethodGet "/v1/groups"
    {| web.Username := Some (Username auth);
       web.Password := Some (Password auth);
       web.ContentType := ContentTypeProtobuf;
       web.Host := StorageHostname |}.

(** The account identifiers are the same in [c'] as in [c], and [c'] has a
    bundle issued for the stored PNI if [c] has. *)
Definition sessionKept (c c' : Client) : Prop :=
  Store_ACI c' = Store_ACI c
  /\ Store_PNI c' = Store_PNI c
  /\ (bundleMatchesPNI c -> bundleMatchesPNI c').

(** The request [DownloadGroupAvatar] sends when the world is [w]: its
    options and the event recorded for it. *)
Definition avatarOpts `{StoreCollaborators} (w : World) : web.HTTPReqOpt :=
  {| web.Host := CDN1Hostname;
     web.Username := Some (BasicAuthCreds w).1;
     web.Password := Some (BasicAuthCreds w).2;
     web.ContentType := "" |}.

Definition avatarRequestEvent `{StoreCollaborators} (group : Group) (w : World)
  : Event :=
  HTTPRequestSent http.MethodGet (AvatarPath group) (avatarOpts w).

(** ** A concrete set of collaborators

    Stand-ins used to run the operations on explicit inputs: ciphertexts
    decrypt to themselves (an empty blob, a user identifier that is not 16
    bytes or a profile key that is not 32 bytes fail to decrypt), and the
    world replies with the canned answers it holds. *)
Module Sample.

Record CannedWorld := {
  clock : time.Time;
  wsReply : returns signalpb.WebSocketResponseMessage;
  httpReply : returns (Z * list byte);
  storedKey : returns types.SerializedGroupMasterKey;
}.

Definition string_of_bytes (bs : list byte) : string :=
  fold_right (fun b s => String (ascii_of_byte b) s) "" bs.

Definition parseBlob (bs : list byte) : returns signalpb.GroupAttributeBlob :=
  match bs with
  | Byte.x01 :: rest => inl (signalpb.ContentTitle (string_of_bytes rest))
  | [Byte.x03; d] => inl (signalpb.ContentDisappearingMessagesDuration (uint d))
  | Byte.x04 :: rest => inl (signalpb.ContentDescription (string_of_bytes rest))
  | _ => inr (errorString "proto: cannot parse invalid wire-format data")
  end.

(** A body [pni :: days] is a bundle for PNI [[pni]] with one credential per
    listed day number. *)
Definition parseCredentials (body : list byte) : returns GroupCredentials :=
  match body with
  | [] => inr (errorString "unexpected end of JSON input")
  | pni :: days =>
      inl {| Credentials :=
               map (fun d => {| Credential := [d];
                                RedemptionTime := uint d * 86400 |}) days;
             PNI := [pni] |}
  end.

Definition member (uid : byte) (role : Z) : signalpb.Member :=
  {| signalpb.UserId := repeat uid 16;
     signalpb.Role := role;
     signalpb.ProfileKey := repeat uid 32;
     signalpb.JoinedAtRevision := 0 |}.

(** A record titled "Team", without description or timer, whose members are
    given. *)
Definition groupRecord (revision : Z) (members : list (option signalpb.Member))
  : signalpb.Group :=
  {| signalpb.Title := [Byte.x01; Byte.x54; Byte.x65; Byte.x61; Byte.x6d];
     signalpb.Avatar := "groups/avatar";
     signalpb.DisappearingMessagesTimer := [];
     signalpb.Members := members;
     signalpb.Revision := revision;
     signalpb.Description := [] |}.

(** A body [[revision; role]] is a group record at that revision with one
    member of that role. *)
Definition parseGroup (bs : list byte) : returns signalpb.Group :=
  match bs with
  | [revision; role] =>
      inl (groupRecord (uint revision) [Some (member Byte.x07 (uint role))])
  | _ => inr (errorString "proto: cannot parse invalid wire-format data")
  end.

Definition collaborators : Collaborators := {|
  World := CannedWorld;
  GroupSecretParams := list byte;
  ServerPublicParams := unit;
  AuthCredentialWithPniResponse := list byte;
  AuthCredentialWithPni := list byte;
  GROUP_MASTER_KEY_LEN := 32;
  prodServerPublicParams := tt;
  DeriveGroupSecretParamsFromMasterKey := fun key => inl key;
  GetPublicParams := fun gsp => inl gsp;
  GetGroupIdentifier := fun pp => inl pp;
  DecryptBlobWithPadding := fun _ ct =>
    match ct with
    | [] => inr (errorString "blob too short")
    | _ => inl ct
    end;
  DecryptUUID := fun _ ct =>
    if (length ct =? 16)%nat then inl ct
    else inr (errorString "invalid uuid ciphertext");
  DecryptProfileKey := fun _ ct _ =>
    if (length ct =? 32)%nat then inl ct
    else inr (errorString "invalid profile key ciphertext");
  NewAuthCredentialWithPniResponse := fun c => inl c;
  ReceiveAuthCredentialWithPni := fun _ _ _ _ resp => inl resp;
  CreateAuthCredentialWithPniPresentation := fun _ rnd _ cred => inl (rnd ++ cred);
  GenerateRandomness := fun w => ([Byte.x2a], w);
  json_Unmarshal_GroupCredentials := parseCredentials;
  proto_Unmarshal_Group := parseGroup;
  proto_Unmarshal_GroupAttributeBlob := parseBlob;
  strings_Map := fun _ s => s;
  strings_TrimSpace := fun s => s;
  unicode_IsGraphic := fun _ => true;
  time_Now := fun w => (clock w, w);
  ResponseBody := list byte;
  StorageHostname := "storage.signal.org";
  ContentTypeProtobuf := "application/x-protobuf";
  AuthedWS_SendRequest := fun _ w => (wsReply w, w);
  SendHTTPRequest := fun _ _ _ w => (httpReply w, w);
  io_ReadAll := fun body w => (inl body, w);
  MasterKeyFromGroupIdentifier := fun _ w => (storedKey w, w);
  StoreProfileKey := fun _ _ w => (inl tt, w);
|}.

Definition key : libsignalgo.GroupMasterKey := repeat Byte.x11 32.
Definition serializedKey : types.SerializedGroupMasterKey :=
  Eval vm_compute in masterKeyFromBytes key.

Definition pni : uuid.UUID := [Byte.x05].
Definition aci : uuid.UUID := [Byte.x06].

(** A member entry whose user-identifier ciphertext does not decrypt. *)
Definition brokenMember : signalpb.Member :=
  {| signalpb.UserId := [Byte.x00];
     signalpb.Role := 1;
     signalpb.ProfileKey := repeat Byte.x08 32;
     signalpb.JoinedAtRevision := 0 |}.

(** A client that has fetched nothing yet. *)
Definition freshClient : Client :=
  {| Store_ACI := aci; Store_PNI := pni;
     cli_GroupCredentials := None; cli_GroupCache := None |}.

(** The clock shows five nanoseconds past the start of day 3 (of the Unix
    era). *)
Definition dayThree : time.Time := 3 * 86400 * 1000000000 + 5.

Definition credsReply (pni : byte) (days : list byte)
  : returns signalpb.WebSocketResponseMessage :=
  inl {| signalpb.Status := Some 200; signalpb.Body := pni :: days |}.

(** The server issues credentials for days 3 and 4 to this client's PNI and
    serves a group record at revision 4. *)
Definition world0 : CannedWorld :=
  {| clock := dayThree;
     wsReply := credsReply Byte.x05 [Byte.x03; Byte.x04];
     httpReply := inl (200, [Byte.x04; Byte.x01]);
     storedKey := inl serializedKey |}.

(** The server issues the credentials to another PNI. *)
Definition worldOtherPNI : CannedWorld :=
  {| clock := dayThree;
     wsReply := credsReply Byte.x09 [Byte.x03; Byte.x04];
     httpReply := inl (200, [Byte.x04; Byte.x01]);
     storedKey := inl serializedKey |}.

(** The credential request is not answered. *)
Definition worldNoCreds : CannedWorld :=
  {| clock := dayThree;
     wsReply := inr (errorString "context canceled");
     httpReply := inl (200, [Byte.x04; Byte.x01]);
     storedKey := inl serializedKey |}.

(** The group endpoint answers with status 500. *)
Definition worldGroupsDown : CannedWorld :=
  {| clock := dayThree;
     wsReply := credsReply Byte.x05 [Byte.x03; Byte.x04];
     httpReply := inl (500, []);
     storedKey := inl serializedKey |}.

Definition stateOf (c : Client) (w : CannedWorld) : @State collaborators :=
  @Build_State collaborators c w [].

(** The group the server of [world0] serves, as decrypted. *)
Definition fetchedGroup : Group :=
  {| groupMasterKey := serializedKey;
     GroupIdentifier := base64.EncodeToString key;
     Title := "Team";
     AvatarPath := "groups/avatar";
     Members := [ {| UserID := repeat Byte.x07 16; Role := 1;
                     ProfileKey := repeat Byte.x07 32; JoinedAtRevision := 0 |} ];
     Description := "";
     AnnouncementsOnly := false;
     Revision := 4;
     DisappearingMessagesDuration := 0 |}.

End Sample.

(** ** Further canned worlds and collaborators *)
Module Sample2.

(** The group store has no master key for the identifier asked for. *)
Definition worldNoKey : Sample.CannedWorld :=
  {| Sample.clock := Sample.dayThree;
     Sample.wsReply := Sample.credsReply Byte.x05 [Byte.x03; Byte.x04];
     Sample.httpReply := inl (200, [Byte.x04; Byte.x01]);
     Sample.storedKey := inl "" |}.

(** A bundle with one credential for each of the seven days from day 3. *)
Definition weekBundle : GroupCredentials :=
  {| Credentials :=
       map (fun i => {| Credential := []; RedemptionTime := (3 + i) * 86400 |})
           [0; 1; 2; 3; 4; 5; 6];
     PNI := Sample.pni |}.

(** The content-delivery host answers every avatar request with the blob of
    the title "T"; the group store accepts every master key. *)
Definition worldAvatar : Sample.CannedWorld :=
  {| Sample.clock := Sample.dayThree;
     Sample.wsReply := Sample.credsReply Byte.x05 [Byte.x03; Byte.x04];
     Sample.httpReply := inl (200, [Byte.x01; Byte.x54]);
     Sample.storedKey := inl Sample.serializedKey |}.

Definition storeCollaborators : @StoreCollaborators Sample.collaborators := {|
  CDN1Hostname := "cdn.signal.org";
  BasicAuthCreds := fun _ => ("account.1", "secret");
  GroupStore_StoreMasterKey := fun _ _ w => (inl tt, w);
|}.

End Sample2.

(** * Properties *)

(** ** Bytes and bit arithmetic *)

Lemma uint_range (b : byte) : 0 <= uint b < 256.
Proof.
  unfold uint. pose proof (Byte.to_N_bounded b). lia.
Qed.

Lemma byte_of_Z_uint (b : byte) (v : Z) : v mod 256 = uint b -> byte_of_Z v = b.
Proof.
  intros Hv. unfold byte_of_Z. rewrite Hv. unfold uint.
  rewrite N2Z.id, Byte.of_to_N. reflexivity.
Qed.

(** On disjoint bit ranges, [|] is addition. *)
Lemma lor_add_disjoint (a b n : Z) :
  0 <= n -> 0 <= b < 2 ^ n -> a mod 2 ^ n = 0 -> Z.lor a b = a + b.
Proof.
  intros Hn Hb Ha.
  assert (Hland : Z.land a b = 0).
  { apply Z.bits_inj'. intros k Hk. rewrite Z.land_spec, Z.bits_0.
    destruct (Z_lt_le_dec k n) as [Hlt | Hge].
    - rewrite <- (Z.mod_pow2_bits_low a n k) by lia. rewrite Ha, Z.bits_0. reflexivity.
    - assert (Hbk : Z.testbit b k = false).
      { destruct (Z.eq_dec b 0) as [-> | Hb0]; [apply Z.bits_0 |].
        apply Z.bits_above_log2; [lia |].
        apply Z.log2_lt_pow2; [lia |].
        apply Z.lt_le_trans with (2 ^ n); [lia |].
        apply Z.pow_le_mono_r; lia. }
      rewrite Hbk. apply andb_false_r. }
  rewrite (Z.add_nocarry_lxor a b Hland). symmetry. apply Z.lxor_lor. exact Hland.
Qed.

Lemma land_63 (v : Z) : Z.land v 63 = v mod 64.
Proof. change 63 with (Z.ones 6). rewrite Z.land_ones by lia. reflexivity. Qed.

Lemma val3_add (x y z : Z) :
  0 <= x < 256 -> 0 <= y < 256 -> 0 <= z < 256 ->
  base64.val3 x y z = x * 65536 + y * 256 + z.
Proof.
  intros Hx Hy Hz. unfold base64.val3.
  rewrite !Z.shiftl_mul_pow2 by lia.
  change (2 ^ 16) with 65536. change (2 ^ 8) with 256.
  assert (H1 : Z.lor (x * 65536) (y * 256) = x * 65536 + y * 256).
  { apply (lor_add_disjoint _ _ 16); [lia | change (2 ^ 16) with 65536; lia |].
    change (2 ^ 16) with 65536. apply Z_mod_mult. }
  rewrite H1.
  apply (lor_add_disjoint _ _ 8); [lia | change (2 ^ 8) with 256; lia |].
  change (2 ^ 8) with 256.
  replace (x * 65536 + y * 256) with ((x * 256 + y) * 256) by lia.
  apply Z_mod_mult.
Qed.

(** Four six-bit values put together as [decodeQuantum] does. *)
Lemma val4_add (s0 s1 s2 s3 : Z) :
  0 <= s0 < 64 -> 0 <= s1 < 64 -> 0 <= s2 < 64 -> 0 <= s3 < 64 ->
  Z.lor (Z.lor (Z.lor (Z.shiftl s0 18) (Z.shiftl s1 12)) (Z.shiftl s2 6)) s3
  = s0 * 262144 + s1 * 4096 + s2 * 64 + s3.
Proof.
  intros H0 H1 H2 H3.
  rewrite !Z.shiftl_mul_pow2 by lia.
  change (2 ^ 18) with 262144. change (2 ^ 12) with 4096. change (2 ^ 6) with 64.
  assert (E1 : Z.lor (s0 * 262144) (s1 * 4096) = s0 * 262144 + s1 * 4096).
  { apply (lor_add_disjoint _ _ 18); [lia | change (2 ^ 18) with 262144; lia |].
    change (2 ^ 18) with 262144. apply Z_mod_mult. }
  rewrite E1.
  assert (E2 : Z.lor (s0 * 262144 + s1 * 4096) (s2 * 64)
               = s0 * 262144 + s1 * 4096 + s2 * 64).
  { apply (lor_add_disjoint _ _ 12); [lia | change (2 ^ 12) with 4096; lia |].
    change (2 ^ 12) with 4096.
    replace (s0 * 262144 + s1 * 4096) with ((s0 * 64 + s1) * 4096) by lia.
    apply Z_mod_mult. }
  rewrite E2.
  apply (lor_add_disjoint _ _ 6); [lia | change (2 ^ 6) with 64; lia |].
  change (2 ^ 6) with 64.
  replace (s0 * 262144 + s1 * 4096 + s2 * 64)
    with ((s0 * 4096 + s1 * 64 + s2) * 64) by lia.
  apply Z_mod_mult.
Qed.

(** ** encoding/base64: decoding what was encoded *)
Section Base64.
Import base64.

Lemma decodeMap_encode (v : Z) : 0 <= v < 64 -> decodeMap (encode v) = v.
Proof.
  intros Hv.
  assert (Hall : forallb (fun n => decodeMap (encode (Z.of_nat n)) =? Z.of_nat n)
                         (seq 0 64) = true) by (vm_compute; reflexivity).
  rewrite forallb_forall in Hall.
  specialize (Hall (Z.to_nat v)).
  rewrite Z2Nat.id in Hall by lia.
  apply Z.eqb_eq, Hall, in_seq. lia.
Qed.

Lemma decodeMap_sextet (val sh : Z) :
  0 <= sh -> decodeMap (sextet val sh) = (val / 2 ^ sh) mod 64.
Proof.
  intros Hsh. unfold sextet.
  rewrite land_63, Z.shiftr_div_pow2 by lia.
  apply decodeMap_encode. apply Z.mod_pos_bound. lia.
Qed.

(** A character of the alphabet joins the quantum being filled. *)
Lemma Decode_alphabet (dbuf : list Z) (c : ascii) (rest : string) :
  0 <= decodeMap c < 64 ->
  Decode dbuf (String c rest) =
    if (length (dbuf ++ [decodeMap c]) =? 4)%nat
    then app (quantumBytes (dbuf ++ [decodeMap c])) <$> Decode [] rest
    else Decode (dbuf ++ [decodeMap c]) rest.
Proof.
  intros Hc. cbn [Decode]. cbv zeta.
  destruct (decodeMap c =? 255) eqn:E; [apply Z.eqb_eq in E; lia | reflexivity].
Qed.

Lemma Decode_quantum (s0 s1 s2 s3 : ascii) (rest : string) :
  0 <= decodeMap s0 < 64 -> 0 <= decodeMap s1 < 64 ->
  0 <= decodeMap s2 < 64 -> 0 <= decodeMap s3 < 64 ->
  Decode [] (String s0 (String s1 (String s2 (String s3 rest)))) =
    app (quantumBytes [decodeMap s0; decodeMap s1; decodeMap s2; decodeMap s3])
      <$> Decode [] rest.
Proof.
  intros H0 H1 H2 H3.
  rewrite Decode_alphabet by assumption. cbn [app length Nat.eqb].
  rewrite Decode_alphabet by assumption. cbn [app length Nat.eqb].
  rewrite Decode_alphabet by assumption. cbn [app length Nat.eqb].
  rewrite Decode_alphabet by assumption. cbn [app length Nat.eqb].
  reflexivity.
Qed.

Lemma Decode_pad1 (s0 s1 s2 : ascii) :
  0 <= decodeMap s0 < 64 -> 0 <= decodeMap s1 < 64 -> 0 <= decodeMap s2 < 64 ->
  Decode [] (String s0 (String s1 (String s2 (String padChar "")))) =
    Some (quantumBytes [decodeMap s0; decodeMap s1; decodeMap s2]).
Proof.
  intros H0 H1 H2.
  rewrite Decode_alphabet by assumption. cbn [app length Nat.eqb].
  rewrite Decode_alphabet by assumption. cbn [app length Nat.eqb].
  rewrite Decode_alphabet by assumption. cbn [app length Nat.eqb].
  reflexivity.
Qed.

Lemma Decode_pad2 (s0 s1 : ascii) :
  0 <= decodeMap s0 < 64 -> 0 <= decodeMap s1 < 64 ->
  Decode [] (String s0 (String s1 (String padChar (String padChar "")))) =
    Some (quantumBytes [decodeMap s0; decodeMap s1]).
Proof.
  intros H0 H1.
  rewrite Decode_alphabet by assumption. cbn [app length Nat.eqb].
  rewrite Decode_alphabet by assumption. cbn [app length Nat.eqb].
  reflexivity.
Qed.

(** The bytes of a quantum whose six-bit values are those of [V]. *)
Lemma quantum_value (V : Z) :
  0 <= V < 16777216 ->
  (V / 2 ^ 18) mod 64 * 262144 + (V / 2 ^ 12) mod 64 * 4096
  + (V / 2 ^ 6) mod 64 * 64 + (V / 2 ^ 0) mod 64 = V.
Proof.
  intros HV.
  change (2 ^ 18) with 262144. change (2 ^ 12) with 4096.
  change (2 ^ 6) with 64. change (2 ^ 0) with 1.
  Z.div_mod_to_equations. lia.
Qed.

Lemma bytes_of_value (b0 b1 b2 : byte) :
  let V := uint b0 * 65536 + uint b1 * 256 + uint b2 in
  byte_of_Z (Z.shiftr V 16) = b0 /\ byte_of_Z (Z.shiftr V 8) = b1
  /\ byte_of_Z V = b2.
Proof.
  intros V. subst V.
  pose proof (uint_range b0). pose proof (uint_range b1). pose proof (uint_range b2).
  repeat split; apply byte_of_Z_uint; rewrite ?Z.shiftr_div_pow2 by lia.
  - change (2 ^ 16) with 65536. Z.div_mod_to_equations. lia.
  - change (2 ^ 8) with 256. Z.div_mod_to_equations. lia.
  - Z.div_mod_to_equations. lia.
Qed.

Lemma sextet_range (V sh : Z) : 0 <= (V / 2 ^ sh) mod 64 < 64.
Proof. apply Z.mod_pos_bound. lia. Qed.

Lemma quantumBytes_value (V : Z) (n : nat) :
  0 <= V < 16777216 ->
  V mod 2 ^ (6 * (4 - Z.of_nat n)) = 0 -> (2 <= n <= 4)%nat ->
  quantumBytes (take n [(V / 2 ^ 18) mod 64; (V / 2 ^ 12) mod 64;
                        (V / 2 ^ 6) mod 64; (V / 2 ^ 0) mod 64])
  = take (n - 1) [byte_of_Z (Z.shiftr V 16); byte_of_Z (Z.shiftr V 8); byte_of_Z V].
Proof.
  intros HV Hlow Hn.
  pose proof (quantum_value V HV) as Hq.
  pose proof (sextet_range V 18). pose proof (sextet_range V 12).
  pose proof (sextet_range V 6). pose proof (sextet_range V 0).
  assert (Hn' : n = 2%nat \/ n = 3%nat \/ n = 4%nat) by lia.
  destruct Hn' as [-> | [-> | ->]]; unfold quantumBytes; cbn [take length nth Nat.sub].
  - change (2 ^ (6 * (4 - Z.of_nat 2))) with 4096 in Hlow.
    rewrite val4_add by lia.
    replace ((V / 2 ^ 18) mod 64 * 262144 + (V / 2 ^ 12) mod 64 * 4096 + 0 * 64 + 0)
      with V; [reflexivity |].
    change (2 ^ 18) with 262144 in *. change (2 ^ 12) with 4096 in *.
    change (2 ^ 6) with 64 in *. change (2 ^ 0) with 1 in *.
    clear -HV Hlow. Z.div_mod_to_equations. lia.
  - change (2 ^ (6 * (4 - Z.of_nat 3))) with 64 in Hlow.
    rewrite val4_add by lia.
    replace ((V / 2 ^ 18) mod 64 * 262144 + (V / 2 ^ 12) mod 64 * 4096
             + (V / 2 ^ 6) mod 64 * 64 + 0) with V; [reflexivity |].
    change (2 ^ 18) with 262144 in *. change (2 ^ 12) with 4096 in *.
    change (2 ^ 6) with 64 in *. change (2 ^ 0) with 1 in *.
    clear -HV Hlow. Z.div_mod_to_equations. lia.
  - rewrite val4_add by lia. rewrite Hq. reflexivity.
Qed.

End Base64.

Section Base64RoundTrip.
Import base64.

(** Induction over a byte sequence three bytes at a time, as [Encode] reads it. *)
Lemma list_ind3 {A} (P : list A -> Prop) :
  P [] -> (forall a, P [a]) -> (forall a b, P [a; b]) ->
  (forall a b c l, P l -> P (a :: b :: c :: l)) ->
  forall l, P l.
Proof.
  intros H0 H1 H2 H3 l.
  assert (Hall : P l /\ (forall a, P (a :: l)) /\ (forall a b, P (a :: b :: l))).
  { induction l as [| x l (IH0 & IH1 & IH2)].
    - repeat split; auto.
    - repeat split; auto. }
  apply Hall.
Qed.

Lemma Decode_Encode (src : list byte) : Decode [] (Encode src) = Some src.
Proof.
  induction src as [| b0 | b0 b1 | b0 b1 b2 rest IH] using list_ind3.
  - reflexivity.
  - pose proof (uint_range b0) as R0.
    cbn [Encode]. cbv zeta.
    rewrite Z.shiftl_mul_pow2 by lia. change (2 ^ 16) with 65536.
    set (V := uint b0 * 65536).
    rewrite Decode_pad2 by (rewrite decodeMap_sextet by lia; apply sextet_range).
    rewrite !decodeMap_sextet by lia.
    change [(V / 2 ^ 18) mod 64; (V / 2 ^ 12) mod 64]
      with (take 2 [(V / 2 ^ 18) mod 64; (V / 2 ^ 12) mod 64;
                    (V / 2 ^ 6) mod 64; (V / 2 ^ 0) mod 64]).
    rewrite quantumBytes_value; [| subst V; lia | | lia].
    + cbn [take Nat.sub].
      destruct (bytes_of_value b0 Byte.x00 Byte.x00) as (E0 & _ & _).
      replace V with (uint b0 * 65536 + uint Byte.x00 * 256 + uint Byte.x00)
        by (subst V; change (uint Byte.x00) with 0; lia).
      rewrite E0. reflexivity.
    + subst V. change (2 ^ (6 * (4 - Z.of_nat 2))) with 4096.
      replace (uint b0 * 65536) with (uint b0 * 16 * 4096) by lia.
      apply Z_mod_mult.
  - pose proof (uint_range b0) as R0. pose proof (uint_range b1) as R1.
    cbn [Encode]. cbv zeta.
    replace (Z.lor (Z.shiftl (uint b0) 16) (Z.shiftl (uint b1) 8))
      with (val3 (uint b0) (uint b1) 0)
      by (unfold val3; apply Z.lor_0_r).
    rewrite val3_add by lia.
    set (V := uint b0 * 65536 + uint b1 * 256 + 0).
    rewrite Decode_pad1 by (rewrite decodeMap_sextet by lia; apply sextet_range).
    rewrite !decodeMap_sextet by lia.
    change [(V / 2 ^ 18) mod 64; (V / 2 ^ 12) mod 64; (V / 2 ^ 6) mod 64]
      with (take 3 [(V / 2 ^ 18) mod 64; (V / 2 ^ 12) mod 64;
                    (V / 2 ^ 6) mod 64; (V / 2 ^ 0) mod 64]).
    rewrite quantumBytes_value; [| subst V; lia | | lia].
    + cbn [take Nat.sub].
      destruct (bytes_of_value b0 b1 Byte.x00) as (E0 & E1 & _).
      change (uint Byte.x00) with 0 in E0, E1. fold V in E0, E1.
      rewrite E0, E1. reflexivity.
    + subst V. change (2 ^ (6 * (4 - Z.of_nat 3))) with 64.
      replace (uint b0 * 65536 + uint b1 * 256 + 0)
        with ((uint b0 * 1024 + uint b1 * 4) * 64) by lia.
      apply Z_mod_mult.
  - pose proof (uint_range b0) as R0. pose proof (uint_range b1) as R1.
    pose proof (uint_range b2) as R2.
    cbn [Encode]. cbv zeta.
    rewrite val3_add by lia.
    set (V := uint b0 * 65536 + uint b1 * 256 + uint b2).
    rewrite Decode_quantum by (rewrite decodeMap_sextet by lia; apply sextet_range).
    rewrite IH. rewrite !decodeMap_sextet by lia.
    change [(V / 2 ^ 18) mod 64; (V / 2 ^ 12) mod 64; (V / 2 ^ 6) mod 64;
            (V / 2 ^ 0) mod 64]
      with (take 4 [(V / 2 ^ 18) mod 64; (V / 2 ^ 12) mod 64;
                    (V / 2 ^ 6) mod 64; (V / 2 ^ 0) mod 64]).
    rewrite quantumBytes_value; [| subst V; lia | | lia].
    + cbn [take Nat.sub].
      destruct (bytes_of_value b0 b1 b2) as (E0 & E1 & E2).
      fold V in E0, E1, E2. rewrite E0, E1, E2. reflexivity.
    + change (2 ^ (6 * (4 - Z.of_nat 4))) with 1. apply Z.mod_1_r.
Qed.

Lemma DecodeString_EncodeToString (src : list byte) :
  DecodeString (EncodeToString src) = Some src.
Proof. apply Decode_Encode. Qed.

End Base64RoundTrip.

(** The codecs on the examples of RFC 4648 and on malformed input. *)
Example Encode_three_bytes :
  base64.EncodeToString [Byte.x4d; Byte.x61; Byte.x6e] = "TWFu".
Proof. reflexivity. Qed.

Example Encode_two_bytes : base64.EncodeToString [Byte.x4d; Byte.x61] = "TWE=".
Proof. reflexivity. Qed.

Example Encode_one_byte : base64.EncodeToString [Byte.x4d] = "TQ==".
Proof. reflexivity. Qed.

Example Decode_skips_newlines :
  base64.DecodeString (String "T" (String "W" (String "010" (String "F" (String "u" "")))))
  = Some [Byte.x4d; Byte.x61; Byte.x6e].
Proof. reflexivity. Qed.

Example Decode_short_padding : base64.DecodeString "TQ=" = None.
Proof. reflexivity. Qed.

Example Decode_missing_padding : base64.DecodeString "TWFuTQ" = None.
Proof. reflexivity. Qed.

Example Decode_trailing_garbage : base64.DecodeString "TQ==TWFu" = None.
Proof. reflexivity. Qed.

Example hex_EncodeToString_bytes :
  hex.EncodeToString [Byte.x4d; Byte.xff; Byte.x0a] = "4dff0a".
Proof. reflexivity. Qed.

(** ** Master-key codec *)

(** A serialised key that is not base64, or that decodes to fewer bytes
    than the array holds, makes [masterKeyToBytes] panic; a longer one is
    cut to the array length. *)
Example masterKeyToBytes_malformed :
  masterKeyToBytes 32 "not base64!"
  = Panic (wrapError
             "we should always be able to decode groupMasterKey into masterKeyBytes"
             (errorString "illegal base64 data")).
Proof. reflexivity. Qed.

Example masterKeyToBytes_short :
  masterKeyToBytes 32 "TWFu"
  = Panic (errorString "cannot convert slice to array: slice too short").
Proof. reflexivity. Qed.

Example masterKeyToBytes_long :
  masterKeyToBytes 2 "TWFu" = Ok [Byte.x4d; Byte.x61].
Proof. reflexivity. Qed.

(** C8: a master key of the fixed length, serialised by [masterKeyFromBytes]
    and read back by [masterKeyToBytes], is returned unchanged (and the
    decoder does not panic). *)
Theorem masterKey_roundtrip (len : nat) (k : libsignalgo.GroupMasterKey) :
  length k = len ->
  masterKeyToBytes len (masterKeyFromBytes k) = Ok k.
Proof.
  intros Hlen. unfold masterKeyToBytes, masterKeyFromBytes.
  rewrite DecodeString_EncodeToString. unfold slice_to_array.
  rewrite Hlen, Nat.ltb_irrefl. rewrite <- Hlen, firstn_all. reflexivity.
Qed.

Lemma masterKey_roundtrip_witness :
  length Sample.key = 32%nat
  /\ masterKeyToBytes 32 (masterKeyFromBytes Sample.key) = Ok Sample.key.
Proof.
  split; [reflexivity |].
  apply (masterKey_roundtrip 32 Sample.key). reflexivity.
Defined.

(** ** Active-call tracker *)

Lemma theCache_initGroupCache (c : Client) :
  theCache (initGroupCache c) = theCache c.
Proof.
  unfold initGroupCache, theCache.
  destruct (cli_GroupCache c) eqn:E; cbn; rewrite ?E; reflexivity.
Qed.

(** C7: [UpdateActiveCalls] toggles the single slot of a group.  With no call
    recorded for [g] it records [c] and answers true; with [c] recorded it
    removes the record and answers false; with another call recorded it
    overwrites the slot with [c] (and answers true); the slots of the other
    groups are left alone; and three calls with the same id, starting with
    no call recorded, answer true, false, true. *)
Theorem UpdateActiveCalls_toggle (g c : string) (cli0 : Client) :
  let recorded := activeCalls (theCache cli0) !! g in
  let res := UpdateActiveCalls g c cli0 in
  let after := activeCalls (theCache res.2) in
  (recorded = None -> res.1 = true /\ after !! g = Some c)
  /\ (recorded = Some c -> res.1 = false /\ after !! g = None)
  /\ (forall c', recorded = Some c' -> c' <> c ->
        res.1 = true /\ after !! g = Some c)
  /\ (forall g', g' <> g -> after !! g' = activeCalls (theCache cli0) !! g')
  /\ (recorded = None ->
      let r1 := UpdateActiveCalls g c cli0 in
      let r2 := UpdateActiveCalls g c r1.2 in
      let r3 := UpdateActiveCalls g c r2.2 in
      (r1.1, r2.1, r3.1) = (true, false, true)).
Proof.
  assert (Hstep : forall cl : Client,
    let recorded := activeCalls (theCache cl) !! g in
    let res := UpdateActiveCalls g c cl in
    let after := activeCalls (theCache res.2) in
    (recorded = None -> res.1 = true /\ after !! g = Some c)
    /\ (recorded = Some c -> res.1 = false /\ after !! g = None)
    /\ (forall c', recorded = Some c' -> c' <> c ->
          res.1 = true /\ after !! g = Some c)
    /\ (forall g', g' <> g -> after !! g' = activeCalls (theCache cl) !! g')).
  { intros cl. cbv zeta. unfold UpdateActiveCalls. cbv zeta.
    rewrite !theCache_initGroupCache.
    destruct (activeCalls (theCache cl) !! g) as [cur |] eqn:Hcur;
      [destruct (String.eqb cur c) eqn:Heq;
       [apply String.eqb_eq in Heq | apply String.eqb_neq in Heq] |];
      cbn; (split; [| split; [| split]]); intros; simplify_eq;
      rewrite ?lookup_delete_eq, ?lookup_insert_eq,
        ?lookup_delete_ne, ?lookup_insert_ne by congruence;
      done. }
  cbv zeta. destruct (Hstep cli0) as (H1 & H2 & H3 & H4).
  split; [exact H1 |]. split; [exact H2 |]. split; [exact H3 |].
  split; [exact H4 |].
  intros Hnone.
  destruct (H1 Hnone) as (Hr1 & Ha1).
  destruct (Hstep (UpdateActiveCalls g c cli0).2) as (_ & H2' & _).
  destruct (H2' Ha1) as (Hr2 & Ha2).
  destruct (Hstep (UpdateActiveCalls g c (UpdateActiveCalls g c cli0).2).2)
    as (H1'' & _).
  destruct (H1'' Ha2) as (Hr3 & _).
  rewrite Hr1, Hr2, Hr3. reflexivity.
Qed.

Lemma UpdateActiveCalls_toggle_witness :
  activeCalls (theCache Sample.freshClient) !! "group" = None
  /\ (let r1 := UpdateActiveCalls "group" "c1" Sample.freshClient in
      let r2 := UpdateActiveCalls "group" "c1" r1.2 in
      let r3 := UpdateActiveCalls "group" "c1" r2.2 in
      (r1.1, r2.1, r3.1) = (true, false, true)).
Proof.
  split; [reflexivity |].
  apply (UpdateActiveCalls_toggle "group" "c1" Sample.freshClient).
  reflexivity.
Defined.

(** ** Group decryption pipeline *)
Section DecryptProps.
Context `{Collaborators}.

Lemma decryptGroupPropertyIntoBlob_cases (gsp : GroupSecretParams) (enc : list byte) :
  (exists b, decryptGroupPropertyIntoBlob gsp enc = Ok b)
  \/ (exists e, decryptGroupPropertyIntoBlob gsp enc = Err e).
Proof.
  unfold decryptGroupPropertyIntoBlob.
  destruct (DecryptBlobWithPadding gsp enc) as [d | e]; cbn; [| eauto].
  destruct (proto_Unmarshal_GroupAttributeBlob d); cbn; eauto.
Qed.

Lemma groupIdentifierFromMasterKey_cases (mk : string) (key : list byte) :
  masterKeyToBytes GROUP_MASTER_KEY_LEN mk = Ok key ->
  (exists gid, groupIdentifierFromMasterKey mk = Ok gid)
  \/ (exists e, groupIdentifierFromMasterKey mk = Err e).
Proof.
  intros Hkey. unfold groupIdentifierFromMasterKey. rewrite Hkey. cbn.
  destruct (DeriveGroupSecretParamsFromMasterKey key) as [gsp | e]; cbn; [| eauto].
  destruct (GetPublicParams gsp) as [pp | e]; cbn; [| eauto].
  destruct (GetGroupIdentifier pp) as [gi | e]; cbn; eauto.
Qed.

Lemma decryptMember_Ok (gsp : GroupSecretParams) (e : signalpb.Member) (m : GroupMember) :
  decryptMember gsp e = Ok m <->
  exists uid pk,
    DecryptUUID gsp (signalpb.UserId e) = inl uid
    /\ DecryptProfileKey gsp (signalpb.ProfileKey e) uid = inl pk
    /\ m = {| UserID := uid; ProfileKey := pk;
              Role := signalpb.Role e;
              JoinedAtRevision := signalpb.JoinedAtRevision e |}.
Proof.
  unfold decryptMember, GroupMemberRole_of.
  destruct (DecryptUUID gsp (signalpb.UserId e)) as [uid | err] eqn:Hu; cbn.
  - destruct (DecryptProfileKey gsp (signalpb.ProfileKey e) uid) as [pk | err] eqn:Hpk;
      cbn.
    + split.
      * intros [= <-]. exists uid, pk. auto.
      * intros (uid' & pk' & [= <-] & Hpk' & ->).
        rewrite Hpk in Hpk'. injection Hpk' as <-. reflexivity.
    + split; [discriminate |].
      intros (uid' & pk' & [= <-] & Hpk' & _). congruence.
  - split; [discriminate |]. intros (uid' & pk' & Hu' & _). discriminate.
Qed.

Lemma decryptMember_Err (gsp : GroupSecretParams) (e : signalpb.Member) (err : error) :
  decryptMember gsp e = Err err <->
  DecryptUUID gsp (signalpb.UserId e) = inr err
  \/ exists uid, DecryptUUID gsp (signalpb.UserId e) = inl uid
                 /\ DecryptProfileKey gsp (signalpb.ProfileKey e) uid = inr err.
Proof.
  unfold decryptMember.
  destruct (DecryptUUID gsp (signalpb.UserId e)) as [uid | err']; cbn.
  - destruct (DecryptProfileKey gsp (signalpb.ProfileKey e) uid) as [pk | err'] eqn:Hpk;
      cbn.
    + split; [discriminate |].
      intros [Hu | (uid' & [= <-] & Hpk')]; [discriminate | congruence].
    + split.
      * intros [= <-]. right. eauto.
      * intros [Hu | (uid' & [= <-] & Hpk')]; [discriminate | congruence].
  - split.
    + intros [= <-]. left. reflexivity.
    + intros [[= <-] | (uid' & Hu & _)]; [reflexivity | discriminate].
Qed.

Lemma decryptMember_cases (gsp : GroupSecretParams) (e : signalpb.Member) :
  (exists m, decryptMember gsp e = Ok m) \/ (exists err, decryptMember gsp e = Err err).
Proof.
  unfold decryptMember.
  destruct (DecryptUUID gsp (signalpb.UserId e)) as [uid | err]; cbn; [| eauto].
  destruct (DecryptProfileKey gsp (signalpb.ProfileKey e) uid); cbn; eauto.
Qed.

(** A successful run of the member loop appends one decrypted member per
    non-nil entry, in order. *)
Lemma decryptMembers_Ok (gsp : GroupSecretParams)
    (ms : list (option signalpb.Member)) (acc out : list GroupMember) :
  decryptMembers gsp ms acc = Ok out ->
  exists new, out = acc ++ new
    /\ Forall2 (fun e m => decryptMember gsp e = Ok m) (omap id ms) new.
Proof.
  revert acc. induction ms as [| [e |] ms IH]; intros acc Hrun; cbn in Hrun.
  - injection Hrun as <-. exists []. split; [symmetry; apply app_nil_r | constructor].
  - destruct (decryptMember gsp e) as [m | err | p] eqn:Hm; cbn in Hrun;
      try discriminate.
    destruct (IH _ Hrun) as (new & -> & Hall).
    exists (m :: new). split; [rewrite <- app_assoc; reflexivity |].
    cbn. constructor; assumption.
  - destruct (IH _ Hrun) as (new & -> & Hall). exists new. split; [reflexivity |].
    exact Hall.
Qed.

(** One member that fails to decrypt makes the whole loop return an error. *)
Lemma decryptMembers_Err (gsp : GroupSecretParams)
    (ms : list (option signalpb.Member)) (acc : list GroupMember)
    (e : signalpb.Member) (err : error) :
  Some e ∈ ms -> decryptMember gsp e = Err err ->
  exists err', decryptMembers gsp ms acc = Err err'.
Proof.
  intros Hin Herr. revert acc.
  induction ms as [| [e' |] ms IH]; intros acc.
  - apply elem_of_nil in Hin. contradiction.
  - cbn. destruct (decryptMember_cases gsp e') as [(m & Hm) | (err' & Hm)];
      rewrite Hm; cbn; [| eauto].
    apply elem_of_cons in Hin as [[= ->] | Hin]; [congruence |].
    apply IH. exact Hin.
  - cbn. apply elem_of_cons in Hin as [Hin | Hin]; [discriminate |].
    apply IH. exact Hin.
Qed.

(** When every non-nil member decrypts, so does the loop. *)
Lemma decryptMembers_total (gsp : GroupSecretParams)
    (ms : list (option signalpb.Member)) (acc : list GroupMember) :
  Forall (fun e => exists m, decryptMember gsp e = Ok m) (omap id ms) ->
  exists out, decryptMembers gsp ms acc = Ok out.
Proof.
  revert acc. induction ms as [| [e |] ms IH]; intros acc Hall; cbn in *.
  - eauto.
  - inversion Hall as [| ? ? (m & Hm) Hrest]; subst.
    rewrite Hm. cbn. apply IH. exact Hrest.
  - apply IH. exact Hall.
Qed.

Lemma decryptMembers_cases (gsp : GroupSecretParams)
    (ms : list (option signalpb.Member)) (acc : list GroupMember) :
  (exists out, decryptMembers gsp ms acc = Ok out)
  \/ (exists err, decryptMembers gsp ms acc = Err err).
Proof.
  revert acc. induction ms as [| [e |] ms IH]; intros acc; cbn.
  - eauto.
  - destruct (decryptMember_cases gsp e) as [(m & Hm) | (err & Hm)];
      rewrite Hm; cbn; eauto.
  - apply IH.
Qed.

(** [decryptGroup] once the master key is decoded and the secret parameters
    are derived. *)
Lemma decryptGroup_run (eg : signalpb.Group) (mk : string) (key : list byte)
    (gsp : GroupSecretParams) :
  masterKeyToBytes GROUP_MASTER_KEY_LEN mk = Ok key ->
  DeriveGroupSecretParamsFromMasterKey key = inl gsp ->
  decryptGroup eg mk =
    bindR (groupIdentifierFromMasterKey mk) (fun gid =>
    bindR (decryptGroupPropertyIntoBlob gsp (signalpb.Title eg)) (fun titleBlob =>
    bindR (decryptDescription gsp (signalpb.Description eg)) (fun description =>
    bindR (decryptTimer gsp (signalpb.DisappearingMessagesTimer eg)) (fun duration =>
    bindR (decryptMembers gsp (signalpb.Members eg) []) (fun members =>
    Ok {| groupMasterKey := mk;
          GroupIdentifier := gid;
          Title := cleanupStringProperty (signalpb.GetTitle titleBlob);
          AvatarPath := signalpb.Avatar eg;
          Members := members;
          Description := description;
          AnnouncementsOnly := false;
          Revision := signalpb.Revision eg;
          DisappearingMessagesDuration := duration |}))))).
Proof.
  intros Hkey Hgsp. unfold decryptGroup. rewrite Hkey. cbn [bindR].
  rewrite Hgsp. reflexivity.
Qed.

(** The description step never fails: it yields the empty string when the
    blob cannot be obtained. *)
Lemma decryptDescription_Ok (gsp : GroupSecretParams) (enc : list byte) :
  exists d, decryptDescription gsp enc = Ok d
    /\ ((exists e, decryptGroupPropertyIntoBlob gsp enc = Err e) -> d = "").
Proof.
  unfold decryptDescription.
  destruct (decryptGroupPropertyIntoBlob_cases gsp enc) as [(b & ->) | (e & ->)].
  - eexists. split; [reflexivity |]. intros (e & He). discriminate.
  - exists "". split; reflexivity.
Qed.

Lemma decryptTimer_cases (gsp : GroupSecretParams) (timer : list byte) :
  (exists d, decryptTimer gsp timer = Ok d)
  \/ (exists e, decryptTimer gsp timer = Err e).
Proof.
  unfold decryptTimer. destruct timer as [| b timer]; [eauto |].
  destruct (decryptGroupPropertyIntoBlob_cases gsp (b :: timer))
    as [(x & ->) | (e & ->)]; cbn; eauto.
Qed.

(** With a decodable master key, [decryptGroup] returns a group or an error. *)
Lemma decryptGroup_cases (eg : signalpb.Group) (mk : string) (key : list byte) :
  masterKeyToBytes GROUP_MASTER_KEY_LEN mk = Ok key ->
  (exists g, decryptGroup eg mk = Ok g) \/ (exists e, decryptGroup eg mk = Err e).
Proof.
  intros Hkey.
  destruct (DeriveGroupSecretParamsFromMasterKey key) as [gsp | e] eqn:Hgsp.
  2: { right. unfold decryptGroup. rewrite Hkey. cbn. rewrite Hgsp. cbn. eauto. }
  rewrite (decryptGroup_run eg mk key gsp Hkey Hgsp).
  destruct (groupIdentifierFromMasterKey_cases mk key Hkey) as [(gid & ->) | (e & ->)];
    cbn [bindR]; [| eauto].
  destruct (decryptGroupPropertyIntoBlob_cases gsp (signalpb.Title eg))
    as [(tb & ->) | (e & ->)]; cbn [bindR]; [| eauto].
  destruct (decryptDescription_Ok gsp (signalpb.Description eg)) as (d & -> & _).
  cbn [bindR].
  destruct (decryptTimer_cases gsp (signalpb.DisappearingMessagesTimer eg))
    as [(t & ->) | (e & ->)]; cbn [bindR]; [| eauto].
  destruct (decryptMembers_cases gsp (signalpb.Members eg) [])
    as [(ms & ->) | (e & ->)]; cbn [bindR]; eauto.
Qed.

Lemma decryptGroup_Ok_inv (eg : signalpb.Group) (mk : string) (g : Group) :
  decryptGroup eg mk = Ok g ->
  exists key gsp gid tb d t ms,
    masterKeyToBytes GROUP_MASTER_KEY_LEN mk = Ok key
    /\ DeriveGroupSecretParamsFromMasterKey key = inl gsp
    /\ groupIdentifierFromMasterKey mk = Ok gid
    /\ decryptGroupPropertyIntoBlob gsp (signalpb.Title eg) = Ok tb
    /\ decryptDescription gsp (signalpb.Description eg) = Ok d
    /\ decryptTimer gsp (signalpb.DisappearingMessagesTimer eg) = Ok t
    /\ decryptMembers gsp (signalpb.Members eg) [] = Ok ms
    /\ g = {| groupMasterKey := mk;
              GroupIdentifier := gid;
              Title := cleanupStringProperty (signalpb.GetTitle tb);
              AvatarPath := signalpb.Avatar eg;
              Members := ms;
              Description := d;
              AnnouncementsOnly := false;
              Revision := signalpb.Revision eg;
              DisappearingMessagesDuration := t |}.
Proof.
  intros Hrun. unfold decryptGroup in Hrun.
  destruct (masterKeyToBytes GROUP_MASTER_KEY_LEN mk) as [key | |] eqn:Hkey;
    cbn [bindR] in Hrun; try discriminate.
  destruct (DeriveGroupSecretParamsFromMasterKey key) as [gsp |] eqn:Hgsp;
    cbn [bindR call] in Hrun; try discriminate.
  destruct (groupIdentifierFromMasterKey mk) as [gid | |] eqn:Hgid;
    cbn [bindR] in Hrun; try discriminate.
  destruct (decryptGroupPropertyIntoBlob gsp (signalpb.Title eg)) as [tb | |] eqn:Htb;
    cbn [bindR] in Hrun; try discriminate.
  destruct (decryptDescription gsp (signalpb.Description eg)) as [d | |] eqn:Hd;
    cbn [bindR] in Hrun; try discriminate.
  destruct (decryptTimer gsp (signalpb.DisappearingMessagesTimer eg)) as [t | |] eqn:Ht;
    cbn [bindR] in Hrun; try discriminate.
  destruct (decryptMembers gsp (signalpb.Members eg) []) as [ms | |] eqn:Hms;
    cbn [bindR] in Hrun; try discriminate.
  injection Hrun as <-.
  exists key, gsp, gid, tb, d, t, ms. repeat split; assumption.
Qed.

End DecryptProps.

(** C2: title fatal, description soft.  A failure to decrypt or parse the
    title blob makes [decryptGroup] return an error.  A failure to decrypt
    or parse the description blob does not: the call goes on as if the
    record had no description, so that a group is returned, with the empty
    string as its description, whenever the remaining steps (identifier,
    title, timer, members) succeed, and no returned group has another
    description. *)
Theorem decryptGroup_title_fatal_description_soft `{Collaborators}
    (eg : signalpb.Group) (mk : string) (key : list byte) (gsp : GroupSecretParams) :
  masterKeyToBytes GROUP_MASTER_KEY_LEN mk = Ok key ->
  DeriveGroupSecretParamsFromMasterKey key = inl gsp ->
  (forall e, decryptGroupPropertyIntoBlob gsp (signalpb.Title eg) = Err e ->
     exists e', decryptGroup eg mk = Err e')
  /\ (forall e, decryptGroupPropertyIntoBlob gsp (signalpb.Description eg) = Err e ->
       (forall g, decryptGroup eg mk = Ok g -> Description g = "")
       /\ (forall gid tb t ms,
             groupIdentifierFromMasterKey mk = Ok gid ->
             decryptGroupPropertyIntoBlob gsp (signalpb.Title eg) = Ok tb ->
             decryptTimer gsp (signalpb.DisappearingMessagesTimer eg) = Ok t ->
             decryptMembers gsp (signalpb.Members eg) [] = Ok ms ->
             exists g, decryptGroup eg mk = Ok g /\ Description g = ""
                       /\ Title g = cleanupStringProperty (signalpb.GetTitle tb)
                       /\ Members g = ms)).
Proof.
  intros Hkey Hgsp. rewrite (decryptGroup_run eg mk key gsp Hkey Hgsp).
  split.
  - intros e He.
    destruct (groupIdentifierFromMasterKey_cases mk key Hkey) as [(gid & ->) | (e' & ->)];
      cbn [bindR]; [| eauto].
    rewrite He. cbn [bindR]. eauto.
  - intros e He.
    assert (Hd : decryptDescription gsp (signalpb.Description eg) = Ok "").
    { unfold decryptDescription. rewrite He. reflexivity. }
    rewrite Hd. split.
    + intros g Hg.
      destruct (groupIdentifierFromMasterKey mk); cbn [bindR] in Hg; try discriminate.
      destruct (decryptGroupPropertyIntoBlob gsp (signalpb.Title eg));
        cbn [bindR] in Hg; try discriminate.
      destruct (decryptTimer gsp (signalpb.DisappearingMessagesTimer eg));
        cbn [bindR] in Hg; try discriminate.
      destruct (decryptMembers gsp (signalpb.Members eg) []);
        cbn [bindR] in Hg; try discriminate.
      injection Hg as <-. reflexivity.
    + intros gid tb t ms -> -> -> ->. cbn [bindR].
      eexists. split; [reflexivity |]. cbn. auto.
Qed.

Lemma decryptGroup_title_fatal_description_soft_witness :
  exists g,
    @decryptGroup Sample.collaborators
      (Sample.groupRecord 4 [Some (Sample.member Byte.x07 1)]) Sample.serializedKey
    = Ok g
    /\ Description g = "" /\ Title g = "Team".
Proof.
  destruct (@decryptGroup_title_fatal_description_soft Sample.collaborators
              (Sample.groupRecord 4 [Some (Sample.member Byte.x07 1)])
              Sample.serializedKey Sample.key Sample.key eq_refl eq_refl)
    as [_ Hsoft].
  destruct (Hsoft (wrapError "error decrypting blob with padding"
                     (errorString "blob too short")) eq_refl) as [_ Hok].
  destruct (Hok _ _ _ _ eq_refl eq_refl eq_refl eq_refl) as (g & Hg & Hd & Ht & _).
  exists g. split; [exact Hg |]. split; [exact Hd |]. exact Ht.
Defined.

(** C6: in [decryptGroup], every non-nil member entry has its
    user-identifier ciphertext decrypted first, and the identifier obtained
    is the one given to the decryption of its profile-key ciphertext.  When
    the steps before the member loop succeed and both decryptions succeed
    for every non-nil entry, a group is returned, and its members are
    exactly these, one per non-nil entry and in order.  When either
    decryption fails for some member, [decryptGroup] returns an error, hence
    no group and no partial member list. *)
Theorem decryptGroup_members_all_or_nothing `{Collaborators}
    (eg : signalpb.Group) (mk : string) (key : list byte) (gsp : GroupSecretParams) :
  masterKeyToBytes GROUP_MASTER_KEY_LEN mk = Ok key ->
  DeriveGroupSecretParamsFromMasterKey key = inl gsp ->
  (forall g, decryptGroup eg mk = Ok g ->
     Forall2 (fun e m =>
                DecryptUUID gsp (signalpb.UserId e) = inl (UserID m)
                /\ DecryptProfileKey gsp (signalpb.ProfileKey e) (UserID m)
                   = inl (ProfileKey m))
             (omap id (signalpb.Members eg)) (Members g))
  /\ (forall e err, DecryptUUID gsp (signalpb.UserId e) = inr err ->
        decryptMember gsp e = Err err)
  /\ (forall e, Some e ∈ signalpb.Members eg ->
        (exists err, DecryptUUID gsp (signalpb.UserId e) = inr err)
        \/ (exists uid err,
              DecryptUUID gsp (signalpb.UserId e) = inl uid
              /\ DecryptProfileKey gsp (signalpb.ProfileKey e) uid = inr err) ->
        (exists err, decryptGroup eg mk = Err err)
        /\ forall g, decryptGroup eg mk <> Ok g)
  /\ (forall gid tb t,
        groupIdentifierFromMasterKey mk = Ok gid ->
        decryptGroupPropertyIntoBlob gsp (signalpb.Title eg) = Ok tb ->
        decryptTimer gsp (signalpb.DisappearingMessagesTimer eg) = Ok t ->
        Forall (fun e =>
                  exists uid pk,
                    DecryptUUID gsp (signalpb.UserId e) = inl uid
                    /\ DecryptProfileKey gsp (signalpb.ProfileKey e) uid = inl pk)
               (omap id (signalpb.Members eg)) ->
        exists g,
          decryptGroup eg mk = Ok g
          /\ Forall2 (fun e m =>
                        DecryptUUID gsp (signalpb.UserId e) = inl (UserID m)
                        /\ DecryptProfileKey gsp (signalpb.ProfileKey e) (UserID m)
                           = inl (ProfileKey m))
                     (omap id (signalpb.Members eg)) (Members g)).
Proof.
  intros Hkey Hgsp.
  assert (Hbound : forall g, decryptGroup eg mk = Ok g ->
     Forall2 (fun e m =>
                DecryptUUID gsp (signalpb.UserId e) = inl (UserID m)
                /\ DecryptProfileKey gsp (signalpb.ProfileKey e) (UserID m)
                   = inl (ProfileKey m))
             (omap id (signalpb.Members eg)) (Members g)).
  { intros g Hg.
    destruct (decryptGroup_Ok_inv eg mk g Hg)
      as (key' & gsp' & gid & tb & d & t & ms & Hkey' & Hgsp' & _ & _ & _ & _ & Hms & ->).
    rewrite Hkey in Hkey'. injection Hkey' as <-.
    rewrite Hgsp in Hgsp'. injection Hgsp' as <-.
    cbn [Members].
    destruct (decryptMembers_Ok gsp _ _ _ Hms) as (new & -> & Hall).
    cbn [app]. eapply Forall2_impl; [exact Hall |].
    intros e m Hm. apply decryptMember_Ok in Hm as (uid & pk & Hu & Hpk & ->).
    cbn. auto. }
  split; [exact Hbound |]. split; [| split].
  - intros e err Hu. apply decryptMember_Err. left. exact Hu.
  - intros e Hin Hfail.
    assert (Hm : exists err, decryptMember gsp e = Err err).
    { destruct Hfail as [(err & Hu) | (uid & err & Hu & Hpk)]; exists err;
        apply decryptMember_Err; eauto. }
    destruct Hm as (err & Hm).
    destruct (decryptMembers_Err gsp (signalpb.Members eg) [] e err Hin Hm)
      as (err' & Hms).
    assert (Herr : exists err, decryptGroup eg mk = Err err).
    { destruct (decryptGroup_cases eg mk key Hkey) as [(g & Hg) | Herr]; [| exact Herr].
      destruct (decryptGroup_Ok_inv eg mk g Hg)
        as (key' & gsp' & gid & tb & d & t & ms & Hkey' & Hgsp' & _ & _ & _ & _ & Hms' & _).
      rewrite Hkey in Hkey'. injection Hkey' as <-.
      rewrite Hgsp in Hgsp'. injection Hgsp' as <-.
      congruence. }
    split; [exact Herr |].
    destruct Herr as (err'' & ->). discriminate.
  - intros gid tb t Hgid Htb Ht Hall.
    assert (Hms : exists ms, decryptMembers gsp (signalpb.Members eg) [] = Ok ms).
    { apply decryptMembers_total. eapply Forall_impl; [exact Hall |].
      intros e (uid & pk & Hu & Hpk). eexists. apply decryptMember_Ok.
      exists uid, pk. eauto. }
    destruct Hms as (ms & Hms).
    destruct (decryptDescription_Ok gsp (signalpb.Description eg)) as (d & Hd & _).
    assert (Hg : exists g, decryptGroup eg mk = Ok g).
    { rewrite (decryptGroup_run eg mk key gsp Hkey Hgsp).
      rewrite Hgid, Htb, Hd, Ht, Hms. cbn [bindR]. eauto. }
    destruct Hg as (g & Hg). exists g. split; [exact Hg | exact (Hbound g Hg)].
Qed.

Lemma decryptGroup_members_all_or_nothing_witness :
  (exists g,
     @decryptGroup Sample.collaborators
       (Sample.groupRecord 4 [Some (Sample.member Byte.x07 1); None;
                              Some (Sample.member Byte.x09 2)])
       Sample.serializedKey = Ok g
     /\ map UserID (Members g) = [repeat Byte.x07 16; repeat Byte.x09 16]
     /\ map ProfileKey (Members g) = [repeat Byte.x07 32; repeat Byte.x09 32])
  /\ (exists err,
        @decryptGroup Sample.collaborators
          (Sample.groupRecord 4 [Some (Sample.member Byte.x07 1); None;
                                 Some Sample.brokenMember])
          Sample.serializedKey = Err err).
Proof.
  split.
  - destruct (@decryptGroup_members_all_or_nothing Sample.collaborators
                (Sample.groupRecord 4 [Some (Sample.member Byte.x07 1); None;
                                       Some (Sample.member Byte.x09 2)])
                Sample.serializedKey Sample.key Sample.key eq_refl eq_refl)
      as (_ & _ & _ & Hall).
    destruct (Hall (base64.EncodeToString Sample.key) (signalpb.ContentTitle "Team") 0
                eq_refl eq_refl eq_refl) as (g & Hg & Hbound).
    + cbn [omap]. repeat constructor; eexists; eexists; split; reflexivity.
    + exists g. split; [exact Hg |].
      vm_compute in Hg. injection Hg as <-. split; reflexivity.
  - destruct (@decryptGroup_members_all_or_nothing Sample.collaborators
                (Sample.groupRecord 4 [Some (Sample.member Byte.x07 1); None;
                                       Some Sample.brokenMember])
                Sample.serializedKey Sample.key Sample.key eq_refl eq_refl)
      as (_ & _ & Hfail & _).
    destruct (Hfail Sample.brokenMember) as [Herr _]; [| | exact Herr].
    + change (Some Sample.brokenMember
              ∈ [Some (Sample.member Byte.x07 1); None; Some Sample.brokenMember]).
      apply list_elem_of_further, list_elem_of_further, list_elem_of_here.
    + left. exists (errorString "invalid uuid ciphertext"). reflexivity.
Defined.

(** C3 (as amended): the role of a member is the numeric value of the Role
    field of its entry, carried over unchanged: 0, 1 and 2 are the unknown,
    default and administrator roles, and any other value is kept as it is,
    neither mapped to the unknown role nor rejected (whether an entry
    decrypts does not depend on its Role). *)
Theorem decryptGroup_role_carried_over `{Collaborators}
    (eg : signalpb.Group) (mk : string) (g : Group) :
  decryptGroup eg mk = Ok g ->
  map Role (Members g) = map signalpb.Role (omap id (signalpb.Members eg))
  /\ (forall gsp e r,
        is_Ok (decryptMember gsp (signalpb.set_Role r e))
        = is_Ok (decryptMember gsp e))
  /\ (forall gsp e r m,
        decryptMember gsp (signalpb.set_Role r e) = Ok m -> Role m = r).
Proof.
  intros Hg. split; [| split].
  - destruct (decryptGroup_Ok_inv eg mk g Hg)
      as (key & gsp & gid & tb & d & t & ms & _ & _ & _ & _ & _ & _ & Hms & ->).
    cbn [Members].
    destruct (decryptMembers_Ok gsp _ _ _ Hms) as (new & -> & Hall).
    cbn [app]. generalize dependent (omap id (signalpb.Members eg)).
    clear Hg Hms. intros es Hall.
    induction Hall as [| e m es ms' Hm _ IH]; [reflexivity |].
    cbn. rewrite IH. f_equal.
    apply decryptMember_Ok in Hm as (uid & pk & _ & _ & ->). reflexivity.
  - intros gsp e r. unfold decryptMember. cbn.
    destruct (DecryptUUID gsp (signalpb.UserId e)) as [uid |]; cbn; [| reflexivity].
    destruct (DecryptProfileKey gsp (signalpb.ProfileKey e) uid); reflexivity.
  - intros gsp e r m Hm.
    apply decryptMember_Ok in Hm as (uid & pk & _ & _ & ->). reflexivity.
Qed.

Lemma decryptGroup_role_carried_over_witness :
  exists g,
    @decryptGroup Sample.collaborators
      (Sample.groupRecord 4 [Some (Sample.member Byte.x07 2); None;
                             Some (Sample.member Byte.x08 7)])
      Sample.serializedKey = Ok g
    /\ map Role (Members g) = [2; 7].
Proof.
  eexists. split; [vm_compute; reflexivity |].
  apply (@decryptGroup_role_carried_over Sample.collaborators
           (Sample.groupRecord 4 [Some (Sample.member Byte.x07 2); None;
                                  Some (Sample.member Byte.x08 7)])
           Sample.serializedKey).
  vm_compute. reflexivity.
Defined.

(** C3, the claim as stated fails: a member entry whose Role is 3, a value
    that is none of 0, 1, 2, is decoded with role 3, not with the unknown
    role. *)
Lemma role_unknown_counterexample :
  (Members <$> @decryptGroup_as_option Sample.collaborators
     (Sample.groupRecord 4 [Some (Sample.member Byte.x07 3)]) Sample.serializedKey)
  = Some [ {| UserID := repeat Byte.x07 16; Role := 3;
              ProfileKey := repeat Byte.x07 32; JoinedAtRevision := 0 |} ]
  /\ 3 <> GroupMember_UNKNOWN.
Proof. split; [vm_compute; reflexivity | discriminate]. Qed.

(** ** Stateful operations: what they leave untouched *)
Section Frames.
Context `{Collaborators}.

Lemma now_run (s : State) : now s = (Ok (clockTime s), afterClock s).
Proof.
  unfold now, external, clockTime, afterClock.
  destruct (time_Now (world s)) as [t w]. reflexivity.
Qed.

Lemma quiet_ret {A} (a : A) : quiet (ret a).
Proof. intros s. split; [reflexivity |]. exists []. rewrite app_nil_r. auto. Qed.

Lemma quiet_fail {A} (e : error) : quiet (@fail _ A e).
Proof. intros s. split; [reflexivity |]. exists []. rewrite app_nil_r. auto. Qed.

Lemma quiet_lift {A} (r : result A) : quiet (lift r).
Proof. intros s. split; [reflexivity |]. exists []. rewrite app_nil_r. auto. Qed.

Lemma quiet_getCli : quiet getCli.
Proof. intros s. split; [reflexivity |]. exists []. rewrite app_nil_r. auto. Qed.

Lemma quiet_external {A} (op : World -> returns A * World) : quiet (external op).
Proof.
  intros s. unfold external. destruct (op (world s)) as [r w]. cbn.
  split; [reflexivity |]. exists []. rewrite app_nil_r. auto.
Qed.

Lemma quiet_emit (ev : Event) : isFetchGroupByID ev = false -> quiet (emit ev).
Proof. intros Hev s. split; [reflexivity |]. exists [ev]. auto. Qed.

Lemma quiet_modifyCli (f : Client -> Client) :
  (forall c, cli_GroupCache (f c) = cli_GroupCache c) -> quiet (modifyCli f).
Proof.
  intros Hf s. cbn. split; [apply Hf |]. exists []. rewrite app_nil_r. auto.
Qed.

Lemma quiet_bindM {A B} (m : M A) (k : A -> M B) :
  quiet m -> (forall a, quiet (k a)) -> quiet (bindM m k).
Proof.
  intros Hm Hk s. unfold bindM. specialize (Hm s).
  destruct (m s) as [[a | e | p] s1]; cbn in *; try exact Hm.
  destruct Hm as (Hc1 & evs1 & Ht1 & Hf1).
  destruct (Hk a s1) as (Hc2 & evs2 & Ht2 & Hf2).
  split; [congruence |].
  exists (evs1 ++ evs2). rewrite Ht2, Ht1, app_assoc. split; [reflexivity |].
  apply Forall_app. auto.
Qed.

Lemma quiet_wrappingM {A} (msg : string) (m : M A) : quiet m -> quiet (wrappingM msg m).
Proof.
  intros Hm s. unfold wrappingM. specialize (Hm s).
  destruct (m s) as [r s1]. exact Hm.
Qed.

Lemma quiet_now : quiet now.
Proof. apply quiet_external. Qed.

Ltac quiet_step :=
  first
    [ apply quiet_ret | apply quiet_fail | apply quiet_lift | apply quiet_getCli
    | apply quiet_now | apply quiet_external
    | apply quiet_emit; reflexivity
    | apply quiet_modifyCli; intros ?; reflexivity
    | apply quiet_wrappingM
    | apply quiet_bindM; [| intros ?]
    | match goal with
      | |- quiet (if ?b then _ else _) => destruct b
      | |- quiet (match ?x with _ => _ end) => destruct x
      | |- quiet (let '(_, _) := ?x in _) => destruct x
      end ].

Lemma quiet_fetchNewGroupCreds (today : Z) : quiet (fetchNewGroupCreds today).
Proof. unfold fetchNewGroupCreds. repeat quiet_step. Qed.

Lemma quiet_presentCredential (cred : GroupCredential) (mk : list byte) :
  quiet (presentCredential cred mk).
Proof. unfold presentCredential. repeat quiet_step. Qed.

Lemma quiet_todaysCredential : quiet todaysCredential.
Proof.
  unfold todaysCredential. repeat quiet_step.
Qed.

Lemma quiet_GetAuthorizationForToday (mk : list byte) :
  quiet (GetAuthorizationForToday mk).
Proof.
  unfold GetAuthorizationForToday.
  apply quiet_bindM; [apply quiet_todaysCredential | intros found].
  destruct (found.2); [apply quiet_presentCredential | apply quiet_fail].
Qed.

Lemma quiet_storeProfileKeys (members : list GroupMember) :
  quiet (storeProfileKeys members).
Proof.
  induction members as [| m ms IH]; cbn [storeProfileKeys]; repeat quiet_step.
  exact IH.
Qed.

(** [fetchNewGroupCreds] in one step: one request is sent, the client is
    left as it was, and the outcome is read off the reply. *)
Lemma fetchNewGroupCreds_run (today : Z) (s : State) :
  let req := groupCredsRequest today in
  let sent := AuthedWS_SendRequest req (world s) in
  fetchNewGroupCreds today s =
    (match sent.1 with
     | inr e => Err (wrapError "SendRequest error" e)
     | inl resp =>
         match signalpb.Status resp with
         | None => Panic (errorString "nil pointer dereference")
         | Some st =>
             if negb (st =? 200)
             then Err (errorString ("bad status code fetching group creds: "
                                    +:+ pretty st))
             else
               match json_Unmarshal_GroupCredentials (signalpb.Body resp) with
               | inr e => Err e
               | inl creds =>
                   if negb (bool_decide (PNI creds = Store_PNI (cli s)))
                   then Err (errorString "creds.PNI != d.PNI")
                   else Ok creds
               end
         end
     end,
     {| cli := cli s; world := sent.2;
        trace := trace s ++ [CallFetchNewGroupCreds today; WSRequestSent req] |}).
Proof.
  cbv zeta. unfold fetchNewGroupCreds, bindM, wrappingM, emit, external, lift,
    getCli, fail, ret. cbn.
  rewrite <- app_assoc. cbn [app].
  destruct (AuthedWS_SendRequest (groupCredsRequest today) (world s))
    as [[resp | e] w']; cbn; [| reflexivity].
  destruct (signalpb.Status resp) as [st |]; cbn; [| reflexivity].
  destruct (st =? 200); cbn; [| reflexivity].
  destruct (json_Unmarshal_GroupCredentials (signalpb.Body resp)) as [creds | e];
    cbn; [| reflexivity].
  destruct (bool_decide (PNI creds = Store_PNI (cli s))); reflexivity.
Qed.

Lemma todaysCredential_run (s : State) :
  let today := time.Truncate (clockTime s) (24 * time.Hour) in
  todaysCredential s =
    match getCachedAuthorizationForToday (cli s) today with
    | Some cred => (Ok (today, Some cred), afterClock s)
    | None =>
        let r := fetchNewGroupCreds today (afterClock s) in
        match r.1 with
        | Ok creds =>
            (Ok (today, credentialFor (time.Unix today) (Credentials creds)),
             withCli (set_GroupCredentials (Some creds)) r.2)
        | Err e => (Err (wrapError "fetchNewGroupCreds error" e), r.2)
        | Panic p => (Panic p, r.2)
        end
    end.
Proof.
  cbv zeta. unfold todaysCredential. unfold bindM at 1. rewrite now_run.
  unfold bindM at 1. unfold getCli at 1. cbn [cli afterClock].
  destruct (getCachedAuthorizationForToday (cli s)
              (time.Truncate (clockTime s) (24 * time.Hour))) as [cred |];
    [reflexivity |].
  unfold bindM at 1. unfold wrappingM.
  destruct (fetchNewGroupCreds (time.Truncate (clockTime s) (24 * time.Hour))
              (afterClock s)) as [[creds | e | p] s2]; cbn; reflexivity.
Qed.

Lemma GetAuthorizationForToday_run (mk : list byte) (s : State) :
  GetAuthorizationForToday mk s =
    match todaysCredential s with
    | (Ok (_, Some cred), s') => presentCredential cred mk s'
    | (Ok (_, None), s') => (Err (errorString "couldn't get credential for today"), s')
    | (Err e, s') => (Err e, s')
    | (Panic p, s') => (Panic p, s')
    end.
Proof.
  unfold GetAuthorizationForToday, bindM.
  destruct (todaysCredential s) as [[[today [cred |]] | e | p] s']; reflexivity.
Qed.

End Frames.

(** ** package time *)

Lemma Truncate_day (t : Z) :
  let today := time.Truncate t (24 * time.Hour) in
  today <= t < today + 24 * time.Hour
  /\ time.Unix today = t / (24 * time.Hour) * 86400
  /\ time.Unix (time.Add today (7 * 24 * time.Hour)) = time.Unix today + 7 * 86400.
Proof.
  unfold time.Truncate, time.Unix, time.Add, time.Hour, time.Second,
    time.Nanosecond, time.unixToInternal. cbn [Z.leb Z.mul Pos.mul Z.compare].
  change (24 * (3600 * (1000000000 * 1))) with 86400000000000.
  change (7 * 86400000000000) with 604800000000000.
  change (62135596800 * (1000000000 * 1)) with 62135596800000000000.
  change (1000000000 * 1) with 1000000000.
  change (86400000000000 <=? 0) with false. cbv iota.
  repeat split; Z.div_mod_to_equations; lia.
Qed.

Lemma Sub_lt_Hour (t u : Z) : time.Sub t u < 1 * time.Hour <-> t - u < time.Hour.
Proof.
  unfold time.Sub, time.minDuration, time.maxDuration, time.Hour, time.Second,
    time.Nanosecond. lia.
Qed.

(** ** Daily credential manager *)
Section Credentials.
Context `{Collaborators}.

Lemma credentialFor_Some (day : Z) (creds : list GroupCredential) (cred : GroupCredential) :
  credentialFor day creds = Some cred ->
  exists before after,
    creds = before ++ cred :: after
    /\ RedemptionTime cred = day
    /\ Forall (fun c => RedemptionTime c <> day) before.
Proof.
  induction creds as [| c creds IH]; cbn; [discriminate |].
  destruct (RedemptionTime c =? day) eqn:Hc.
  - intros [= <-]. exists [], creds. apply Z.eqb_eq in Hc. auto.
  - intros Hrest. destruct (IH Hrest) as (before & after & -> & Hday & Hall).
    exists (c :: before), after. apply Z.eqb_neq in Hc. auto.
Qed.

Lemma credentialFor_None (day : Z) (creds : list GroupCredential) :
  credentialFor day creds = None <->
  Forall (fun c => RedemptionTime c <> day) creds.
Proof.
  induction creds as [| c creds IH]; cbn.
  - split; auto.
  - destruct (RedemptionTime c =? day) eqn:Hc.
    + apply Z.eqb_eq in Hc. split; [discriminate |].
      intros Hall. inversion Hall; subst. contradiction.
    + apply Z.eqb_neq in Hc. rewrite IH. split.
      * intros Hall. constructor; assumption.
      * intros Hall. inversion Hall; assumption.
Qed.

Lemma readOnly_presentCredential (cred : GroupCredential) (mk : list byte) (s : State) :
  cli (presentCredential cred mk s).2 = cli s.
Proof.
  unfold presentCredential, bindM, lift, getCli, external, ret.
  destruct (NewAuthCredentialWithPniResponse (Credential cred)); cbn; [| reflexivity].
  destruct (ReceiveAuthCredentialWithPni _ _ _ _ _); cbn; [| reflexivity].
  destruct (DeriveGroupSecretParamsFromMasterKey mk); cbn; [| reflexivity].
  destruct (GenerateRandomness (world s)) as [rnd w]; cbn.
  destruct (CreateAuthCredentialWithPniPresentation _ _ _ _); cbn; [| reflexivity].
  destruct (GetPublicParams _); reflexivity.
Qed.

(** What a successful [presentCredential] was computed from. *)
Lemma presentCredential_Ok (cred : GroupCredential) (mk : list byte)
    (s s' : State) (auth : GroupAuth) :
  presentCredential cred mk s = (Ok auth, s') ->
  exists resp received gsp pres pp,
    NewAuthCredentialWithPniResponse (Credential cred) = inl resp
    /\ ReceiveAuthCredentialWithPni prodServerPublicParams
         (Store_ACI (cli s)) (Store_PNI (cli s))
         (uint64 (RedemptionTime cred)) resp = inl received
    /\ DeriveGroupSecretParamsFromMasterKey mk = inl gsp
    /\ CreateAuthCredentialWithPniPresentation prodServerPublicParams
         (GenerateRandomness (world s)).1 gsp received = inl pres
    /\ GetPublicParams gsp = inl pp
    /\ auth = {| Username := hex.EncodeToString pp;
                 Password := hex.EncodeToString pres |}.
Proof.
  unfold presentCredential, bindM, lift, getCli, external, ret.
  destruct (NewAuthCredentialWithPniResponse (Credential cred)) as [resp |] eqn:E1;
    cbn; [| discriminate].
  destruct (ReceiveAuthCredentialWithPni _ _ _ _ _) as [received |] eqn:E2;
    cbn; [| discriminate].
  destruct (DeriveGroupSecretParamsFromMasterKey mk) as [gsp |] eqn:E3;
    cbn; [| discriminate].
  destruct (GenerateRandomness (world s)) as [rnd w] eqn:E4; cbn.
  destruct (CreateAuthCredentialWithPniPresentation _ _ _ _) as [pres |] eqn:E5;
    cbn; [| discriminate].
  destruct (GetPublicParams gsp) as [pp |] eqn:E6; cbn; [| discriminate].
  intros [= <- <-]. exists resp, received, gsp, pres, pp. auto 10.
Qed.

Lemma credentialRequests_app (a b : list Event) :
  credentialRequests (a ++ b) = (credentialRequests a + credentialRequests b)%nat.
Proof. unfold credentialRequests. rewrite filter_app, length_app. reflexivity. Qed.

Lemma fetchNewGroupCreds_frame (today : Z) (s : State) :
  cli (fetchNewGroupCreds today s).2 = cli s
  /\ credentialRequests (trace (fetchNewGroupCreds today s).2)
     = S (credentialRequests (trace s)).
Proof.
  rewrite fetchNewGroupCreds_run. cbn [snd cli trace].
  split; [reflexivity |]. rewrite credentialRequests_app.
  replace (credentialRequests
             [CallFetchNewGroupCreds today; WSRequestSent (groupCredsRequest today)])
    with 1%nat by reflexivity.
  lia.
Qed.

End Credentials.

(** C5: when the bundle the issuance endpoint returns carries a PNI other
    than the one the session stores, [fetchNewGroupCreds] fails with an
    error; the client keeps the bundle it had, one request was sent and no
    other, and [GetAuthorizationForToday], which asked for the bundle,
    fails too without caching or using it. *)
Theorem fetchNewGroupCreds_pni_mismatch_fatal `{Collaborators}
    (mk : list byte) (s0 : State)
    (resp : signalpb.WebSocketResponseMessage) (creds : GroupCredentials) :
  let today := time.Truncate (clockTime s0) (24 * time.Hour) in
  let s := afterClock s0 in
  (AuthedWS_SendRequest (groupCredsRequest today) (world s)).1 = inl resp ->
  signalpb.Status resp = Some 200 ->
  json_Unmarshal_GroupCredentials (signalpb.Body resp) = inl creds ->
  PNI creds <> Store_PNI (cli s) ->
  let f := fetchNewGroupCreds today s in
  let res := GetAuthorizationForToday mk s0 in
  (f.1 = Err (errorString "creds.PNI != d.PNI")
   /\ cli f.2 = cli s
   /\ credentialRequests (trace f.2) = S (credentialRequests (trace s)))
  /\ (getCachedAuthorizationForToday (cli s0) today = None ->
      res.1 = Err (wrapError "fetchNewGroupCreds error"
                             (errorString "creds.PNI != d.PNI"))
      /\ cli res.2 = cli s0
      /\ credentialRequests (trace res.2) = S (credentialRequests (trace s0))).
Proof.
  cbv zeta. intros Hsent Hstatus Hparse Hpni.
  assert (Hf : (fetchNewGroupCreds
                  (time.Truncate (clockTime s0) (24 * time.Hour)) (afterClock s0)).1
               = Err (errorString "creds.PNI != d.PNI")).
  { rewrite fetchNewGroupCreds_run. cbv zeta. cbn [fst].
    rewrite Hsent, Hstatus. cbn [Z.eqb Pos.eqb negb]. rewrite Hparse.
    rewrite bool_decide_eq_false_2 by exact Hpni. reflexivity. }
  destruct (fetchNewGroupCreds_frame
              (time.Truncate (clockTime s0) (24 * time.Hour)) (afterClock s0))
    as (Hcli & Hcount).
  split; [auto |].
  intros Hmiss. rewrite GetAuthorizationForToday_run, todaysCredential_run.
  cbv zeta. rewrite Hmiss, Hf. cbn [fst snd]. auto.
Qed.

Lemma fetchNewGroupCreds_pni_mismatch_fatal_witness :
  let s0 := Sample.stateOf Sample.freshClient Sample.worldOtherPNI in
  let res := @GetAuthorizationForToday Sample.collaborators Sample.key s0 in
  res.1 = Err (wrapError "fetchNewGroupCreds error"
                         (errorString "creds.PNI != d.PNI"))
  /\ cli res.2 = cli s0
  /\ credentialRequests (trace res.2) = S (credentialRequests (trace s0)).
Proof.
  cbv zeta.
  refine (proj2 (@fetchNewGroupCreds_pni_mismatch_fatal Sample.collaborators
                   Sample.key (Sample.stateOf Sample.freshClient Sample.worldOtherPNI)
                   _ _ eq_refl eq_refl eq_refl _) eq_refl).
  vm_compute. discriminate.
Defined.

(** C9: when [GetAuthorizationForToday] succeeds, the user name it returns
    is the hexadecimal encoding of the public parameters of the secret
    parameters derived from the given master key, and the password is the
    hexadecimal encoding of the credential presentation made for these
    secret parameters. *)
Theorem GetAuthorizationForToday_group_auth `{Collaborators}
    (mk : list byte) (s s' : State) (auth : GroupAuth) :
  GetAuthorizationForToday mk s = (Ok auth, s') ->
  exists gsp pp randomness received pres,
    DeriveGroupSecretParamsFromMasterKey mk = inl gsp
    /\ GetPublicParams gsp = inl pp
    /\ CreateAuthCredentialWithPniPresentation prodServerPublicParams
         randomness gsp received = inl pres
    /\ Username auth = hex.EncodeToString pp
    /\ Password auth = hex.EncodeToString pres.
Proof.
  rewrite GetAuthorizationForToday_run.
  destruct (todaysCredential s) as [[[today [cred |]] | e | p] s1];
    try discriminate.
  intros Hrun.
  destruct (presentCredential_Ok _ _ _ _ _ Hrun)
    as (resp & received & gsp & pres & pp & _ & _ & Hgsp & Hpres & Hpp & ->).
  exists gsp, pp, (GenerateRandomness (world s1)).1, received, pres. auto.
Qed.

Lemma GetAuthorizationForToday_group_auth_witness :
  exists gsp pp randomness received pres,
    @DeriveGroupSecretParamsFromMasterKey Sample.collaborators Sample.key = inl gsp
    /\ @GetPublicParams Sample.collaborators gsp = inl pp
    /\ @CreateAuthCredentialWithPniPresentation Sample.collaborators tt
         randomness gsp received = inl pres
    /\ hex.EncodeToString (repeat Byte.x11 32) = hex.EncodeToString pp
    /\ "2a03" = hex.EncodeToString pres.
Proof.
  apply (@GetAuthorizationForToday_group_auth Sample.collaborators Sample.key
           (Sample.stateOf Sample.freshClient Sample.world0)
           (@GetAuthorizationForToday Sample.collaborators Sample.key
              (Sample.stateOf Sample.freshClient Sample.world0)).2
           {| Username := hex.EncodeToString (repeat Byte.x11 32);
              Password := "2a03" |}).
  vm_compute. reflexivity.
Defined.

(** ** Group metadata cache *)
Section Cache.
Context `{Collaborators}.

Lemma groupFetches_app (a b : list Event) :
  groupFetches (a ++ b) = (groupFetches a + groupFetches b)%nat.
Proof. unfold groupFetches. rewrite filter_app, length_app. reflexivity. Qed.

Lemma groupFetches_quiet (evs : list Event) :
  Forall (fun ev => isFetchGroupByID ev = false) evs -> groupFetches evs = 0%nat.
Proof.
  unfold groupFetches. induction 1 as [| ev evs Hev _ IH]; [reflexivity |].
  rewrite filter_cons_False by congruence. exact IH.
Qed.

Lemma bindM_emit {A} (ev : Event) (k : unit -> M A) (s : State) :
  bindM (emit ev) k s
  = k tt {| cli := cli s; world := world s; trace := trace s ++ [ev] |}.
Proof. reflexivity. Qed.

(** [fetchGroupByID] is entered once and leaves the group cache alone. *)
Lemma fetchGroupByID_frame (gid : string) (s : State) :
  cli_GroupCache (cli (fetchGroupByID gid s).2) = cli_GroupCache (cli s)
  /\ groupFetches (trace (fetchGroupByID gid s).2) = S (groupFetches (trace s)).
Proof.
  unfold fetchGroupByID.
  match goal with
  | |- context [bindM (emit ?ev) ?k] => set (body := k)
  end.
  rewrite !(bindM_emit _ body s).
  assert (Hq : quiet (body tt)).
  { subst body. cbv beta.
    apply quiet_bindM; [apply quiet_wrappingM, quiet_external | intros mk].
    destruct (String.eqb mk ""); [apply quiet_fail |].
    apply quiet_bindM; [apply quiet_lift | intros key].
    apply quiet_bindM; [apply quiet_GetAuthorizationForToday | intros auth].
    apply quiet_bindM.
    { apply quiet_bindM; [apply quiet_emit; reflexivity | intros _].
      apply quiet_external. }
    intros [status body].
    destruct (negb (status =? 200)); [apply quiet_fail |].
    apply quiet_bindM; [apply quiet_external | intros bytes].
    apply quiet_bindM; [apply quiet_lift | intros eg].
    apply quiet_bindM; [apply quiet_lift | intros g].
    apply quiet_bindM; [apply quiet_storeProfileKeys | intros _].
    apply quiet_ret. }
  destruct (Hq {| cli := cli s; world := world s;
                  trace := trace s ++ [CallFetchGroupByID gid] |})
    as (Hc & evs & Ht & Hf).
  cbn [cli trace] in Hc, Ht.
  split; [exact Hc |].
  rewrite Ht, !groupFetches_app, (groupFetches_quiet evs Hf).
  replace (groupFetches [CallFetchGroupByID gid]) with 1%nat by reflexivity.
  lia.
Qed.

Lemma cachedGroup_run (gid : string) (rev : Z) (s : State) :
  cachedGroup gid rev s =
    match lastFetched (theCache (cli s)) !! gid with
    | Some fetched =>
        (Ok (if time.Sub (clockTime s) fetched <? 1 * time.Hour
             then match groups (theCache (cli s)) !! gid with
                  | Some g => if Revision g >=? rev then Some g else None
                  | None => None
                  end
             else None),
         afterClock s)
    | None => (Ok None, s)
    end.
Proof.
  unfold cachedGroup. unfold bindM at 1. unfold getCli at 1.
  destruct (lastFetched (theCache (cli s)) !! gid) as [fetched |]; [| reflexivity].
  unfold since, bindM. rewrite now_run. cbn [ret].
  destruct (time.Sub (clockTime s) fetched <? 1 * time.Hour); [| reflexivity].
  destruct (groups (theCache (cli s)) !! gid) as [g |]; [| reflexivity].
  destruct (Revision g >=? rev); reflexivity.
Qed.

(** The lookup at the head of [RetrieveGroupByID]: it yields the cached
    group exactly when both maps have an entry for [gid], less than an hour
    has passed since the entry was fetched, and its revision is at least the
    one asked for.  It changes neither the client nor the trace. *)
Lemma cachedGroup_spec (gid : string) (rev : Z) (s : State) :
  exists hit,
    (cachedGroup gid rev s).1 = Ok hit
    /\ (forall g, hit = Some g <->
          exists fetched,
            lastFetched (theCache (cli s)) !! gid = Some fetched
            /\ groups (theCache (cli s)) !! gid = Some g
            /\ clockTime s - fetched < time.Hour
            /\ rev <= Revision g)
    /\ cli (cachedGroup gid rev s).2 = cli s
    /\ trace (cachedGroup gid rev s).2 = trace s.
Proof.
  rewrite cachedGroup_run.
  destruct (lastFetched (theCache (cli s)) !! gid) as [fetched |] eqn:Hfetched.
  2: { exists None. split; [reflexivity |]. split; [| split; reflexivity].
       intros g. split; [discriminate |]. intros (f & Hf & _). discriminate. }
  eexists. split; [reflexivity |]. split; [| split; reflexivity].
  intros g.
  destruct (time.Sub (clockTime s) fetched <? 1 * time.Hour) eqn:Hfresh.
  - apply Z.ltb_lt, Sub_lt_Hour in Hfresh.
    destruct (groups (theCache (cli s)) !! gid) as [g' |] eqn:Hg.
    + destruct (Revision g' >=? rev) eqn:Hrev.
      * apply Z.geb_le in Hrev. split.
        -- intros [= <-]. exists fetched. auto.
        -- intros (f & _ & [= <-] & _). reflexivity.
      * split; [discriminate |].
        intros (f & _ & [= <-] & _ & Hle). apply Z.geb_le in Hle. congruence.
    + split; [discriminate |]. intros (f & _ & Hg' & _). discriminate.
  - split; [discriminate |].
    intros (f & [= <-] & _ & Hlt & _).
    apply Sub_lt_Hour, Z.ltb_lt in Hlt. congruence.
Qed.

Lemma RetrieveGroupByID_run (gid : string) (rev : Z) (s : State) :
  let c := cachedGroup gid rev (withCli initGroupCache s) in
  RetrieveGroupByID gid rev s =
    match c.1 with
    | Ok (Some g) => (Ok g, c.2)
    | Ok None =>
        let f := fetchGroupByID gid c.2 in
        match f.1 with
        | Ok g => (Ok g, storeFetched gid g f.2)
        | Err e => (Err e, f.2)
        | Panic p => (Panic p, f.2)
        end
    | Err e => (Err e, c.2)
    | Panic p => (Panic p, c.2)
    end.
Proof.
  cbv zeta. unfold RetrieveGroupByID. unfold bindM at 1. cbn [modifyCli].
  change {| cli := initGroupCache (cli s); world := world s; trace := trace s |}
    with (withCli initGroupCache s).
  unfold bindM at 1.
  destruct (cachedGroup gid rev (withCli initGroupCache s)) as [[[g |] | e | p] s1];
    cbn [fst snd]; try reflexivity.
  unfold bindM at 1.
  destruct (fetchGroupByID gid s1) as [[g | e | p] s2]; cbn [fst snd];
    try reflexivity.
  unfold bindM at 1. unfold modifyCache at 1. cbn [modifyCli].
  unfold bindM at 1. rewrite now_run.
  unfold bindM at 1. unfold modifyCache at 1. cbn [modifyCli].
  reflexivity.
Qed.

Lemma storeFetched_cache (gid : string) (g : Group) (s : State) :
  groups (theCache (cli (storeFetched gid g s)))
  = <[gid := g]> (groups (theCache (cli s)))
  /\ lastFetched (theCache (cli (storeFetched gid g s)))
     = <[gid := clockTime s]> (lastFetched (theCache (cli s)))
  /\ activeCalls (theCache (cli (storeFetched gid g s)))
     = activeCalls (theCache (cli s))
  /\ trace (storeFetched gid g s) = trace s.
Proof. repeat split. Qed.

Lemma theCache_eq (c1 c2 : Client) :
  cli_GroupCache c1 = cli_GroupCache c2 -> theCache c1 = theCache c2.
Proof. unfold theCache. intros ->. reflexivity. Qed.

(** The two ways [RetrieveGroupByID] can go, with what each leaves behind. *)
Lemma RetrieveGroupByID_cases (gid : string) (rev : Z) (s : State) :
  let res := RetrieveGroupByID gid rev s in
  let f := fetchGroupByID gid (cachedGroup gid rev (withCli initGroupCache s)).2 in
  (exists g, cacheHit gid rev s g
     /\ (forall g', cacheHit gid rev s g' -> g' = g)
     /\ res.1 = Ok g
     /\ trace res.2 = trace s
     /\ theCache (cli res.2) = theCache (cli s))
  \/ ((forall g, ~ cacheHit gid rev s g)
      /\ groupFetches (trace res.2) = S (groupFetches (trace s))
      /\ theCache (cli f.2) = theCache (cli s)
      /\ match f.1 with
         | Ok g => res = (Ok g, storeFetched gid g f.2)
         | Err e => res = (Err e, f.2)
         | Panic p => res = (Panic p, f.2)
         end).
Proof.
  cbv zeta. rewrite RetrieveGroupByID_run. cbv zeta.
  destruct (cachedGroup_spec gid rev (withCli initGroupCache s))
    as (o & Ho & Hiff & Hcli & Htr).
  cbn [cli trace withCli] in Hiff, Hcli, Htr.
  rewrite theCache_initGroupCache in Hiff.
  change (clockTime (withCli initGroupCache s)) with (clockTime s) in Hiff.
  fold (cacheHit gid rev s) in Hiff.
  rewrite Ho. destruct o as [g |].
  - left. exists g. cbn [fst snd].
    split; [apply Hiff; reflexivity |].
    split; [intros g' Hg'; apply Hiff in Hg'; congruence |].
    split; [reflexivity |]. split; [exact Htr |].
    rewrite Hcli. apply theCache_initGroupCache.
  - right.
    split; [intros g Hg; apply Hiff in Hg; discriminate |].
    destruct (fetchGroupByID_frame gid
                (cachedGroup gid rev (withCli initGroupCache s)).2) as (Hfc & Hfn).
    rewrite Htr in Hfn.
    assert (Hcache : theCache (cli (fetchGroupByID gid
                       (cachedGroup gid rev (withCli initGroupCache s)).2).2)
                     = theCache (cli s)).
    { rewrite (theCache_eq _ _ Hfc), Hcli. apply theCache_initGroupCache. }
    destruct ((fetchGroupByID gid
                 (cachedGroup gid rev (withCli initGroupCache s)).2).1)
      as [g | e | p]; cbn [fst snd]; auto.
Qed.

End Cache.

(** C1 (as amended): [RetrieveGroupByID] returns the cached group without
    fetching if and only if both maps have an entry for the identifier,
    strictly less than one hour has passed since the entry was fetched, and
    the revision of the cached group is at least the one asked for.  In
    every other case it fetches exactly once; when the fetch returns a
    group, that group and a fresh time stamp are stored under the
    identifier and the group is returned; when the fetch returns an error,
    the error is returned and nothing is stored. *)
Theorem RetrieveGroupByID_hit_or_fetch `{Collaborators}
    (gid : string) (rev : Z) (s : State) :
  let res := RetrieveGroupByID gid rev s in
  let f := fetchGroupByID gid (cachedGroup gid rev (withCli initGroupCache s)).2 in
  (forall g,
     res.1 = Ok g /\ groupFetches (trace res.2) = groupFetches (trace s)
     <-> cacheHit gid rev s g)
  /\ ((forall g, ~ cacheHit gid rev s g) ->
      groupFetches (trace res.2) = S (groupFetches (trace s))
      /\ (forall g, f.1 = Ok g ->
            res.1 = Ok g
            /\ groups (theCache (cli res.2)) = <[gid := g]> (groups (theCache (cli s)))
            /\ lastFetched (theCache (cli res.2))
               = <[gid := clockTime f.2]> (lastFetched (theCache (cli s))))
      /\ (forall e, f.1 = Err e ->
            res.1 = Err e
            /\ groups (theCache (cli res.2)) = groups (theCache (cli s))
            /\ lastFetched (theCache (cli res.2)) = lastFetched (theCache (cli s)))).
Proof.
  cbv zeta.
  destruct (RetrieveGroupByID_cases gid rev s)
    as [(g0 & Hhit & Huniq & Hres & Htr & Hcache)
       | (Hmiss & Hcount & Hcache & Hf)].
  - split.
    + intros g. split.
      * intros [Hg _]. rewrite Hres in Hg. injection Hg as <-. exact Hhit.
      * intros Hg. rewrite (Huniq g Hg). split; [exact Hres |].
        rewrite Htr. reflexivity.
    + intros Hnone. destruct (Hnone g0 Hhit).
  - split.
    + intros g. split.
      * intros [_ Hsame]. rewrite Hcount in Hsame. lia.
      * intros Hg. destruct (Hmiss g Hg).
    + intros _. split; [exact Hcount |].
      destruct ((fetchGroupByID gid
                   (cachedGroup gid rev (withCli initGroupCache s)).2).1)
        as [g | e | p] eqn:Hrun; rewrite Hf; cbn [fst snd].
      * split; [| intros e [=]].
        intros g' [= <-]. split; [reflexivity |].
        destruct (storeFetched_cache gid g
                    (fetchGroupByID gid
                       (cachedGroup gid rev (withCli initGroupCache s)).2).2)
          as (Hg & Hl & _).
        rewrite Hg, Hl, Hcache. auto.
      * split; [intros g [=] |].
        intros e' [= <-]. rewrite Hcache. auto.
      * split; [intros g [=] | intros e [=]].
Qed.

Lemma RetrieveGroupByID_hit_or_fetch_witness :
  let s := Sample.stateOf Sample.freshClient Sample.world0 in
  let res := @RetrieveGroupByID Sample.collaborators "gid" 0 s in
  res.1 = Ok Sample.fetchedGroup
  /\ groups (theCache (cli res.2)) = <[ "gid" := Sample.fetchedGroup ]> ∅
  /\ lastFetched (theCache (cli res.2)) = <[ "gid" := Sample.dayThree ]> ∅.
Proof.
  cbv zeta.
  destruct (@RetrieveGroupByID_hit_or_fetch Sample.collaborators "gid" 0
              (Sample.stateOf Sample.freshClient Sample.world0)) as [_ Hmiss].
  assert (Hnone : forall g,
            ~ @cacheHit Sample.collaborators "gid" 0
                (Sample.stateOf Sample.freshClient Sample.world0) g).
  { intros g (fetched & Hf & _). vm_compute in Hf. discriminate. }
  destruct (Hmiss Hnone) as (_ & Hok & _).
  apply (Hok Sample.fetchedGroup). vm_compute. reflexivity.
Defined.

(** C1, the claim as stated fails: nothing is cached for "gid", the group
    endpoint answers with status 500, and [RetrieveGroupByID] returns the
    error of its one fetch: no group is returned and none is stored. *)
Lemma RetrieveGroupByID_counterexample :
  let s := Sample.stateOf Sample.freshClient Sample.worldGroupsDown in
  let res := @RetrieveGroupByID Sample.collaborators "gid" 0 s in
  lastFetched (theCache (cli s)) !! "gid" = None
  /\ groupFetches (trace res.2) = 1%nat
  /\ res.1 = Err (errorString "fetchGroupByID SendHTTPRequest bad status: 500")
  /\ groups (theCache (cli res.2)) !! "gid" = None
  /\ lastFetched (theCache (cli res.2)) !! "gid" = None.
Proof. vm_compute. repeat split. Qed.

(** C10: a failed fetch leaves the caches as they were.  When
    [RetrieveGroupByID] does not return a group, which happens exactly when
    its fetch (decryption included) returns an error, the group map and the
    last-fetched map are unchanged; and when [fetchNewGroupCreds] returns an
    error, [GetAuthorizationForToday] fails and the client keeps the
    credential bundle it had (or none). *)
Theorem failed_fetch_leaves_caches `{Collaborators}
    (gid : string) (rev : Z) (mk : list byte) (s : State) :
  let res := RetrieveGroupByID gid rev s in
  let f := fetchGroupByID gid (cachedGroup gid rev (withCli initGroupCache s)).2 in
  let today := time.Truncate (clockTime s) (24 * time.Hour) in
  let auth := GetAuthorizationForToday mk s in
  (is_Ok res.1 = false ->
     groups (theCache (cli res.2)) = groups (theCache (cli s))
     /\ lastFetched (theCache (cli res.2)) = lastFetched (theCache (cli s)))
  /\ (forall e, res.1 = Err e <-> (forall g, ~ cacheHit gid rev s g) /\ f.1 = Err e)
  /\ (forall e,
        getCachedAuthorizationForToday (cli s) today = None ->
        (fetchNewGroupCreds today (afterClock s)).1 = Err e ->
        auth.1 = Err (wrapError "fetchNewGroupCreds error" e)
        /\ cli_GroupCredentials (cli auth.2) = cli_GroupCredentials (cli s)).
Proof.
  cbv zeta. split; [| split].
  - intros Hfail.
    destruct (RetrieveGroupByID_cases gid rev s)
      as [(g0 & _ & _ & Hres & _) | (_ & _ & Hcache & Hf)].
    + rewrite Hres in Hfail. discriminate.
    + destruct ((fetchGroupByID gid
                   (cachedGroup gid rev (withCli initGroupCache s)).2).1)
        as [g | e | p]; rewrite Hf in *; cbn [fst snd] in *.
      * discriminate.
      * rewrite Hcache. auto.
      * rewrite Hcache. auto.
  - intros e.
    destruct (RetrieveGroupByID_cases gid rev s)
      as [(g0 & Hhit & _ & Hres & _) | (Hmiss & _ & _ & Hf)].
    + rewrite Hres. split; [discriminate |].
      intros [Hnone _]. destruct (Hnone g0 Hhit).
    + destruct ((fetchGroupByID gid
                   (cachedGroup gid rev (withCli initGroupCache s)).2).1)
        as [g | e' | p]; rewrite Hf; cbn [fst snd].
      * split; [discriminate |]. intros [_ [=]].
      * split; [intros [= <-]; auto | intros [_ [= <-]]; reflexivity].
      * split; [discriminate |]. intros [_ [=]].
  - intros e Hmiss Hf.
    rewrite GetAuthorizationForToday_run, todaysCredential_run.
    cbv zeta. rewrite Hmiss, Hf. cbn [fst snd].
    split; [reflexivity |].
    destruct (fetchNewGroupCreds_frame
                (time.Truncate (clockTime s) (24 * time.Hour)) (afterClock s))
      as (Hcli & _).
    rewrite Hcli. reflexivity.
Qed.

Lemma failed_fetch_leaves_caches_witness :
  let s := Sample.stateOf Sample.freshClient Sample.worldGroupsDown in
  let res := @RetrieveGroupByID Sample.collaborators "gid" 0 s in
  let s' := Sample.stateOf Sample.freshClient Sample.worldNoCreds in
  let auth := @GetAuthorizationForToday Sample.collaborators Sample.key s' in
  (groups (theCache (cli res.2)) = groups (theCache (cli s))
   /\ lastFetched (theCache (cli res.2)) = lastFetched (theCache (cli s)))
  /\ (auth.1 = Err (wrapError "fetchNewGroupCreds error"
                      (wrapError "SendRequest error" (errorString "context canceled")))
      /\ cli_GroupCredentials (cli auth.2) = cli_GroupCredentials (cli s')).
Proof.
  cbv zeta. split.
  - apply (@failed_fetch_leaves_caches Sample.collaborators "gid" 0 Sample.key
             (Sample.stateOf Sample.freshClient Sample.worldGroupsDown)).
    vm_compute. reflexivity.
  - apply (@failed_fetch_leaves_caches Sample.collaborators "gid" 0 Sample.key
             (Sample.stateOf Sample.freshClient Sample.worldNoCreds));
      vm_compute; reflexivity.
Defined.

(** * Further properties *)

(** ** Master-key codec *)
Section CodecMore.

Lemma Encode_length (src : list byte) :
  String.length (base64.Encode src) = (4 * ((length src + 2) / 3))%nat.
Proof.
  induction src as [| b0 | b0 b1 | b0 b1 b2 rest IH] using list_ind3;
    try reflexivity.
  cbn [base64.Encode String.length length]. rewrite IH.
  replace (S (S (S (length rest))) + 2)%nat with (1 * 3 + (length rest + 2))%nat by lia.
  rewrite Nat.div_add_l by lia. lia.
Qed.

Lemma masterKeyToBytes_cases (len : nat) (s : string) :
  (exists k, masterKeyToBytes len s = Ok k /\ length k = len)
  \/ (exists p, masterKeyToBytes len s = Panic p).
Proof.
  unfold masterKeyToBytes, slice_to_array.
  destruct (base64.DecodeString s) as [decoded |]; [| eauto].
  destruct (length decoded <? len)%nat eqn:Hlen; [eauto |].
  apply Nat.ltb_ge in Hlen. left. eexists. split; [reflexivity |].
  rewrite length_take. lia.
Qed.

End CodecMore.

(** X1: [masterKeyFromBytes] is injective: two master keys with the same
    serialisation are the same key. *)
Theorem masterKeyFromBytes_injective (k1 k2 : list byte) :
  masterKeyFromBytes k1 = masterKeyFromBytes k2 -> k1 = k2.
Proof.
  unfold masterKeyFromBytes. intros Heq.
  pose proof (DecodeString_EncodeToString k1) as H1.
  rewrite Heq, DecodeString_EncodeToString in H1. congruence.
Qed.

Lemma masterKeyFromBytes_injective_witness :
  masterKeyFromBytes Sample.key = masterKeyFromBytes (repeat Byte.x11 32)
  /\ Sample.key = repeat Byte.x11 32.
Proof.
  split; [reflexivity |].
  apply (masterKeyFromBytes_injective Sample.key (repeat Byte.x11 32)).
  reflexivity.
Defined.

(** X2: the serialisation of a key of [n] bytes has [4 * ceil(n / 3)]
    characters; it is the empty string, which [fetchGroupByID] reads as "no
    master key stored", only for the empty key. *)
Theorem masterKeyFromBytes_length (k : list byte) :
  String.length (masterKeyFromBytes k) = (4 * ((length k + 2) / 3))%nat
  /\ (masterKeyFromBytes k = "" <-> k = []).
Proof.
  split; [apply Encode_length |].
  split.
  - intros Hempty. destruct k as [| b0 [| b1 [| b2 rest]]];
      [reflexivity | discriminate | discriminate | discriminate].
  - intros ->. reflexivity.
Qed.

(** X3: [masterKeyToBytes] never returns an error: it returns a key or
    panics.  A key it returns has exactly the array length, is the first
    bytes of what the serialisation decodes to, and is returned again when
    it is serialised and read back. *)
Theorem masterKeyToBytes_returns (len : nat) (s : string) :
  (forall e, masterKeyToBytes len s <> Err e)
  /\ (forall k, masterKeyToBytes len s = Ok k ->
        length k = len
        /\ (exists decoded, base64.DecodeString s = Some decoded
                            /\ k = take len decoded)
        /\ masterKeyToBytes len (masterKeyFromBytes k) = Ok k).
Proof.
  unfold masterKeyToBytes, slice_to_array. split.
  - intros e. destruct (base64.DecodeString s) as [decoded |]; [| discriminate].
    destruct (length decoded <? len)%nat; discriminate.
  - intros k. destruct (base64.DecodeString s) as [decoded |]; [| discriminate].
    destruct (length decoded <? len)%nat eqn:Hlen; [discriminate |].
    intros [= <-]. apply Nat.ltb_ge in Hlen.
    assert (Hk : length (take len decoded) = len) by (rewrite length_take; lia).
    split; [exact Hk |]. split; [eauto |].
    unfold masterKeyFromBytes. rewrite DecodeString_EncodeToString.
    rewrite Hk, Nat.ltb_irrefl. rewrite take_take, Nat.min_id. reflexivity.
Qed.

Lemma masterKeyToBytes_returns_witness :
  length Sample.key = 32%nat
  /\ masterKeyToBytes 32 (masterKeyFromBytes Sample.key) = Ok Sample.key.
Proof.
  destruct (masterKeyToBytes_returns 32 Sample.serializedKey) as [_ Hok].
  destruct (Hok Sample.key eq_refl) as (Hlen & _ & Hback).
  split; [exact Hlen | exact Hback].
Defined.

(** ** Group identifier and decryption pipeline *)
Section DecryptMore.
Context `{Collaborators}.

Lemma groupIdentifierFromMasterKey_Ok_inv (mk gid : string) :
  groupIdentifierFromMasterKey mk = Ok gid ->
  exists key gsp pp ident,
    masterKeyToBytes GROUP_MASTER_KEY_LEN mk = Ok key
    /\ DeriveGroupSecretParamsFromMasterKey key = inl gsp
    /\ GetPublicParams gsp = inl pp
    /\ GetGroupIdentifier pp = inl ident
    /\ gid = base64.EncodeToString ident.
Proof.
  unfold groupIdentifierFromMasterKey.
  destruct (masterKeyToBytes GROUP_MASTER_KEY_LEN mk) as [key | |] eqn:Hkey;
    cbn [bindR]; try discriminate.
  destruct (DeriveGroupSecretParamsFromMasterKey key) as [gsp |] eqn:Hgsp;
    cbn; try discriminate.
  destruct (GetPublicParams gsp) as [pp |] eqn:Hpp; cbn; try discriminate.
  destruct (GetGroupIdentifier pp) as [ident |] eqn:Hident; cbn; try discriminate.
  intros [= <-]. exists key, gsp, pp, ident. auto.
Qed.

(** The member loop does not see nil entries. *)
Lemma decryptMembers_without_nil (gsp : GroupSecretParams)
    (ms : list (option signalpb.Member)) (acc : list GroupMember) :
  decryptMembers gsp (Some <$> omap id ms) acc = decryptMembers gsp ms acc.
Proof.
  revert acc. induction ms as [| [e |] ms IH]; intros acc; cbn.
  - reflexivity.
  - destruct (decryptMember gsp e); cbn; [apply IH | reflexivity | reflexivity].
  - apply IH.
Qed.

(** Members that decrypt are appended; the first one that does not ends the
    loop with its error. *)
Lemma decryptMembers_prefix (gsp : GroupSecretParams)
    (oks : list (option signalpb.Member)) (e : signalpb.Member)
    (rest : list (option signalpb.Member)) (acc : list GroupMember) (err : error) :
  Forall (fun o => forall m, o = Some m -> exists g, decryptMember gsp m = Ok g) oks ->
  decryptMember gsp e = Err err ->
  decryptMembers gsp (oks ++ Some e :: rest) acc = Err err.
Proof.
  intros Hoks Herr. revert acc.
  induction Hoks as [| o oks Ho _ IH]; intros acc; cbn.
  - rewrite Herr. reflexivity.
  - destruct o as [m |]; [| apply IH].
    destruct (Ho m eq_refl) as (g & ->). cbn. apply IH.
Qed.

End DecryptMore.

(** X4: the identifier [groupIdentifierFromMasterKey] returns is the base64
    text of the group identifier libsignal derives from the key's public
    parameters: decoding it gives these bytes back, so two master keys get
    the same identifier string only when libsignal gives them the same
    identifier bytes. *)
Theorem groupIdentifierFromMasterKey_decodes `{Collaborators}
    (mk gid : string) :
  groupIdentifierFromMasterKey mk = Ok gid ->
  exists key gsp pp ident,
    masterKeyToBytes GROUP_MASTER_KEY_LEN mk = Ok key
    /\ DeriveGroupSecretParamsFromMasterKey key = inl gsp
    /\ GetPublicParams gsp = inl pp
    /\ GetGroupIdentifier pp = inl ident
    /\ base64.DecodeString gid = Some ident
    /\ String.length gid = (4 * ((length ident + 2) / 3))%nat.
Proof.
  intros Hgid.
  destruct (groupIdentifierFromMasterKey_Ok_inv mk gid Hgid)
    as (key & gsp & pp & ident & Hkey & Hgsp & Hpp & Hident & ->).
  exists key, gsp, pp, ident.
  repeat (split; [assumption |]).
  split; [apply DecodeString_EncodeToString | apply Encode_length].
Qed.

Lemma groupIdentifierFromMasterKey_decodes_witness :
  exists key gsp pp ident,
    masterKeyToBytes 32 Sample.serializedKey = Ok key
    /\ @DeriveGroupSecretParamsFromMasterKey Sample.collaborators key = inl gsp
    /\ @GetPublicParams Sample.collaborators gsp = inl pp
    /\ @GetGroupIdentifier Sample.collaborators pp = inl ident
    /\ base64.DecodeString (base64.EncodeToString Sample.key) = Some ident
    /\ String.length (base64.EncodeToString Sample.key)
       = (4 * ((length ident + 2) / 3))%nat.
Proof.
  apply (@groupIdentifierFromMasterKey_decodes Sample.collaborators
           Sample.serializedKey (base64.EncodeToString Sample.key)).
  vm_compute. reflexivity.
Defined.

(** X5: a group [decryptGroup] returns keeps the serialised master key it
    was given, is identified by what [groupIdentifierFromMasterKey] gives
    for that key, carries the avatar path and the revision of the record
    unchanged, has one member per non-nil entry of the record, each with the
    joined-at revision of its entry, and never has AnnouncementsOnly set. *)
Theorem decryptGroup_carried_fields `{Collaborators}
    (eg : signalpb.Group) (mk : string) (g : Group) :
  decryptGroup eg mk = Ok g ->
  groupMasterKey g = mk
  /\ groupIdentifierFromMasterKey mk = Ok (GroupIdentifier g)
  /\ AvatarPath g = signalpb.Avatar eg
  /\ Revision g = signalpb.Revision eg
  /\ AnnouncementsOnly g = false
  /\ length (Members g) = length (omap id (signalpb.Members eg))
  /\ map JoinedAtRevision (Members g)
     = map signalpb.JoinedAtRevision (omap id (signalpb.Members eg)).
Proof.
  intros Hg.
  destruct (decryptGroup_Ok_inv eg mk g Hg)
    as (key & gsp & gid & tb & d & t & ms & _ & _ & Hgid & _ & _ & _ & Hms & ->).
  cbn. repeat (split; [auto; fail |]).
  destruct (decryptMembers_Ok gsp _ _ _ Hms) as (new & -> & Hall). cbn [app].
  split; [symmetry; eapply Forall2_length; exact Hall |].
  clear Hg Hms. generalize dependent (omap id (signalpb.Members eg)).
  intros es Hall. induction Hall as [| e m es ms' Hm _ IH]; [reflexivity |].
  cbn. rewrite IH. f_equal.
  apply decryptMember_Ok in Hm as (uid & pk & _ & _ & ->). reflexivity.
Qed.

Lemma decryptGroup_carried_fields_witness :
  let eg := Sample.groupRecord 9 [None; Some (Sample.member Byte.x07 1); None] in
  exists g,
    @decryptGroup Sample.collaborators eg Sample.serializedKey = Ok g
    /\ Revision g = 9 /\ AnnouncementsOnly g = false
    /\ length (Members g) = 1%nat.
Proof.
  cbv zeta. eexists. split; [vm_compute; reflexivity |].
  destruct (@decryptGroup_carried_fields Sample.collaborators
              (Sample.groupRecord 9 [None; Some (Sample.member Byte.x07 1); None])
              Sample.serializedKey _ eq_refl)
    as (_ & _ & _ & Hrev & Hann & Hlen & _).
  split; [exact Hrev |]. split; [exact Hann | exact Hlen].
Defined.



(** X7: nil member entries are skipped: removing them from the record
    changes nothing in what [decryptGroup] returns. *)
Theorem decryptGroup_skips_nil_members `{Collaborators}
    (eg : signalpb.Group) (mk : string) :
  decryptGroup (withoutNilMembers eg) mk = decryptGroup eg mk.
Proof.
  unfold decryptGroup. cbn [withoutNilMembers signalpb.Title signalpb.Avatar
    signalpb.DisappearingMessagesTimer signalpb.Members signalpb.Revision
    signalpb.Description].
  destruct (masterKeyToBytes GROUP_MASTER_KEY_LEN mk) as [key | |]; cbn [bindR];
    try reflexivity.
  destruct (call (DeriveGroupSecretParamsFromMasterKey key)) as [gsp | |];
    cbn [bindR]; try reflexivity.
  rewrite decryptMembers_without_nil. reflexivity.
Qed.

(** X8: a malformed master key is a panic, not an error.  When the
    serialised master key is not base64, or decodes to fewer bytes than a
    master key has, [masterKeyToBytes] panics, and [decryptGroup],
    [groupIdentifierFromMasterKey], [decryptGroupAvatar] and
    [groupMetadataForDataMessage] panic with the same value whatever their
    other arguments are; so does [fetchGroupByID] when the store holds such
    a (non-empty) key, before any request is sent. *)
Theorem master_key_panics `{Collaborators}
    (eg : signalpb.Group) (enc : list byte) (g : Group) (mk : string) :
  base64.DecodeString mk = None
  \/ (exists decoded, base64.DecodeString mk = Some decoded
                      /\ (length decoded < GROUP_MASTER_KEY_LEN)%nat) ->
  exists p,
    masterKeyToBytes GROUP_MASTER_KEY_LEN mk = Panic p
    /\ decryptGroup eg mk = Panic p
    /\ groupIdentifierFromMasterKey mk = Panic p
    /\ decryptGroupAvatar enc mk = Panic p
    /\ (groupMasterKey g = mk -> groupMetadataForDataMessage g = Panic p)
    /\ (forall gid s,
          (MasterKeyFromGroupIdentifier gid (world s)).1 = inl mk -> mk <> "" ->
          (fetchGroupByID gid s).1 = Panic p
          /\ trace (fetchGroupByID gid s).2 = trace s ++ [CallFetchGroupByID gid]
          /\ cli (fetchGroupByID gid s).2 = cli s).
Proof.
  intros Hbad.
  assert (Hkey : exists p, masterKeyToBytes GROUP_MASTER_KEY_LEN mk = Panic p).
  { unfold masterKeyToBytes, slice_to_array.
    destruct Hbad as [-> | (decoded & -> & Hlen)]; [eauto |].
    apply Nat.ltb_lt in Hlen. rewrite Hlen. eauto. }
  destruct Hkey as (p & Hkey). exists p.
  split; [exact Hkey |].
  split; [unfold decryptGroup; rewrite Hkey; reflexivity |].
  split; [unfold groupIdentifierFromMasterKey; rewrite Hkey; reflexivity |].
  split; [unfold decryptGroupAvatar; rewrite Hkey; reflexivity |].
  split; [intros Hg; unfold groupMetadataForDataMessage; rewrite Hg, Hkey; reflexivity |].
  intros gid s Hstore Hne.
  assert (Hrun : fetchGroupByID gid s
                 = (Panic p,
                    {| cli := cli s;
                       world := (MasterKeyFromGroupIdentifier gid (world s)).2;
                       trace := trace s ++ [CallFetchGroupByID gid] |})).
  { unfold fetchGroupByID. rewrite bindM_emit.
    unfold bindM at 1, wrappingM, external at 1. cbn [world cli trace].
    destruct (MasterKeyFromGroupIdentifier gid (world s)) as [looked w].
    cbn [fst] in Hstore. subst looked. cbn [call wrapping fst snd].
    apply String.eqb_neq in Hne. rewrite Hne.
    unfold bindM at 1, lift at 1. rewrite Hkey. reflexivity. }
  rewrite Hrun. cbn [fst snd cli trace]. auto.
Qed.

Lemma master_key_panics_witness :
  exists p,
    @decryptGroup Sample.collaborators (Sample.groupRecord 4 []) "AAAA" = Panic p
    /\ @groupIdentifierFromMasterKey Sample.collaborators "AAAA" = Panic p.
Proof.
  destruct (@master_key_panics Sample.collaborators (Sample.groupRecord 4 []) []
              Sample.fetchedGroup "AAAA") as (p & _ & Hg & Hid & _).
  - right. exists [Byte.x00; Byte.x00; Byte.x00]. split; [reflexivity |].
    vm_compute. lia.
  - exists p. split; [exact Hg | exact Hid].
Defined.

(** X9: the members are decrypted in order and the first entry that does
    not decrypt decides the outcome: when the entries before it decrypt (or
    are nil) and the steps before the member loop succeed, [decryptGroup]
    returns the error of that entry, as it is. *)
Theorem decryptGroup_first_failing_member `{Collaborators}
    (eg : signalpb.Group) (mk : string) (key : list byte) (gsp : GroupSecretParams)
    (oks rest : list (option signalpb.Member)) (e : signalpb.Member) (err : error) :
  masterKeyToBytes GROUP_MASTER_KEY_LEN mk = Ok key ->
  DeriveGroupSecretParamsFromMasterKey key = inl gsp ->
  is_Ok (groupIdentifierFromMasterKey mk) = true ->
  is_Ok (decryptGroupPropertyIntoBlob gsp (signalpb.Title eg)) = true ->
  is_Ok (decryptTimer gsp (signalpb.DisappearingMessagesTimer eg)) = true ->
  signalpb.Members eg = oks ++ Some e :: rest ->
  Forall (fun o => forall m, o = Some m -> exists g, decryptMember gsp m = Ok g) oks ->
  decryptMember gsp e = Err err ->
  decryptGroup eg mk = Err err.
Proof.
  intros Hkey Hgsp Hgid Htitle Htimer Hms Hoks Herr.
  rewrite (decryptGroup_run eg mk key gsp Hkey Hgsp).
  destruct (groupIdentifierFromMasterKey mk) as [gid | |]; try discriminate.
  destruct (decryptGroupPropertyIntoBlob gsp (signalpb.Title eg)) as [tb | |];
    try discriminate.
  destruct (decryptDescription_Ok gsp (signalpb.Description eg)) as (d & -> & _).
  destruct (decryptTimer gsp (signalpb.DisappearingMessagesTimer eg)) as [t | |];
    try discriminate.
  cbn [bindR]. rewrite Hms.
  rewrite (decryptMembers_prefix gsp oks e rest [] err Hoks Herr). reflexivity.
Qed.

Lemma decryptGroup_first_failing_member_witness :
  @decryptGroup Sample.collaborators
    (Sample.groupRecord 4 [Some (Sample.member Byte.x07 1); None;
                           Some Sample.brokenMember;
                           Some (Sample.member Byte.x08 1)])
    Sample.serializedKey
  = Err (errorString "invalid uuid ciphertext").
Proof.
  apply (@decryptGroup_first_failing_member Sample.collaborators
           _ Sample.serializedKey Sample.key Sample.key
           [Some (Sample.member Byte.x07 1); None]
           [Some (Sample.member Byte.x08 1)] Sample.brokenMember);
    try reflexivity.
  repeat constructor; intros m [= <-]; eexists; reflexivity.
Defined.

(** X10: for the master key of a group that [decryptGroup] returned,
    [decryptGroupAvatar] neither panics nor fails deriving the secret
    parameters: it returns the avatar bytes of the decrypted blob, the empty
    byte string without an error when the blob carries no avatar, and the
    blob's own error when the blob cannot be decrypted or parsed. *)
Theorem decryptGroupAvatar_of_decrypted_group `{Collaborators}
    (eg : signalpb.Group) (mk : string) (g : Group) (enc : list byte) :
  decryptGroup eg mk = Ok g ->
  exists key gsp,
    masterKeyToBytes GROUP_MASTER_KEY_LEN mk = Ok key
    /\ DeriveGroupSecretParamsFromMasterKey key = inl gsp
    /\ (forall b, decryptGroupPropertyIntoBlob gsp enc = Ok b ->
          decryptGroupAvatar enc (groupMasterKey g) = Ok (signalpb.GetAvatar b))
    /\ (forall b, decryptGroupPropertyIntoBlob gsp enc = Ok b ->
          (forall a, b <> signalpb.ContentAvatar a) ->
          decryptGroupAvatar enc (groupMasterKey g) = Ok [])
    /\ (forall e, decryptGroupPropertyIntoBlob gsp enc = Err e ->
          decryptGroupAvatar enc (groupMasterKey g) = Err e).
Proof.
  intros Hg.
  destruct (decryptGroup_Ok_inv eg mk g Hg)
    as (key & gsp & gid & tb & d & t & ms & Hkey & Hgsp & _ & _ & _ & _ & _ & ->).
  exists key, gsp. split; [exact Hkey |]. split; [exact Hgsp |].
  cbn [groupMasterKey]. unfold decryptGroupAvatar.
  rewrite Hkey. cbn [bindR]. rewrite Hgsp. cbn [call wrapping bindR].
  split; [| split].
  - intros b ->. reflexivity.
  - intros b -> Hb. cbn. destruct b; try reflexivity.
    destruct (Hb avatar eq_refl).
  - intros e ->. reflexivity.
Qed.

Lemma decryptGroupAvatar_of_decrypted_group_witness :
  @decryptGroupAvatar Sample.collaborators [Byte.x01; Byte.x54] Sample.serializedKey
  = Ok [].
Proof.
  destruct (@decryptGroupAvatar_of_decrypted_group Sample.collaborators
              (Sample.groupRecord 4 []) Sample.serializedKey
              {| groupMasterKey := Sample.serializedKey;
                 GroupIdentifier := base64.EncodeToString Sample.key;
                 Title := "Team"; AvatarPath := "groups/avatar"; Members := [];
                 Description := ""; AnnouncementsOnly := false; Revision := 4;
                 DisappearingMessagesDuration := 0 |}
              [Byte.x01; Byte.x54] eq_refl)
    as (key & gsp & Hkey & Hgsp & _ & Hnone & _).
  vm_compute in Hkey. injection Hkey as <-.
  vm_compute in Hgsp. injection Hgsp as <-.
  apply (Hnone (signalpb.ContentTitle "T")); [reflexivity | discriminate].
Defined.

(** X11: for a group that [decryptGroup] returned,
    [groupMetadataForDataMessage] does not panic: it returns the master key
    bytes [decryptGroup] worked with, of the array length, and the revision
    of the record. *)
Theorem groupMetadataForDataMessage_of_decrypted_group `{Collaborators}
    (eg : signalpb.Group) (mk : string) (g : Group) :
  decryptGroup eg mk = Ok g ->
  exists key,
    masterKeyToBytes GROUP_MASTER_KEY_LEN mk = Ok key
    /\ length key = GROUP_MASTER_KEY_LEN
    /\ groupMetadataForDataMessage g
       = Ok {| groupcontext.MasterKey := key;
               groupcontext.Revision := Some (signalpb.Revision eg) |}.
Proof.
  intros Hg.
  destruct (decryptGroup_Ok_inv eg mk g Hg)
    as (key & gsp & gid & tb & d & t & ms & Hkey & _ & _ & _ & _ & _ & _ & ->).
  exists key. split; [exact Hkey |].
  split.
  - destruct (masterKeyToBytes_cases GROUP_MASTER_KEY_LEN mk)
      as [(key' & Hkey' & Hlen) | (p & Hp)]; congruence.
  - unfold groupMetadataForDataMessage. cbn [groupMasterKey Revision].
    rewrite Hkey. reflexivity.
Qed.

Lemma groupMetadataForDataMessage_of_decrypted_group_witness :
  exists key,
    masterKeyToBytes 32 Sample.serializedKey = Ok key
    /\ length key = 32%nat
    /\ @groupMetadataForDataMessage Sample.collaborators Sample.fetchedGroup
       = Ok {| groupcontext.MasterKey := key; groupcontext.Revision := Some 4 |}.
Proof.
  apply (@groupMetadataForDataMessage_of_decrypted_group Sample.collaborators
           (Sample.groupRecord 4 [Some (Sample.member Byte.x07 1)])
           Sample.serializedKey Sample.fetchedGroup).
  vm_compute. reflexivity.
Defined.

(** ** Stateful operations: their effect on the client and on the trace *)
Section Effects.
Context `{Collaborators}.

Lemma silent_ret {A} (a : A) : silent (ret a).
Proof. intros s. split; reflexivity. Qed.

Lemma silent_fail {A} (e : error) : silent (@fail _ A e).
Proof. intros s. split; reflexivity. Qed.

Lemma silent_lift {A} (r : result A) : silent (lift r).
Proof. intros s. split; reflexivity. Qed.

Lemma silent_getCli : silent getCli.
Proof. intros s. split; reflexivity. Qed.

Lemma silent_external {A} (op : World -> returns A * World) : silent (external op).
Proof. intros s. unfold external. destruct (op (world s)). split; reflexivity. Qed.

Lemma silent_bindM {A B} (m : M A) (k : A -> M B) :
  silent m -> (forall a, silent (k a)) -> silent (bindM m k).
Proof.
  intros Hm Hk s. unfold bindM. specialize (Hm s).
  destruct (m s) as [[a | e | p] s1]; cbn [snd] in *; try exact Hm.
  destruct (Hk a s1) as (Hc & Ht). destruct Hm as (Hc1 & Ht1).
  split; congruence.
Qed.

Lemma silent_wrappingM {A} (msg : string) (m : M A) :
  silent m -> silent (wrappingM msg m).
Proof.
  intros Hm s. unfold wrappingM. specialize (Hm s).
  destruct (m s) as [r s1]. exact Hm.
Qed.

Ltac silent_step :=
  first
    [ apply silent_ret | apply silent_fail | apply silent_lift | apply silent_getCli
    | apply silent_external
    | apply silent_wrappingM
    | apply silent_bindM; [| intros ?]
    | match goal with
      | |- silent (if ?b then _ else _) => destruct b
      | |- silent (match ?x with _ => _ end) => destruct x
      end ].

Lemma silent_presentCredential (cred : GroupCredential) (mk : list byte) :
  silent (presentCredential cred mk).
Proof. unfold presentCredential. repeat silent_step. Qed.

Lemma silent_storeProfileKeys (members : list GroupMember) :
  silent (storeProfileKeys members).
Proof.
  induction members as [| m ms IH]; cbn [storeProfileKeys]; repeat silent_step.
  exact IH.
Qed.

(** A bind whose first operation is silent. *)
Lemma bindM_silent {A B} (m : M A) (k : A -> M B) (s : State) :
  silent m ->
  exists r s1,
    m s = (r, s1) /\ cli s1 = cli s /\ trace s1 = trace s
    /\ bindM m k s = match r with
                     | Ok a => k a s1
                     | Err e => (Err e, s1)
                     | Panic p => (Panic p, s1)
                     end.
Proof.
  intros Hm. destruct (Hm s) as (Hc & Ht). unfold bindM.
  destruct (m s) as [r s1]. exists r, s1. cbn in Hc, Ht.
  split; [reflexivity |]. split; [exact Hc |]. split; [exact Ht |].
  destruct r; reflexivity.
Qed.

(** What [todaysCredential] leaves behind: either nothing but a clock
    reading, or one credential request; the cached bundle changes only to a
    bundle received for the stored PNI; a credential it returns is an entry
    for today of the bundle then cached. *)
Lemma todaysCredential_effect (s : State) :
  let today := time.Truncate (clockTime s) (24 * time.Hour) in
  let r := todaysCredential s in
  (trace r.2 = trace s \/ trace r.2 = trace s ++ credentialEvents today)
  /\ (cli r.2 = cli s
      \/ exists creds, cli r.2 = set_GroupCredentials (Some creds) (cli s)
                       /\ PNI creds = Store_PNI (cli s)
                       /\ trace r.2 = trace s ++ credentialEvents today)
  /\ (trace r.2 = trace s -> cli r.2 = cli s)
  /\ (forall day found, r.1 = Ok (day, found) ->
        day = today /\ found = getCachedAuthorizationForToday (cli r.2) today)
  /\ (forall cred, getCachedAuthorizationForToday (cli s) today = Some cred ->
        trace r.2 = trace s /\ r.1 = Ok (today, Some cred)).
Proof.
  cbv zeta. rewrite todaysCredential_run. cbv zeta.
  destruct (getCachedAuthorizationForToday (cli s)
              (time.Truncate (clockTime s) (24 * time.Hour))) as [cred |] eqn:Hhit.
  - cbn [fst snd cli trace afterClock].
    split; [auto |]. split; [auto |]. split; [auto |]. split.
    + intros day found [= <- <-]. auto.
    + intros cred' [= <-]. auto.
  - rewrite fetchNewGroupCreds_run. cbv zeta. cbn [fst snd].
    fold (credentialEvents (time.Truncate (clockTime s) (24 * time.Hour))).
    set (today := time.Truncate (clockTime s) (24 * time.Hour)).
    set (sent := AuthedWS_SendRequest (groupCredsRequest today) (world (afterClock s))).
    assert (Hne : trace s ++ credentialEvents today <> trace s).
    { intros Heq. apply (f_equal length) in Heq. rewrite length_app in Heq.
      cbn in Heq. lia. }
    destruct sent.1 as [resp | e]; cbn [fst snd cli trace afterClock withCli].
    2: { split; [auto |]. split; [auto |]. split; [intros; reflexivity |].
         split; [discriminate | discriminate]. }
    destruct (signalpb.Status resp) as [st |]; cbn [fst snd cli trace afterClock withCli].
    2: { split; [auto |]. split; [auto |]. split; [intros; reflexivity |].
         split; [discriminate | discriminate]. }
    destruct (negb (st =? 200)); cbn [fst snd cli trace afterClock withCli].
    { split; [auto |]. split; [auto |]. split; [intros; reflexivity |].
      split; [discriminate | discriminate]. }
    destruct (json_Unmarshal_GroupCredentials (signalpb.Body resp)) as [creds | e];
      cbn [fst snd cli trace afterClock withCli].
    2: { split; [auto |]. split; [auto |]. split; [intros; reflexivity |].
         split; [discriminate | discriminate]. }
    destruct (bool_decide (PNI creds = Store_PNI (cli s))) eqn:Hpni;
      cbn [negb fst snd cli trace afterClock withCli].
    2: { split; [auto |]. split; [auto |]. split; [intros; reflexivity |].
         split; [discriminate | discriminate]. }
    apply bool_decide_eq_true_1 in Hpni.
    split; [auto |]. split; [right; exists creds; auto |].
    split; [intros Heq; destruct (Hne Heq) |].
    split; [| discriminate].
    intros day found [= <- <-]. split; reflexivity.
Qed.

Lemma GetAuthorizationForToday_state (mk : list byte) (s : State) :
  cli (GetAuthorizationForToday mk s).2 = cli (todaysCredential s).2
  /\ trace (GetAuthorizationForToday mk s).2 = trace (todaysCredential s).2.
Proof.
  rewrite GetAuthorizationForToday_run.
  destruct (todaysCredential s) as [[[today [cred |]] | e | p] s1];
    cbn [snd]; try (split; reflexivity).
  apply silent_presentCredential.
Qed.

(** What one run of [fetchGroupByID] leaves behind. *)
Lemma fetchGroupByID_effect (gid : string) (s : State) :
  let r := fetchGroupByID gid s in
  exists credEvs httpEvs,
    trace r.2 = trace s ++ [CallFetchGroupByID gid] ++ credEvs ++ httpEvs
    /\ (credEvs = [] \/ exists today, credEvs = credentialEvents today)
    /\ (httpEvs = [] \/ exists auth, httpEvs = [groupRequestEvent auth])
    /\ (cli r.2 = cli s
        \/ exists creds, cli r.2 = set_GroupCredentials (Some creds) (cli s)
                         /\ PNI creds = Store_PNI (cli s))
    /\ (forall g, r.1 = Ok g -> httpEvs <> []).
Proof.
  cbv zeta. remember (fetchGroupByID gid s) as r eqn:Hr.
  unfold fetchGroupByID in Hr. rewrite bindM_emit in Hr.
  set (s0 := {| cli := cli s; world := world s;
                trace := trace s ++ [CallFetchGroupByID gid] |}) in Hr.
  match type of Hr with
  | context [bindM ?m ?k s0] =>
      destruct (bindM_silent m k s0) as (r1 & s1 & _ & Hc1 & Ht1 & Hrun);
        [apply silent_wrappingM, silent_external |]
  end.
  rewrite Hrun in Hr. clear Hrun. cbn [cli trace s0] in Hc1, Ht1. clear s0.
  assert (Hquit : forall (res : result Group) (st : State) (credEvs httpEvs : list Event),
            r = (res, st) ->
            (forall g, res = Ok g -> httpEvs <> []) ->
            trace st = trace s ++ [CallFetchGroupByID gid] ++ credEvs ++ httpEvs ->
            (credEvs = [] \/ exists today, credEvs = credentialEvents today) ->
            (httpEvs = [] \/ exists auth, httpEvs = [groupRequestEvent auth]) ->
            (cli st = cli s
             \/ exists creds, cli st = set_GroupCredentials (Some creds) (cli s)
                              /\ PNI creds = Store_PNI (cli s)) ->
            exists credEvs httpEvs,
              trace r.2 = trace s ++ [CallFetchGroupByID gid] ++ credEvs ++ httpEvs
              /\ (credEvs = [] \/ exists today, credEvs = credentialEvents today)
              /\ (httpEvs = [] \/ exists auth, httpEvs = [groupRequestEvent auth])
              /\ (cli r.2 = cli s
                  \/ exists creds, cli r.2 = set_GroupCredentials (Some creds) (cli s)
                                   /\ PNI creds = Store_PNI (cli s))
              /\ (forall g, r.1 = Ok g -> httpEvs <> [])).
  { intros res st credEvs httpEvs -> Hres Htr Hcred Hhttp Hcli.
    exists credEvs, httpEvs. cbn [fst snd]. auto. }
  destruct r1 as [mk | e | p].
  2,3: apply (Hquit _ s1 [] [] Hr);
    [intros ? ?; discriminate | exact Ht1 | auto | auto | auto].
  destruct (String.eqb mk "").
  { apply (Hquit _ s1 [] [] Hr);
      [intros ? ?; discriminate | exact Ht1 | auto | auto | auto]. }
  match type of Hr with
  | context [bindM ?m ?k s1] =>
      destruct (bindM_silent m k s1) as (r2 & s2 & _ & Hc2 & Ht2 & Hrun);
        [apply silent_lift |]
  end.
  rewrite Hrun in Hr. clear Hrun.
  rewrite Hc1 in Hc2. rewrite Ht1 in Ht2.
  destruct r2 as [key | e | p].
  2,3: apply (Hquit _ s2 [] [] Hr);
    [intros ? ?; discriminate | exact Ht2 | auto | auto | auto].
  unfold bindM at 1 in Hr.
  destruct (GetAuthorizationForToday_state key s2) as (Hc3 & Ht3).
  destruct (todaysCredential_effect s2) as (Htr & Hcli & _).
  cbv zeta in Htr, Hcli. rewrite <- Ht3 in Htr. rewrite <- Hc3 in Hcli.
  rewrite Ht2 in Htr. rewrite Hc2 in Hcli.
  assert (Hcli' : cli (GetAuthorizationForToday key s2).2 = cli s
                  \/ exists creds,
                       cli (GetAuthorizationForToday key s2).2
                       = set_GroupCredentials (Some creds) (cli s)
                       /\ PNI creds = Store_PNI (cli s)).
  { destruct Hcli as [Hsame | (creds & Hset & Hpni & _)];
      [left; exact Hsame | right; exists creds; auto]. }
  assert (Hcreds : exists credEvs,
            trace (GetAuthorizationForToday key s2).2
            = trace s ++ [CallFetchGroupByID gid] ++ credEvs ++ []
            /\ (credEvs = [] \/ exists today, credEvs = credentialEvents today)).
  { destruct Htr as [Hsame | Hreq].
    - exists []. rewrite Hsame. auto.
    - eexists. rewrite Hreq, <- app_assoc, app_nil_r. split; [reflexivity |]. eauto. }
  clear Htr Hcli Hc3 Ht3.
  destruct Hcreds as (credEvs & Ht3 & HcredEvs).
  destruct (GetAuthorizationForToday key s2) as [[auth | e | p] s3];
    cbn [fst snd] in *.
  2,3: apply (Hquit _ s3 credEvs [] Hr);
    [intros ? ?; discriminate | exact Ht3 | exact HcredEvs | auto | exact Hcli'].
  rewrite app_nil_r in Ht3.
  assert (Ht4 : forall w : World,
            trace {| cli := cli s3; world := w;
                     trace := trace s3 ++ [groupRequestEvent auth] |}
            = trace s ++ [CallFetchGroupByID gid] ++ credEvs ++ [groupRequestEvent auth]).
  { intros w. cbn [trace]. rewrite Ht3, <- !app_assoc. reflexivity. }
  fold (groupRequestEvent auth) in Hr.
  unfold bindM at 1 in Hr. rewrite bindM_emit in Hr. unfold external at 1 in Hr.
  destruct (SendHTTPRequest _ _ _ _) as [[[status body] | e] w4];
    cbn [call fst snd] in Hr.
  2: { apply (Hquit _ _ credEvs [groupRequestEvent auth] Hr);
         [intros ? ?; discriminate | apply Ht4 | exact HcredEvs | eauto | exact Hcli']. }
  destruct (negb (status =? 200)).
  { apply (Hquit _ _ credEvs [groupRequestEvent auth] Hr);
      [intros ? ?; discriminate | apply Ht4 | exact HcredEvs | eauto | exact Hcli']. }
  match type of Hr with
  | context [bindM ?m ?k ?st] =>
      assert (Hrest : silent (bindM m k));
        [| destruct (Hrest st) as (Hc5 & Ht5) ]
  end.
  { repeat silent_step. apply silent_storeProfileKeys. }
  rewrite <- Hr in Hc5, Ht5. cbn [cli] in Hc5. rewrite Ht4 in Ht5.
  exists credEvs, [groupRequestEvent auth].
  rewrite Ht5, Hc5.
  split; [reflexivity |]. split; [exact HcredEvs |]. split; [eauto |].
  split; [exact Hcli' |]. discriminate.
Qed.

End Effects.

(** C4: [GetAuthorizationForToday] takes the start of the current day and
    looks the cached bundle up by exact match of an entry's redemption time
    with it.  A cached entry for today is used as it is: no request is sent
    and the client is left alone.  When there is none, exactly one request
    is sent, for the credentials of the seven days from today; the bundle
    the reply to this request carries replaces the cached one and is
    searched by the same exact match; when it has no entry for today
    either, the call fails with an error.  When the request brings no
    bundle, the call fails and the cached bundle stays. *)
Theorem GetAuthorizationForToday_daily_credential `{Collaborators}
    (mk : list byte) (s : State) :
  let t := clockTime s in
  let today := time.Truncate t (24 * time.Hour) in
  let res := GetAuthorizationForToday mk s in
  let request := groupCredsRequest today in
  let sent := AuthedWS_SendRequest request (world (afterClock s)) in
  (today <= t < today + 24 * time.Hour
   /\ time.Unix today = t / (24 * time.Hour) * 86400
   /\ web.Path request =
        "/v1/certificate/auth/group?redemptionStartSeconds="
        +:+ pretty (time.Unix today)
        +:+ "&redemptionEndSeconds=" +:+ pretty (time.Unix today + 7 * 86400))
  /\ (forall c cred,
        getCachedAuthorizationForToday c today = Some cred ->
        exists creds, cli_GroupCredentials c = Some creds
                      /\ cred ∈ Credentials creds
                      /\ RedemptionTime cred = time.Unix today)
  /\ (forall c,
        getCachedAuthorizationForToday c today = None <->
        cli_GroupCredentials c = None
        \/ exists creds, cli_GroupCredentials c = Some creds
             /\ Forall (fun cred => RedemptionTime cred <> time.Unix today)
                       (Credentials creds))
  /\ (forall cred,
        getCachedAuthorizationForToday (cli s) today = Some cred ->
        res = presentCredential cred mk (afterClock s)
        /\ trace res.2 = trace s
        /\ cli res.2 = cli s)
  /\ (getCachedAuthorizationForToday (cli s) today = None ->
      let f := fetchNewGroupCreds today (afterClock s) in
      trace res.2 = trace s ++ [CallFetchNewGroupCreds today; WSRequestSent request]
      /\ credentialRequests (trace res.2) = S (credentialRequests (trace s))
      /\ (forall creds,
            f.1 = Ok creds <->
            exists resp,
              sent.1 = inl resp
              /\ signalpb.Status resp = Some 200
              /\ json_Unmarshal_GroupCredentials (signalpb.Body resp) = inl creds
              /\ PNI creds = Store_PNI (cli s))
      /\ (forall creds, f.1 = Ok creds ->
            cli_GroupCredentials (cli res.2) = Some creds
            /\ (forall cred,
                  credentialFor (time.Unix today) (Credentials creds) = Some cred ->
                  res = presentCredential cred mk
                          (withCli (set_GroupCredentials (Some creds)) f.2))
            /\ (credentialFor (time.Unix today) (Credentials creds) = None ->
                res.1 = Err (errorString "couldn't get credential for today")))
      /\ (forall e, f.1 = Err e ->
            res.1 = Err (wrapError "fetchNewGroupCreds error" e)
            /\ cli res.2 = cli s)).
Proof.
  cbv zeta.
  destruct (Truncate_day (clockTime s)) as (Hday & Hunix & Hweek).
  split; [| split; [| split; [| split]]].
  - split; [exact Hday |]. split; [exact Hunix |].
    unfold groupCredsRequest, web.CreateWSRequest. cbn [web.Path].
    rewrite Hweek. reflexivity.
  - intros c cred. unfold getCachedAuthorizationForToday.
    destruct (cli_GroupCredentials c) as [creds |]; [| discriminate].
    intros Hfound. exists creds. split; [reflexivity |].
    destruct (credentialFor_Some _ _ _ Hfound) as (before & after & Hsplit & Hd & _).
    split; [| exact Hd]. rewrite Hsplit. apply elem_of_app. right.
    apply list_elem_of_here.
  - intros c. unfold getCachedAuthorizationForToday.
    destruct (cli_GroupCredentials c) as [creds |].
    + rewrite credentialFor_None. split.
      * intros Hall. right. exists creds. auto.
      * intros [Hnone | (creds' & [= <-] & Hall)]; [discriminate | exact Hall].
    + split; auto.
  - intros cred Hhit.
    assert (Hres : GetAuthorizationForToday mk s
                   = presentCredential cred mk (afterClock s)).
    { rewrite GetAuthorizationForToday_run, todaysCredential_run.
      cbv zeta. rewrite Hhit. reflexivity. }
    split; [exact Hres |]. rewrite Hres.
    destruct (silent_presentCredential cred mk (afterClock s)) as (Hc & Ht).
    split; [exact Ht | exact Hc].
  - intros Hmiss.
    destruct (GetAuthorizationForToday_state mk s) as (Hcli & Htr).
    assert (Hrun := GetAuthorizationForToday_run mk s).
    assert (Htc := todaysCredential_run s). cbv zeta in Htc. rewrite Hmiss in Htc.
    assert (Hf := fetchNewGroupCreds_run
                    (time.Truncate (clockTime s) (24 * time.Hour)) (afterClock s)).
    cbv zeta in Hf.
    assert (Hfcli : cli (fetchNewGroupCreds
                           (time.Truncate (clockTime s) (24 * time.Hour))
                           (afterClock s)).2 = cli s)
      by (rewrite Hf; reflexivity).
    assert (Hftr : trace (fetchNewGroupCreds
                            (time.Truncate (clockTime s) (24 * time.Hour))
                            (afterClock s)).2
                   = trace s
                     ++ [CallFetchNewGroupCreds
                           (time.Truncate (clockTime s) (24 * time.Hour));
                         WSRequestSent
                           (groupCredsRequest
                              (time.Truncate (clockTime s) (24 * time.Hour)))])
      by (rewrite Hf; reflexivity).
    assert (Htrace : trace (todaysCredential s).2
                     = trace (fetchNewGroupCreds
                                (time.Truncate (clockTime s) (24 * time.Hour))
                                (afterClock s)).2).
    { rewrite Htc.
      destruct ((fetchNewGroupCreds
                   (time.Truncate (clockTime s) (24 * time.Hour))
                   (afterClock s)).1); reflexivity. }
    split; [rewrite Htr, Htrace; exact Hftr |].
    split.
    { rewrite Htr, Htrace, Hftr, credentialRequests_app.
      assert (Hone : credentialRequests
                       [CallFetchNewGroupCreds
                          (time.Truncate (clockTime s) (24 * time.Hour));
                        WSRequestSent
                          (groupCredsRequest
                             (time.Truncate (clockTime s) (24 * time.Hour)))]
                     = 1%nat) by reflexivity.
      rewrite Hone. lia. }
    split.
    { intros creds. rewrite Hf. cbn [fst afterClock cli].
      destruct ((AuthedWS_SendRequest
                   (groupCredsRequest (time.Truncate (clockTime s) (24 * time.Hour)))
                   (world (afterClock s))).1) as [resp | e].
      2: { split; [discriminate | intros (resp & [=] & _)]. }
      destruct (signalpb.Status resp) as [st |] eqn:Hst.
      2: { split; [discriminate |].
           intros (resp' & [= <-] & Hst' & _). congruence. }
      destruct (st =? 200) eqn:H200; cbn [negb].
      2: { split; [discriminate |].
           intros (resp' & [= <-] & Hst' & _).
           rewrite Hst in Hst'. injection Hst' as ->. discriminate. }
      apply Z.eqb_eq in H200. subst st.
      destruct (json_Unmarshal_GroupCredentials (signalpb.Body resp))
        as [parsed | e] eqn:Hparse.
      2: { split; [discriminate |].
           intros (resp' & [= <-] & _ & Hparse' & _). congruence. }
      destruct (bool_decide (PNI parsed = Store_PNI (cli s))) eqn:Hpni; cbn [negb].
      - apply bool_decide_eq_true_1 in Hpni. split.
        + intros [= <-]. exists resp. auto.
        + intros (resp' & [= <-] & _ & Hparse' & _). congruence.
      - apply bool_decide_eq_false_1 in Hpni. split; [discriminate |].
        intros (resp' & [= <-] & _ & Hparse' & Hpni').
        rewrite Hparse in Hparse'. injection Hparse' as <-. contradiction. }
    split.
    { intros creds Hfok. rewrite Hrun, Htc, Hfok.
      destruct (credentialFor _ (Credentials creds)) as [cred |] eqn:Hcred.
      + split; [| split].
        * rewrite readOnly_presentCredential. reflexivity.
        * intros cred' [= <-]. reflexivity.
        * discriminate.
      + split; [| split].
        * reflexivity.
        * discriminate.
        * reflexivity. }
    intros e Hferr. rewrite Hrun, Htc, Hferr. cbn [fst snd].
    split; [reflexivity | exact Hfcli].
Qed.

Lemma GetAuthorizationForToday_daily_credential_witness :
  let s := Sample.stateOf Sample.freshClient Sample.world0 in
  let res := @GetAuthorizationForToday Sample.collaborators Sample.key s in
  trace res.2
  = [CallFetchNewGroupCreds (3 * 86400 * 1000000000);
     WSRequestSent
       {| web.Verb := "GET";
          web.Path := "/v1/certificate/auth/group?redemptionStartSeconds=259200&redemptionEndSeconds=864000" |}]
  /\ cli_GroupCredentials (cli res.2)
     = Some {| Credentials := [ {| Credential := [Byte.x03]; RedemptionTime := 259200 |};
                                {| Credential := [Byte.x04]; RedemptionTime := 345600 |} ];
               PNI := Sample.pni |}.
Proof.
  cbv zeta.
  destruct (@GetAuthorizationForToday_daily_credential Sample.collaborators
              Sample.key (Sample.stateOf Sample.freshClient Sample.world0))
    as (_ & _ & _ & _ & Hmiss).
  destruct (Hmiss eq_refl) as (Htrace & _ & _ & Hok & _).
  destruct (Hok _ eq_refl) as (Hcached & _).
  split; [| exact Hcached].
  rewrite Htrace. vm_compute. reflexivity.
Defined.

Lemma httpRequests_app (a b : list Event) :
  httpRequests (a ++ b) = (httpRequests a + httpRequests b)%nat.
Proof. unfold httpRequests. rewrite filter_app, length_app. reflexivity. Qed.

(** X12: one run of [fetchGroupByID] sends at most one credential request
    and at most one request for the group record, the credential request
    first; a group is returned only after the group request was sent.  The
    run changes nothing in the client but, possibly, the cached credential
    bundle. *)
Theorem fetchGroupByID_requests `{Collaborators} (gid : string) (s : State) :
  let r := fetchGroupByID gid s in
  (exists credEvs httpEvs,
     trace r.2 = trace s ++ [CallFetchGroupByID gid] ++ credEvs ++ httpEvs
     /\ (credEvs = [] \/ exists today, credEvs = credentialEvents today)
     /\ (httpEvs = [] \/ exists auth, httpEvs = [groupRequestEvent auth]))
  /\ (credentialRequests (trace s) <= credentialRequests (trace r.2)
      <= S (credentialRequests (trace s)))%nat
  /\ (httpRequests (trace s) <= httpRequests (trace r.2)
      <= S (httpRequests (trace s)))%nat
  /\ (forall g, r.1 = Ok g -> httpRequests (trace r.2) = S (httpRequests (trace s)))
  /\ Store_ACI (cli r.2) = Store_ACI (cli s)
  /\ Store_PNI (cli r.2) = Store_PNI (cli s)
  /\ cli_GroupCache (cli r.2) = cli_GroupCache (cli s).
Proof.
  cbv zeta.
  destruct (fetchGroupByID_effect gid s)
    as (credEvs & httpEvs & Htr & Hcred & Hhttp & Hcli & Hok).
  cbv zeta in Htr, Hcli, Hok.
  assert (Hc : (credentialRequests credEvs <= 1)%nat
               /\ httpRequests credEvs = 0%nat).
  { destruct Hcred as [-> | (today & ->)].
    - split; [apply Nat.le_0_l | reflexivity].
    - replace (credentialRequests (credentialEvents today)) with 1%nat by reflexivity.
      split; [lia | reflexivity]. }
  assert (Hh : credentialRequests httpEvs = 0%nat
               /\ (httpRequests httpEvs <= 1)%nat
               /\ (httpEvs <> [] -> httpRequests httpEvs = 1%nat)).
  { destruct Hhttp as [-> | (auth & ->)].
    - split; [reflexivity |]. split; [apply Nat.le_0_l |].
      intros Hne. contradiction.
    - replace (httpRequests [groupRequestEvent auth]) with 1%nat by reflexivity.
      split; [reflexivity |]. split; [lia | reflexivity]. }
  destruct Hc as (Hc1 & Hc2). destruct Hh as (Hh1 & Hh2 & Hh3).
  split; [exists credEvs, httpEvs; auto |].
  rewrite Htr, !credentialRequests_app, !httpRequests_app.
  replace (credentialRequests [CallFetchGroupByID gid]) with 0%nat by reflexivity.
  replace (httpRequests [CallFetchGroupByID gid]) with 0%nat by reflexivity.
  split; [lia |]. split; [lia |].
  split; [intros g Hg; specialize (Hh3 (Hok g Hg)); lia |].
  destruct Hcli as [-> | (creds & -> & _)]; repeat split.
Qed.

(** X13: asking [RetrieveGroupByID] for a group that is not cached and whose
    master key the store does not have (it returns the empty string) fails
    with "No group master key found", without any request being sent and
    with nothing cached. *)
Theorem RetrieveGroupByID_missing_master_key `{Collaborators}
    (gid : string) (rev : Z) (s : State) :
  lastFetched (theCache (cli s)) !! gid = None ->
  (MasterKeyFromGroupIdentifier gid (world s)).1 = inl "" ->
  let r := RetrieveGroupByID gid rev s in
  r.1 = Err (errorString ("No group master key found for group identifier " +:+ gid))
  /\ credentialRequests (trace r.2) = credentialRequests (trace s)
  /\ httpRequests (trace r.2) = httpRequests (trace s)
  /\ cli r.2 = initGroupCache (cli s).
Proof.
  intros Hnone Hstore. cbv zeta.
  rewrite RetrieveGroupByID_run. cbv zeta. rewrite cachedGroup_run.
  cbn [cli withCli]. rewrite theCache_initGroupCache, Hnone. cbn [fst snd].
  unfold fetchGroupByID. rewrite bindM_emit.
  unfold bindM, wrappingM, external. cbn [world withCli cli trace].
  destruct (MasterKeyFromGroupIdentifier gid (world s)) as [looked w].
  cbn [fst] in Hstore. subst looked. cbn [call wrapping fst snd String.eqb fail].
  cbn [cli trace]. rewrite credentialRequests_app, httpRequests_app.
  replace (credentialRequests [CallFetchGroupByID gid]) with 0%nat by reflexivity.
  replace (httpRequests [CallFetchGroupByID gid]) with 0%nat by reflexivity.
  repeat split; lia.
Qed.

Lemma RetrieveGroupByID_missing_master_key_witness :
  let s := Sample.stateOf Sample.freshClient Sample2.worldNoKey in
  let r := @RetrieveGroupByID Sample.collaborators "gid" 0 s in
  r.1 = Err (errorString "No group master key found for group identifier gid")
  /\ credentialRequests (trace r.2) = credentialRequests (trace s)
  /\ httpRequests (trace r.2) = httpRequests (trace s)
  /\ cli r.2 = initGroupCache (cli s).
Proof.
  cbv zeta.
  apply (@RetrieveGroupByID_missing_master_key Sample.collaborators "gid" 0
           (Sample.stateOf Sample.freshClient Sample2.worldNoKey));
    reflexivity.
Defined.

Section FetchMore.
Context `{Collaborators}.

(** A successful [fetchGroupByID], read backwards. *)
Lemma fetchGroupByID_Ok_inv (gid : string) (s s' : State) (g : Group) :
  fetchGroupByID gid s = (Ok g, s') ->
  exists mk key bytes eg,
    (MasterKeyFromGroupIdentifier gid (world s)).1 = inl mk
    /\ mk <> ""
    /\ masterKeyToBytes GROUP_MASTER_KEY_LEN mk = Ok key
    /\ proto_Unmarshal_Group bytes = inl eg
    /\ decryptGroup eg mk = Ok g.
Proof.
  intros Hr. unfold fetchGroupByID in Hr. rewrite bindM_emit in Hr.
  unfold bindM at 1, wrappingM, external at 1 in Hr. cbn [world] in Hr.
  destruct (MasterKeyFromGroupIdentifier gid (world s)) as [[mk | e] w1];
    cbn [call wrapping fst snd] in Hr; try discriminate.
  destruct (String.eqb mk "") eqn:Hmk; [discriminate |].
  apply String.eqb_neq in Hmk.
  unfold bindM at 1, lift at 1 in Hr.
  destruct (masterKeyToBytes GROUP_MASTER_KEY_LEN mk) as [key | e | p] eqn:Hkey;
    try discriminate.
  unfold bindM at 1 in Hr.
  destruct (GetAuthorizationForToday key _) as [[auth | e | p] s3]; try discriminate.
  unfold bindM at 1 in Hr. rewrite bindM_emit in Hr. unfold external at 1 in Hr.
  destruct (SendHTTPRequest _ _ _ _) as [[[status body] | e] w4];
    cbn [call fst snd] in Hr; try discriminate.
  destruct (negb (status =? 200)); [discriminate |].
  unfold bindM at 1, external at 1 in Hr.
  destruct (io_ReadAll body _) as [[bytes | e] w5]; cbn [call] in Hr;
    try discriminate.
  unfold bindM at 1, lift at 1 in Hr.
  destruct (proto_Unmarshal_Group bytes) as [eg | e] eqn:Heg;
    cbn [call wrapping] in Hr; try discriminate.
  unfold bindM at 1, lift at 1 in Hr.
  destruct (decryptGroup eg mk) as [g' | e | p] eqn:Hg; cbn [wrapping] in Hr;
    try discriminate.
  unfold bindM at 1 in Hr.
  destruct (storeProfileKeys (Members g') _) as [[[] | e | p] s6]; try discriminate.
  unfold ret in Hr. injection Hr as <- <-.
  exists mk, key, bytes, eg. auto.
Qed.

(** The same, with the exchange the record came from: the authorization
    obtained for the key, the request made with it, and the reply read. *)
Lemma fetchGroupByID_Ok_response (gid : string) (s s' : State) (g : Group) :
  fetchGroupByID gid s = (Ok g, s') ->
  exists mk key auth s3 body bytes eg,
    let looked := MasterKeyFromGroupIdentifier gid (world s) in
    let s1 := {| cli := cli s; world := looked.2;
                 trace := trace s ++ [CallFetchGroupByID gid] |} in
    let sent := SendHTTPRequest http.MethodGet "/v1/groups"
                  {| web.Username := Some (Username auth);
                     web.Password := Some (Password auth);
                     web.ContentType := ContentTypeProtobuf;
                     web.Host := StorageHostname |} (world s3) in
    looked.1 = inl mk
    /\ mk <> ""
    /\ masterKeyToBytes GROUP_MASTER_KEY_LEN mk = Ok key
    /\ GetAuthorizationForToday key s1 = (Ok auth, s3)
    /\ sent.1 = inl (200, body)
    /\ (io_ReadAll body sent.2).1 = inl bytes
    /\ proto_Unmarshal_Group bytes = inl eg
    /\ decryptGroup eg mk = Ok g
    /\ trace s' = trace s3 ++ [groupRequestEvent auth]
    /\ cli s' = cli s3.
Proof.
  intros Hr. unfold fetchGroupByID in Hr. rewrite bindM_emit in Hr.
  unfold bindM at 1, wrappingM, external at 1 in Hr. cbn [world cli trace] in Hr.
  destruct (MasterKeyFromGroupIdentifier gid (world s)) as [[mk | e] w1] eqn:Hlook;
    cbn [call wrapping fst snd] in Hr; try discriminate.
  destruct (String.eqb mk "") eqn:Hmk; [discriminate |].
  apply String.eqb_neq in Hmk.
  unfold bindM at 1, lift at 1 in Hr.
  destruct (masterKeyToBytes GROUP_MASTER_KEY_LEN mk) as [key | e | p] eqn:Hkey;
    try discriminate.
  unfold bindM at 1 in Hr.
  destruct (GetAuthorizationForToday key _) as [[auth | e | p] s3] eqn:Hauth;
    try discriminate.
  unfold bindM at 1 in Hr. rewrite bindM_emit in Hr. unfold external at 1 in Hr.
  cbn [world cli trace] in Hr.
  destruct (SendHTTPRequest _ _ _ (world s3)) as [[[status body] | e] w4] eqn:Hsent;
    cbn [call fst snd] in Hr; try discriminate.
  destruct (status =? 200) eqn:H200; cbn [negb] in Hr; [| discriminate].
  apply Z.eqb_eq in H200. subst status.
  unfold bindM at 1, external at 1 in Hr. cbn [world cli trace] in Hr.
  destruct (io_ReadAll body w4) as [[bytes | e] w5] eqn:Hread; cbn [call] in Hr;
    try discriminate.
  unfold bindM at 1, lift at 1 in Hr.
  destruct (proto_Unmarshal_Group bytes) as [eg | e] eqn:Heg;
    cbn [call wrapping] in Hr; try discriminate.
  unfold bindM at 1, lift at 1 in Hr.
  destruct (decryptGroup eg mk) as [g' | e | p] eqn:Hg; cbn [wrapping] in Hr;
    try discriminate.
  destruct (bindM_silent (storeProfileKeys (Members g')) (fun _ => ret g')
              {| cli := cli s3; world := w5;
                 trace := trace s3
                          ++ [HTTPRequestSent http.MethodGet "/v1/groups"
                                {| web.Username := Some (Username auth);
                                   web.Password := Some (Password auth);
                                   web.ContentType := ContentTypeProtobuf;
                                   web.Host := StorageHostname |}] |}
              (silent_storeProfileKeys (Members g')))
    as (r & s6 & _ & Hc6 & Ht6 & Hbind).
  rewrite Hbind in Hr. destruct r as [[] | e | p]; try discriminate.
  unfold ret in Hr. injection Hr as <- <-.
  exists mk, key, auth, s3, body, bytes, eg. cbv zeta.
  cbn [fst snd]. rewrite Hsent. cbn [fst snd]. rewrite Hread. cbn [fst].
  split; [reflexivity |]. split; [exact Hmk |]. split; [exact Hkey |].
  split; [exact Hauth |]. split; [reflexivity |]. split; [reflexivity |].
  split; [exact Heg |]. split; [exact Hg |].
  split; [exact Ht6 | exact Hc6].
Qed.

End FetchMore.

(** X14: a group [fetchGroupByID] returns is the decryption, under the
    non-empty master key the store holds for the identifier asked for, of
    the record parsed from the body of the reply to the group request: the
    request is sent with the authorization obtained for that key, the reply
    has status 200, and its body is read in full.  The group carries that
    master key and the identifier derived from it, and the group request is
    the last thing sent. *)
Theorem fetchGroupByID_returns_decrypted `{Collaborators}
    (gid : string) (s s' : State) (g : Group) :
  fetchGroupByID gid s = (Ok g, s') ->
  exists mk key auth s3 body bytes eg,
    let looked := MasterKeyFromGroupIdentifier gid (world s) in
    let s1 := {| cli := cli s; world := looked.2;
                 trace := trace s ++ [CallFetchGroupByID gid] |} in
    let sent := SendHTTPRequest http.MethodGet "/v1/groups"
                  {| web.Username := Some (Username auth);
                     web.Password := Some (Password auth);
                     web.ContentType := ContentTypeProtobuf;
                     web.Host := StorageHostname |} (world s3) in
    looked.1 = inl mk
    /\ mk <> ""
    /\ masterKeyToBytes GROUP_MASTER_KEY_LEN mk = Ok key
    /\ GetAuthorizationForToday key s1 = (Ok auth, s3)
    /\ sent.1 = inl (200, body)
    /\ (io_ReadAll body sent.2).1 = inl bytes
    /\ proto_Unmarshal_Group bytes = inl eg
    /\ decryptGroup eg mk = Ok g
    /\ groupMasterKey g = mk
    /\ groupIdentifierFromMasterKey mk = Ok (GroupIdentifier g)
    /\ trace s' = trace s3 ++ [groupRequestEvent auth].
Proof.
  intros Hr.
  destruct (fetchGroupByID_Ok_response gid s s' g Hr)
    as (mk & key & auth & s3 & body & bytes & eg & Hall).
  cbv zeta in Hall.
  destruct Hall as (Hstore & Hmk & Hkey & Hauth & Hsent & Hread & Heg & Hg & Htr & _).
  exists mk, key, auth, s3, body, bytes, eg. cbv zeta.
  repeat (split; [assumption |]).
  destruct (decryptGroup_Ok_inv eg mk g Hg)
    as (key' & gsp & gid' & tb & d & t & ms & _ & _ & Hgid & _ & _ & _ & _ & ->).
  cbn. auto.
Qed.

Lemma fetchGroupByID_returns_decrypted_witness :
  exists auth (s3 : @State Sample.collaborators) eg,
    @GetAuthorizationForToday Sample.collaborators Sample.key
      (@Build_State Sample.collaborators Sample.freshClient Sample.world0
         [CallFetchGroupByID "gid"]) = (Ok auth, s3)
    /\ Sample.httpReply (world s3) = inl (200, [Byte.x04; Byte.x01])
    /\ Sample.parseGroup [Byte.x04; Byte.x01] = inl eg
    /\ @decryptGroup Sample.collaborators eg Sample.serializedKey
       = Ok Sample.fetchedGroup.
Proof.
  destruct (@fetchGroupByID_returns_decrypted Sample.collaborators "gid"
              (Sample.stateOf Sample.freshClient Sample.world0)
              (@fetchGroupByID Sample.collaborators "gid"
                 (Sample.stateOf Sample.freshClient Sample.world0)).2
              Sample.fetchedGroup)
    as (mk & key & auth & s3 & body & bytes & eg & Hall).
  - vm_compute. reflexivity.
  - cbv zeta in Hall.
    destruct Hall as (Hstore & _ & Hkey & Hauth & Hsent & Hread & Heg & Hg & _).
    cbn in Hstore. injection Hstore as <-.
    vm_compute in Hkey. injection Hkey as <-.
    cbn in Hsent. cbn in Hread.
    assert (Hbody : body = [Byte.x04; Byte.x01]).
    { vm_compute in Hauth. injection Hauth as _ <-.
      cbn in Hsent. injection Hsent as <-. reflexivity. }
    subst body. injection Hread as <-.
    exists auth, s3, eg.
    split; [exact Hauth |]. split; [exact Hsent |].
    split; [exact Heg | exact Hg].
Defined.

Section Session.
Context `{Collaborators}.

Lemma sessionKept_refl (c : Client) : sessionKept c c.
Proof. repeat split; auto. Qed.

Lemma sessionKept_trans (c1 c2 c3 : Client) :
  sessionKept c1 c2 -> sessionKept c2 c3 -> sessionKept c1 c3.
Proof.
  intros (Ha & Hp & Hb) (Ha' & Hp' & Hb'). repeat split; try congruence. auto.
Qed.

Lemma sessionKept_set_GroupCache (cache : option GroupCache) (c : Client) :
  sessionKept c (set_GroupCache cache c).
Proof. repeat split. intros Hb creds Hc. apply Hb. exact Hc. Qed.

Lemma sessionKept_initGroupCache (c : Client) : sessionKept c (initGroupCache c).
Proof.
  unfold initGroupCache. destruct (cli_GroupCache c);
    [apply sessionKept_refl | apply sessionKept_set_GroupCache].
Qed.

Lemma sessionKept_bundle (c c' : Client) :
  (c' = c \/ exists creds, c' = set_GroupCredentials (Some creds) c
                           /\ PNI creds = Store_PNI c) ->
  sessionKept c c'.
Proof.
  intros [-> | (creds & -> & Hpni)]; [apply sessionKept_refl |].
  repeat split. intros _ creds' [= <-]. exact Hpni.
Qed.

Lemma sessionKept_GetAuthorizationForToday (mk : list byte) (s : State) :
  sessionKept (cli s) (cli (GetAuthorizationForToday mk s).2).
Proof.
  destruct (GetAuthorizationForToday_state mk s) as (-> & _).
  destruct (todaysCredential_effect s) as (_ & Hcli & _). cbv zeta in Hcli.
  apply sessionKept_bundle.
  destruct Hcli as [Hsame | (creds & Hset & Hpni & _)]; [auto | eauto].
Qed.

Lemma sessionKept_fetchGroupByID (gid : string) (s : State) :
  sessionKept (cli s) (cli (fetchGroupByID gid s).2).
Proof.
  destruct (fetchGroupByID_effect gid s) as (_ & _ & _ & _ & _ & Hcli & _).
  apply sessionKept_bundle. exact Hcli.
Qed.

End Session.

(** X15: the account identifiers of the client are never changed, and the
    cached credential bundle is always one issued for the stored PNI: if
    that holds before [GetAuthorizationForToday], [fetchGroupByID] or
    [RetrieveGroupByID], it holds afterwards, whatever the server
    answered. *)
Theorem session_identity_kept `{Collaborators}
    (gid : string) (rev : Z) (mk : list byte) (s : State) :
  sessionKept (cli s) (cli (GetAuthorizationForToday mk s).2)
  /\ sessionKept (cli s) (cli (fetchGroupByID gid s).2)
  /\ sessionKept (cli s) (cli (RetrieveGroupByID gid rev s).2).
Proof.
  split; [apply sessionKept_GetAuthorizationForToday |].
  split; [apply sessionKept_fetchGroupByID |].
  rewrite RetrieveGroupByID_run. cbv zeta.
  destruct (cachedGroup_spec gid rev (withCli initGroupCache s))
    as (o & Ho & _ & Hcli & _).
  cbn [cli withCli] in Hcli.
  assert (Hc : sessionKept (cli s)
                 (cli (cachedGroup gid rev (withCli initGroupCache s)).2)).
  { rewrite Hcli. apply sessionKept_initGroupCache. }
  rewrite Ho. destruct o as [g |]; [exact Hc |].
  pose proof (sessionKept_fetchGroupByID gid
                (cachedGroup gid rev (withCli initGroupCache s)).2) as Hf.
  pose proof (sessionKept_trans _ _ _ Hc Hf) as Hcf.
  destruct ((fetchGroupByID gid
               (cachedGroup gid rev (withCli initGroupCache s)).2).1)
    as [g | e | p]; cbn [snd]; exact Hcf.
Qed.

Lemma session_identity_kept_witness :
  bundleMatchesPNI
    (cli (@RetrieveGroupByID Sample.collaborators "gid" 0
            (Sample.stateOf Sample.freshClient Sample.world0)).2).
Proof.
  destruct (@session_identity_kept Sample.collaborators "gid" 0 Sample.key
              (Sample.stateOf Sample.freshClient Sample.world0))
    as (_ & _ & _ & _ & Hkept).
  apply Hkept. intros creds Hnone. discriminate Hnone.
Defined.

(** X16: once [GetAuthorizationForToday] has succeeded, a later call on the
    same client whose clock shows the same UTC day sends no request and
    leaves the client as it is: the cached bundle serves it. *)
Theorem GetAuthorizationForToday_same_day_reuse `{Collaborators}
    (mk mk' : list byte) (s s1 s2 : State) (auth : GroupAuth) :
  GetAuthorizationForToday mk s = (Ok auth, s1) ->
  cli s2 = cli s1 ->
  time.Truncate (clockTime s2) (24 * time.Hour)
  = time.Truncate (clockTime s) (24 * time.Hour) ->
  let r := GetAuthorizationForToday mk' s2 in
  trace r.2 = trace s2 /\ cli r.2 = cli s2.
Proof.
  intros Hfirst Hcli Hday. cbv zeta.
  assert (Hcached : exists cred,
            getCachedAuthorizationForToday (cli s1)
              (time.Truncate (clockTime s) (24 * time.Hour)) = Some cred).
  { rewrite GetAuthorizationForToday_run in Hfirst.
    destruct (todaysCredential_effect s) as (_ & _ & _ & Hfound & _).
    cbv zeta in Hfound.
    destruct (todaysCredential s) as [[[day [cred |]] | e | p] s0];
      try discriminate.
    destruct (Hfound day (Some cred) eq_refl) as (_ & Hlook). cbn [snd] in Hlook.
    destruct (silent_presentCredential cred mk s0) as (Hc & _).
    rewrite Hfirst in Hc. cbn [snd] in Hc. rewrite Hc. eauto. }
  destruct Hcached as (cred & Hcached).
  rewrite <- Hcli, <- Hday in Hcached.
  destruct (todaysCredential_effect s2) as (_ & _ & Hsame & _ & Hhit).
  cbv zeta in Hsame, Hhit.
  destruct (Hhit cred Hcached) as (Htr & _).
  destruct (GetAuthorizationForToday_state mk' s2) as (-> & ->).
  split; [exact Htr | exact (Hsame Htr)].
Qed.

Lemma GetAuthorizationForToday_same_day_reuse_witness :
  let s := Sample.stateOf Sample.freshClient Sample.world0 in
  let s1 := (@GetAuthorizationForToday Sample.collaborators Sample.key s).2 in
  let r := @GetAuthorizationForToday Sample.collaborators Sample.key s1 in
  trace r.2 = trace s1 /\ cli r.2 = cli s1.
Proof.
  cbv zeta.
  apply (@GetAuthorizationForToday_same_day_reuse Sample.collaborators
           Sample.key Sample.key
           (Sample.stateOf Sample.freshClient Sample.world0)
           (@GetAuthorizationForToday Sample.collaborators Sample.key
              (Sample.stateOf Sample.freshClient Sample.world0)).2
           (@GetAuthorizationForToday Sample.collaborators Sample.key
              (Sample.stateOf Sample.freshClient Sample.world0)).2
           {| Username := hex.EncodeToString (repeat Byte.x11 32);
              Password := "2a03" |}).
  - vm_compute. reflexivity.
  - reflexivity.
  - vm_compute. reflexivity.
Defined.

Lemma credentialFor_is_Some (day : Z) (creds : list GroupCredential) :
  is_Some (credentialFor day creds)
  <-> exists cred, cred ∈ creds /\ RedemptionTime cred = day.
Proof.
  split.
  - intros (cred & Hfound).
    destruct (credentialFor_Some _ _ _ Hfound) as (before & after & -> & Hday & _).
    exists cred. split; [| exact Hday].
    apply elem_of_app. right. apply list_elem_of_here.
  - intros (cred & Hin & Hday).
    destruct (credentialFor day creds) as [found |] eqn:Hfound; [eauto |].
    apply credentialFor_None in Hfound.
    rewrite Forall_forall in Hfound. destruct (Hfound cred Hin Hday).
Qed.

(** X17: a cached bundle with one credential for each of the seven days
    from day [d0] (and no other) serves every clock reading from the start
    of day [d0] up to, and not including, the start of day [d0 + 7]; any
    other reading finds no credential in it, which makes
    [GetAuthorizationForToday] fetch a new bundle. *)
Theorem week_bundle_day_boundary (c : Client) (creds : GroupCredentials) (d0 t : Z) :
  cli_GroupCredentials c = Some creds ->
  (forall day,
     (exists cred, cred ∈ Credentials creds /\ RedemptionTime cred = day)
     <-> (exists i, 0 <= i < 7 /\ day = (d0 + i) * 86400)) ->
  is_Some (getCachedAuthorizationForToday c (time.Truncate t (24 * time.Hour)))
  <-> d0 * (24 * time.Hour) <= t < (d0 + 7) * (24 * time.Hour).
Proof.
  intros Hc Hweek. unfold getCachedAuthorizationForToday. rewrite Hc.
  rewrite credentialFor_is_Some, Hweek.
  destruct (Truncate_day t) as (_ & -> & _).
  unfold time.Hour, time.Second, time.Nanosecond.
  change (24 * (3600 * (1000000000 * 1))) with 86400000000000.
  split.
  - intros (i & Hi & Hday).
    assert (t / 86400000000000 = d0 + i) by lia.
    Z.div_mod_to_equations. lia.
  - intros Hrange. exists (t / 86400000000000 - d0).
    split; [Z.div_mod_to_equations; lia | lia].
Qed.

Lemma week_bundle_day_boundary_witness :
  is_Some (getCachedAuthorizationForToday
             (set_GroupCredentials (Some Sample2.weekBundle) Sample.freshClient)
             (time.Truncate Sample.dayThree (24 * time.Hour)))
  <-> 3 * (24 * time.Hour) <= Sample.dayThree < (3 + 7) * (24 * time.Hour).
Proof.
  apply (week_bundle_day_boundary
           (set_GroupCredentials (Some Sample2.weekBundle) Sample.freshClient)
           Sample2.weekBundle 3 Sample.dayThree eq_refl).
  intros day. split.
  - intros (cred & Hin & <-). unfold Sample2.weekBundle in Hin.
    cbn [Credentials map] in Hin.
    repeat (apply elem_of_cons in Hin as [-> | Hin];
            [cbn [RedemptionTime]; eexists; split; [| reflexivity]; lia |]).
    apply elem_of_nil in Hin. contradiction.
  - intros (i & Hi & ->).
    exists {| Credential := []; RedemptionTime := (3 + i) * 86400 |}.
    split; [| reflexivity].
    assert (Hcases : i = 0 \/ i = 1 \/ i = 2 \/ i = 3 \/ i = 4 \/ i = 5 \/ i = 6) by lia.
    unfold Sample2.weekBundle. cbn [Credentials map].
    destruct Hcases as [-> | [-> | [-> | [-> | [-> | [-> | ->]]]]]];
      repeat (first [apply list_elem_of_here | apply list_elem_of_further]).
Defined.

(** ** Group metadata cache and active calls *)

(** X18: a group [RetrieveGroupByID] returned is in the cache under the
    identifier asked for, together with a fetch time; a later call for the
    same identifier on the same client returns this group again without
    fetching, provided less than an hour has passed since that fetch time
    and the revision asked for is not above the group's. *)
Theorem RetrieveGroupByID_read_after_fetch `{Collaborators}
    (gid : string) (rev : Z) (s s1 : State) (g : Group) :
  RetrieveGroupByID gid rev s = (Ok g, s1) ->
  exists fetchedAt,
    lastFetched (theCache (cli s1)) !! gid = Some fetchedAt
    /\ groups (theCache (cli s1)) !! gid = Some g
    /\ (forall rev' s2,
          cli s2 = cli s1 ->
          clockTime s2 - fetchedAt < time.Hour ->
          rev' <= Revision g ->
          (RetrieveGroupByID gid rev' s2).1 = Ok g
          /\ trace (RetrieveGroupByID gid rev' s2).2 = trace s2).
Proof.
  intros Hrun.
  assert (Hcached : exists fetchedAt,
            lastFetched (theCache (cli s1)) !! gid = Some fetchedAt
            /\ groups (theCache (cli s1)) !! gid = Some g).
  { destruct (RetrieveGroupByID_cases gid rev s)
      as [(g0 & Hhit & _ & Hres & _ & Hcache) | (_ & _ & Hcache & Hf)];
      cbv zeta in *; rewrite Hrun in *; cbn [fst snd] in *.
    - injection Hres as <-. destruct Hhit as (fetched & Hl & Hg & _).
      rewrite Hcache. eauto.
    - destruct ((fetchGroupByID gid
                   (cachedGroup gid rev (withCli initGroupCache s)).2).1)
        as [g' | e | p]; try discriminate.
      injection Hf as <- ->.
      destruct (storeFetched_cache gid g
                  (fetchGroupByID gid
                     (cachedGroup gid rev (withCli initGroupCache s)).2).2)
        as (Hg & Hl & _).
      rewrite Hg, Hl. eexists. split; apply lookup_insert_eq. }
  destruct Hcached as (fetchedAt & Hl & Hg).
  exists fetchedAt. split; [exact Hl |]. split; [exact Hg |].
  intros rev' s2 Hcli Hfresh Hrev.
  assert (Hhit : cacheHit gid rev' s2 g).
  { exists fetchedAt. rewrite Hcli. auto. }
  destruct (RetrieveGroupByID_cases gid rev' s2)
    as [(g0 & _ & Huniq & Hres & Htr & _) | (Hmiss & _)].
  - rewrite (Huniq g Hhit). auto.
  - destruct (Hmiss g Hhit).
Qed.

Lemma RetrieveGroupByID_read_after_fetch_witness :
  let s := Sample.stateOf Sample.freshClient Sample.world0 in
  let s1 := (@RetrieveGroupByID Sample.collaborators "gid" 0 s).2 in
  (@RetrieveGroupByID Sample.collaborators "gid" 4 s1).1 = Ok Sample.fetchedGroup
  /\ trace (@RetrieveGroupByID Sample.collaborators "gid" 4 s1).2 = trace s1.
Proof.
  cbv zeta.
  destruct (@RetrieveGroupByID_read_after_fetch Sample.collaborators "gid" 0
              (Sample.stateOf Sample.freshClient Sample.world0)
              (@RetrieveGroupByID Sample.collaborators "gid" 0
                 (Sample.stateOf Sample.freshClient Sample.world0)).2
              Sample.fetchedGroup)
    as (fetchedAt & Hl & _ & Hagain).
  - vm_compute. reflexivity.
  - vm_compute in Hl. injection Hl as <-.
    apply Hagain; [reflexivity | vm_compute; reflexivity | vm_compute; discriminate].
Defined.

Section CacheMore.
Context `{Collaborators}.

(** The cache after [RetrieveGroupByID]: as before, or as before with the
    fetched group and a time stored under the identifier. *)
Lemma RetrieveGroupByID_cache (gid : string) (rev : Z) (s : State) :
  let r := RetrieveGroupByID gid rev s in
  theCache (cli r.2) = theCache (cli s)
  \/ exists g t,
       groups (theCache (cli r.2)) = <[gid := g]> (groups (theCache (cli s)))
       /\ lastFetched (theCache (cli r.2)) = <[gid := t]> (lastFetched (theCache (cli s)))
       /\ activeCalls (theCache (cli r.2)) = activeCalls (theCache (cli s)).
Proof.
  cbv zeta.
  destruct (RetrieveGroupByID_cases gid rev s)
    as [(g0 & _ & _ & _ & _ & Hcache) | (_ & _ & Hcache & Hf)]; [auto |].
  cbv zeta in Hcache, Hf.
  destruct ((fetchGroupByID gid
               (cachedGroup gid rev (withCli initGroupCache s)).2).1)
    as [g | e | p]; rewrite Hf; cbn [snd]; auto.
  right.
  destruct (storeFetched_cache gid g
              (fetchGroupByID gid
                 (cachedGroup gid rev (withCli initGroupCache s)).2).2)
    as (Hg & Hl & Ha & _).
  rewrite Hg, Hl, Ha, Hcache. eauto.
Qed.

End CacheMore.

Lemma UpdateActiveCalls_keeps_groups (callGroup callID : string) (c : Client) :
  groups (theCache (UpdateActiveCalls callGroup callID c).2) = groups (theCache c)
  /\ lastFetched (theCache (UpdateActiveCalls callGroup callID c).2)
     = lastFetched (theCache c).
Proof.
  unfold UpdateActiveCalls. cbv zeta. rewrite theCache_initGroupCache.
  destruct (activeCalls (theCache c) !! callGroup) as [cur |];
    [destruct (String.eqb cur callID) |]; cbn; auto.
Qed.

(** X19: the parts of the cache do not interfere.  [RetrieveGroupByID]
    leaves the entries of every other identifier, and all recorded calls,
    as they were; [UpdateActiveCalls] leaves the cached groups, their fetch
    times, the credential bundle and the account identifiers as they
    were. *)
Theorem cache_parts_independent `{Collaborators}
    (gid : string) (rev : Z) (callGroup callID : string) (s : State) :
  let r := RetrieveGroupByID gid rev s in
  let u := UpdateActiveCalls callGroup callID (cli s) in
  (forall gid', gid' <> gid ->
     groups (theCache (cli r.2)) !! gid' = groups (theCache (cli s)) !! gid'
     /\ lastFetched (theCache (cli r.2)) !! gid'
        = lastFetched (theCache (cli s)) !! gid')
  /\ activeCalls (theCache (cli r.2)) = activeCalls (theCache (cli s))
  /\ groups (theCache u.2) = groups (theCache (cli s))
  /\ lastFetched (theCache u.2) = lastFetched (theCache (cli s))
  /\ cli_GroupCredentials u.2 = cli_GroupCredentials (cli s)
  /\ Store_ACI u.2 = Store_ACI (cli s)
  /\ Store_PNI u.2 = Store_PNI (cli s).
Proof.
  cbv zeta. split; [| split].
  - intros gid' Hne.
    destruct (RetrieveGroupByID_cache gid rev s)
      as [-> | (g & t & -> & -> & _)]; [auto |].
    rewrite !lookup_insert_ne by congruence. auto.
  - destruct (RetrieveGroupByID_cache gid rev s)
      as [-> | (g & t & _ & _ & ->)]; reflexivity.
  - destruct (UpdateActiveCalls_keeps_groups callGroup callID (cli s)) as (Hg & Hl).
    split; [exact Hg |]. split; [exact Hl |].
    unfold UpdateActiveCalls. cbv zeta. rewrite theCache_initGroupCache.
    assert (Hinit : cli_GroupCredentials (initGroupCache (cli s))
                    = cli_GroupCredentials (cli s)
                    /\ Store_ACI (initGroupCache (cli s)) = Store_ACI (cli s)
                    /\ Store_PNI (initGroupCache (cli s)) = Store_PNI (cli s)).
    { unfold initGroupCache. destruct (cli_GroupCache (cli s)); repeat split. }
    destruct Hinit as (Hcreds & Haci & Hpni).
    destruct (activeCalls (theCache (cli s)) !! callGroup) as [cur |];
      [destruct (String.eqb cur callID) |]; cbn; auto.
Qed.

(** X20: the two maps of the cache stay aligned: if every identifier with a
    fetch time has a cached group and the other way round, this still holds
    after [RetrieveGroupByID] and after [UpdateActiveCalls]. *)
Theorem cache_stays_aligned `{Collaborators}
    (gid : string) (rev : Z) (callGroup callID : string) (s : State) :
  cacheAligned (cli s) ->
  cacheAligned (cli (RetrieveGroupByID gid rev s).2)
  /\ cacheAligned (UpdateActiveCalls callGroup callID (cli s)).2.
Proof.
  intros Haligned. split.
  - unfold cacheAligned in *. intros gid'.
    destruct (RetrieveGroupByID_cache gid rev s)
      as [-> | (g & t & -> & -> & _)]; [apply Haligned |].
    rewrite !lookup_insert_is_Some'. specialize (Haligned gid'). tauto.
  - destruct (UpdateActiveCalls_keeps_groups callGroup callID (cli s)) as (Hg & Hl).
    unfold cacheAligned in *. intros gid'. rewrite Hg, Hl. apply Haligned.
Qed.

Lemma cache_stays_aligned_witness :
  cacheAligned (cli (@RetrieveGroupByID Sample.collaborators "gid" 0
                       (Sample.stateOf Sample.freshClient Sample.world0)).2)
  /\ cacheAligned (UpdateActiveCalls "gid" "call-1" Sample.freshClient).2.
Proof.
  apply (@cache_stays_aligned Sample.collaborators "gid" 0 "gid" "call-1"
           (Sample.stateOf Sample.freshClient Sample.world0)).
  intros gid. cbn. rewrite !lookup_empty.
  split; intros [x Hx]; discriminate Hx.
Defined.

(** X21: starting and ending a call undo each other.  With no call recorded
    for the group, [UpdateActiveCalls] with an id and then again with the
    same id answers true and then false and leaves the whole client as it
    was after [initGroupCache], whatever else the cache holds. *)
Theorem UpdateActiveCalls_start_then_end (gid callID : string) (c : Client) :
  activeCalls (theCache c) !! gid = None ->
  let r1 := UpdateActiveCalls gid callID c in
  let r2 := UpdateActiveCalls gid callID r1.2 in
  r1.1 = true /\ r2.1 = false
  /\ theCache r2.2 = theCache c
  /\ r2.2 = initGroupCache c.
Proof.
  intros Hnone. cbv zeta.
  assert (Hinit : initGroupCache c
                  = set_GroupCache (Some (theCache c)) c).
  { unfold initGroupCache, theCache, set_GroupCache.
    destruct c as [aci pni creds [cache |]]; reflexivity. }
  assert (H1 : UpdateActiveCalls gid callID c
               = (true, set_GroupCache
                          (Some (set_activeCalls
                                   (<[gid := callID]> (activeCalls (theCache c)))
                                   (theCache c)))
                          (initGroupCache c))).
  { unfold UpdateActiveCalls. cbv zeta. rewrite theCache_initGroupCache, Hnone.
    reflexivity. }
  rewrite H1. cbn [fst snd].
  unfold UpdateActiveCalls. cbv zeta.
  rewrite Hinit. destruct c as [aci pni creds cache]. 
  destruct (theCache {| Store_ACI := aci; Store_PNI := pni;
                        cli_GroupCredentials := creds; cli_GroupCache := cache |})
    as [gs lf ac] eqn:Hcache.
  cbn in Hnone |- *. rewrite lookup_insert_eq. rewrite String.eqb_refl. cbn.
  rewrite delete_insert_id by exact Hnone. auto.
Qed.

Lemma UpdateActiveCalls_start_then_end_witness :
  let r1 := UpdateActiveCalls "gid" "call-1" Sample.freshClient in
  let r2 := UpdateActiveCalls "gid" "call-1" r1.2 in
  r1.1 = true /\ r2.1 = false
  /\ theCache r2.2 = theCache Sample.freshClient
  /\ r2.2 = initGroupCache Sample.freshClient.
Proof.
  apply (UpdateActiveCalls_start_then_end "gid" "call-1" Sample.freshClient).
  reflexivity.
Defined.

(** ** The avatar download and the master-key store *)

Section StoreEffects.
Context `{StoreCollaborators}.

(** [DownloadGroupAvatar], step by step. *)
Lemma DownloadGroupAvatar_run (group : Group) (s : State) :
  let sent := SendHTTPRequest http.MethodGet (AvatarPath group)
                (avatarOpts (world s)) (world s) in
  let tr := trace s ++ [avatarRequestEvent group (world s)] in
  DownloadGroupAvatar group s
  = match sent.1 with
    | inr e => (Err (wrapError "failed to send request" e),
                {| cli := cli s; world := sent.2; trace := tr |})
    | inl (statusCode, body) =>
        if (statusCode <? 200) || (statusCode >=? 300)
        then (Err (errorString ("unexpected response status " +:+ pretty statusCode)),
              {| cli := cli s; world := sent.2; trace := tr |})
        else
          let read := io_ReadAll body sent.2 in
          (match read.1 with
           | inr e => Err (wrapError "failed to read response" e)
           | inl encryptedAvatar =>
               wrapping "failed to decrypt avatar"
                 (decryptGroupAvatar encryptedAvatar (groupMasterKey group))
           end,
           {| cli := cli s; world := read.2; trace := tr |})
    end.
Proof.
  cbv zeta. unfold DownloadGroupAvatar, avatarRequestEvent, avatarOpts.
  unfold bindM at 1. cbn [fst snd].
  unfold bindM at 1. unfold wrappingM at 1. rewrite bindM_emit.
  unfold external at 1. cbn [world cli trace].
  destruct (SendHTTPRequest http.MethodGet (AvatarPath group) _ (world s))
    as [[[statusCode body] | e] w]; cbn [call wrapping fst snd]; [| reflexivity].
  destruct ((statusCode <? 200) || (statusCode >=? 300)); [reflexivity |].
  unfold bindM at 1. unfold wrappingM at 1. unfold external at 1.
  cbn [world cli trace].
  destruct (io_ReadAll body w) as [[encryptedAvatar | e] w']; cbn [call wrapping fst snd];
    [| reflexivity].
  unfold bindM, lift, ret.
  destruct (wrapping "failed to decrypt avatar"
              (decryptGroupAvatar encryptedAvatar (groupMasterKey group)));
    reflexivity.
Qed.

End StoreEffects.

(** X22: [DownloadGroupAvatar] sends exactly one request, a GET for the
    group's avatar path to the content-delivery host with the account's
    basic-auth credentials, whatever it returns; it asks for no group
    credentials, does not enter [fetchGroupByID] and leaves the client
    (credentials and cache included) as it was.  When the request fails, or
    is answered with a status below 200 or from 300 on, the error says so
    and the response body is not read. *)
Theorem DownloadGroupAvatar_request `{StoreCollaborators}
    (group : Group) (s : State) :
  let r := DownloadGroupAvatar group s in
  let sent := SendHTTPRequest http.MethodGet (AvatarPath group)
                (avatarOpts (world s)) (world s) in
  cli r.2 = cli s
  /\ trace r.2 = trace s ++ [avatarRequestEvent group (world s)]
  /\ httpRequests (trace r.2) = S (httpRequests (trace s))
  /\ credentialRequests (trace r.2) = credentialRequests (trace s)
  /\ groupFetches (trace r.2) = groupFetches (trace s)
  /\ (forall e, sent.1 = inr e ->
        r.1 = Err (wrapError "failed to send request" e) /\ world r.2 = sent.2)
  /\ (forall statusCode body, sent.1 = inl (statusCode, body) ->
        statusCode < 200 \/ 300 <= statusCode ->
        r.1 = Err (errorString ("unexpected response status " +:+ pretty statusCode))
        /\ world r.2 = sent.2).
Proof.
  cbv zeta. rewrite DownloadGroupAvatar_run. cbv zeta.
  set (sent := SendHTTPRequest http.MethodGet (AvatarPath group)
                 (avatarOpts (world s)) (world s)).
  assert (Hcount : httpRequests (trace s ++ [avatarRequestEvent group (world s)])
                   = S (httpRequests (trace s))
                   /\ credentialRequests (trace s ++ [avatarRequestEvent group (world s)])
                      = credentialRequests (trace s)
                   /\ groupFetches (trace s ++ [avatarRequestEvent group (world s)])
                      = groupFetches (trace s)).
  { rewrite httpRequests_app, credentialRequests_app, groupFetches_app.
    assert (Hh : httpRequests [avatarRequestEvent group (world s)] = 1%nat)
      by reflexivity.
    assert (Hc : credentialRequests [avatarRequestEvent group (world s)] = 0%nat)
      by reflexivity.
    assert (Hf : groupFetches [avatarRequestEvent group (world s)] = 0%nat)
      by reflexivity.
    rewrite Hh, Hc, Hf. lia. }
  destruct Hcount as (Hh & Hc & Hf).
  destruct (sent.1) as [[statusCode body] | e] eqn:Hsent.
  - destruct ((statusCode <? 200) || (statusCode >=? 300)) eqn:Hstatus;
      cbn [fst snd cli trace world];
      (split; [reflexivity |]); (split; [reflexivity |]);
      (split; [exact Hh |]); (split; [exact Hc |]); (split; [exact Hf |]);
      (split; [intros e [=] |]); intros st bd [= <- <-] Hout.
    + auto.
    + apply orb_false_iff in Hstatus. lia.
  - cbn [fst snd cli trace world].
    split; [reflexivity |]. split; [reflexivity |].
    split; [exact Hh |]. split; [exact Hc |]. split; [exact Hf |].
    split; [intros e' [= <-]; auto | intros st bd [=]].
Qed.

(** X23: the avatar of a group that [decryptGroup] returned.  The request
    goes to the avatar path of the group record; the download does not
    panic; and bytes it returns are always the decryption, under the master
    key the group was decrypted with, of the body of a response with a
    status from 200 to 299. *)
Theorem DownloadGroupAvatar_of_decrypted_group `{StoreCollaborators}
    (eg : signalpb.Group) (mk : string) (g : Group) (s : State) :
  decryptGroup eg mk = Ok g ->
  let r := DownloadGroupAvatar g s in
  let sent := SendHTTPRequest http.MethodGet (signalpb.Avatar eg)
                (avatarOpts (world s)) (world s) in
  trace r.2
  = trace s ++ [HTTPRequestSent http.MethodGet (signalpb.Avatar eg)
                  (avatarOpts (world s))]
  /\ (forall p, r.1 <> Panic p)
  /\ (forall bytes, r.1 = Ok bytes ->
        exists statusCode body encryptedAvatar,
          sent.1 = inl (statusCode, body)
          /\ 200 <= statusCode < 300
          /\ (io_ReadAll body sent.2).1 = inl encryptedAvatar
          /\ decryptGroupAvatar encryptedAvatar mk = Ok bytes).
Proof.
  intros Hg. cbv zeta.
  destruct (decryptGroup_Ok_inv eg mk g Hg)
    as (key & gsp & gid & tb & d & t & ms & Hkey & Hgsp & _ & _ & _ & _ & _ & ->).
  rewrite DownloadGroupAvatar_run. cbv zeta.
  unfold avatarRequestEvent. cbn [AvatarPath groupMasterKey].
  set (sent := SendHTTPRequest http.MethodGet (signalpb.Avatar eg)
                 (avatarOpts (world s)) (world s)).
  assert (Hnopanic : forall enc p,
            wrapping "failed to decrypt avatar" (decryptGroupAvatar enc mk)
            <> Panic p).
  { intros enc p. unfold decryptGroupAvatar. rewrite Hkey. cbn [bindR].
    rewrite Hgsp. cbn [call wrapping bindR].
    destruct (decryptGroupPropertyIntoBlob gsp enc) as [b | e | q] eqn:Hblob;
      cbn; try discriminate.
    exfalso. unfold decryptGroupPropertyIntoBlob in Hblob.
    destruct (DecryptBlobWithPadding gsp enc); cbn in Hblob; try discriminate.
    destruct (proto_Unmarshal_GroupAttributeBlob l); cbn in Hblob; discriminate. }
  destruct (sent.1) as [[statusCode body] | e] eqn:Hsent.
  - destruct ((statusCode <? 200) || (statusCode >=? 300)) eqn:Hstatus;
      cbn [fst snd trace].
    + split; [reflexivity |]. split; [discriminate | discriminate].
    + split; [reflexivity |].
      destruct ((io_ReadAll body sent.2).1) as [enc | e] eqn:Hread.
      * split; [apply Hnopanic |]. 
        intros bytes Hbytes. exists statusCode, body, enc.
        apply orb_false_iff in Hstatus.
        split; [reflexivity |]. split; [lia |]. split; [exact Hread |].
        destruct (decryptGroupAvatar enc mk); cbn in Hbytes; congruence.
      * split; discriminate.
  - cbn [fst snd trace]. split; [reflexivity |]. split; discriminate.
Qed.

Lemma DownloadGroupAvatar_of_decrypted_group_witness :
  let s := Sample.stateOf Sample.freshClient Sample2.worldAvatar in
  let r := @DownloadGroupAvatar Sample.collaborators Sample2.storeCollaborators
             Sample.fetchedGroup s in
  trace r.2
  = [HTTPRequestSent "GET" "groups/avatar"
       {| web.Host := "cdn.signal.org"; web.Username := Some "account.1";
          web.Password := Some "secret"; web.ContentType := "" |}]
  /\ forall p, r.1 <> Panic p.
Proof.
  cbv zeta.
  destruct (@DownloadGroupAvatar_of_decrypted_group Sample.collaborators
              Sample2.storeCollaborators
              (Sample.groupRecord 4 [Some (Sample.member Byte.x07 1)])
              Sample.serializedKey Sample.fetchedGroup
              (Sample.stateOf Sample.freshClient Sample2.worldAvatar))
    as (Htrace & Hnopanic & _).
  - vm_compute. reflexivity.
  - split; [exact Htrace | exact Hnopanic].
Defined.


(** ** libsignalgo: sender certificates and service identifiers *)

Lemma int64_uint64 (e : Z) :
  0 <= e < 2 ^ 64 ->
  sendercertificate.uint64 e = e
  /\ -2 ^ 63 <= sendercertificate.int64 e < 2 ^ 63
  /\ sendercertificate.uint64 (sendercertificate.int64 e) = e
  /\ sendercertificate.int64 (sendercertificate.int64 e) = sendercertificate.int64 e
  /\ (e < 2 ^ 63 -> sendercertificate.int64 e = e)
  /\ (2 ^ 63 <= e -> sendercertificate.int64 e = e - 2 ^ 64).
Proof.
  unfold sendercertificate.uint64, sendercertificate.int64.
  change (2 ^ 64) with 18446744073709551616.
  change (2 ^ 63) with 9223372036854775808.
  intros He.
  repeat split; intros; Z.div_mod_to_equations; lia.
Qed.

(** X25: a certificate is validated at its own expiration with the very
    number libsignal gave.  When libsignal reports the expiration [e] (an
    unsigned 64-bit number of milliseconds), [GetExpiration] returns a time
    [t] such that [Validate] at [t] hands [e] back to libsignal; [t] is [e]
    milliseconds after the epoch when [e] is below 2^63, and lies before the
    epoch otherwise. *)
Theorem GetExpiration_then_Validate {Certificate PublicKey : Type}
    (get_expiration : Certificate -> returns Z)
    (validate : Certificate -> PublicKey -> Z -> returns bool)
    (sc : Certificate) (trustRoot : PublicKey) (e : Z) :
  0 <= e < 2 ^ 64 ->
  get_expiration sc = inl e ->
  exists t,
    sendercertificate.GetExpiration Certificate get_expiration sc = inl t
    /\ sendercertificate.Validate Certificate PublicKey validate sc trustRoot t
       = validate sc trustRoot e
    /\ (e < 2 ^ 63 -> t = e * 1000000)
    /\ (2 ^ 63 <= e -> t < 0).
Proof.
  intros He Hget.
  destruct (int64_uint64 e He) as (Hu & Hrange & Hback & Hidem & Hlow & Hhigh).
  exists (sendercertificate.time_UnixMilli
            (sendercertificate.int64 (sendercertificate.uint64 e))).
  unfold sendercertificate.GetExpiration, sendercertificate.Validate.
  rewrite Hget, Hu.
  split; [reflexivity |].
  unfold sendercertificate.UnixMilli, sendercertificate.time_UnixMilli.
  rewrite Z.div_mul by lia. rewrite Hidem, Hback.
  split; [reflexivity |].
  split; intros Hcase.
  - rewrite (Hlow Hcase). reflexivity.
  - rewrite (Hhigh Hcase). lia.
Qed.

Lemma GetExpiration_then_Validate_witness :
  exists t,
    sendercertificate.GetExpiration unit (fun _ => inl 1700000000000) tt = inl t
    /\ sendercertificate.Validate unit unit
         (fun _ _ ts => inl (ts <? 1700000000001)) tt tt t
       = inl (1700000000000 <? 1700000000001)
    /\ (1700000000000 < 2 ^ 63 -> t = 1700000000000 * 1000000)
    /\ (2 ^ 63 <= 1700000000000 -> t < 0).
Proof.
  apply (@GetExpiration_then_Validate unit unit (fun _ => inl 1700000000000)
           (fun _ _ ts => inl (ts <? 1700000000001)) tt tt 1700000000000).
  - lia.
  - reflexivity.
Defined.

Lemma copy_length (dst src : list byte) :
  length (serviceid.copy dst src) = length dst.
Proof.
  unfold serviceid.copy. cbv zeta.
  rewrite length_app, length_take, length_drop. lia.
Qed.

Lemma copy_covering (dst src : list byte) :
  (length dst <= length src)%nat ->
  serviceid.copy dst src = take (length dst) src.
Proof.
  intros Hle. unfold serviceid.copy. cbv zeta.
  rewrite Nat.min_l by exact Hle.
  rewrite drop_ge by lia. apply app_nil_r.
Qed.

(** X26: converting a UUID to a service identifier and back.
    [SignalServiceIdToUUID] always returns as many bytes as a UUID has.  If
    libsignal's binary form of a service identifier is the byte string it
    was parsed from, then a UUID converted with [SignalServiceIdFromUUID]
    comes back unchanged, while one converted with
    [SignalPNIServiceIdFromUUID] comes back as the marker byte 0x01 followed
    by all but the last byte of the UUID. *)
Theorem service_id_uuid_roundtrip {ServiceId : Type} (UUID_LEN : nat)
    (parse : list byte -> returns ServiceId)
    (binary : ServiceId -> returns (list byte)) (u : list byte) :
  length u = UUID_LEN ->
  (forall b sid, parse b = inl sid -> binary sid = inl b) ->
  (forall sid out,
     serviceid.SignalServiceIdToUUID UUID_LEN ServiceId binary sid = inl out ->
     length out = UUID_LEN)
  /\ (forall sid,
        serviceid.SignalServiceIdFromUUID ServiceId parse u = inl sid ->
        serviceid.SignalServiceIdToUUID UUID_LEN ServiceId binary sid = inl u)
  /\ (forall sid,
        serviceid.SignalPNIServiceIdFromUUID ServiceId parse u = inl sid ->
        serviceid.SignalServiceIdToUUID UUID_LEN ServiceId binary sid
        = inl (take UUID_LEN (Byte.x01 :: u))).
Proof.
  intros Hlen Hffi.
  unfold serviceid.SignalServiceIdToUUID, serviceid.SignalServiceIdFromUUID,
    serviceid.SignalPNIServiceIdFromUUID.
  split; [| split].
  - intros sid out. destruct (binary sid) as [bs | e]; [| discriminate].
    intros [= <-]. rewrite copy_length. apply repeat_length.
  - intros sid Hparse. rewrite (Hffi _ _ Hparse).
    rewrite copy_covering by (rewrite repeat_length; lia).
    rewrite repeat_length. f_equal. apply take_ge. lia.
  - intros sid Hparse. cbv zeta in Hparse. rewrite (Hffi _ _ Hparse).
    rewrite copy_covering by (rewrite repeat_length; cbn; lia).
    rewrite repeat_length. reflexivity.
Qed.

Lemma service_id_uuid_roundtrip_witness :
  serviceid.SignalServiceIdToUUID 16 (list byte) inl
    (Byte.x01 :: repeat Byte.x07 16)
  = inl (Byte.x01 :: repeat Byte.x07 15).
Proof.
  destruct (@service_id_uuid_roundtrip (list byte) 16 inl inl (repeat Byte.x07 16))
    as (_ & _ & Hpni).
  - reflexivity.
  - intros b sid [= <-]. reflexivity.
  - apply (Hpni (Byte.x01 :: repeat Byte.x07 16)). reflexivity.
Defined.
